(** * Pet Empire: the game-economy rules, embedded and verified

    A shallow embedding of the rule evaluators of the bot
    ([bot/utils/pet_generator.py], [bot/services/*.py], and the handlers
    of [bot/handlers/pets.py] and [bot/handlers/missions.py] that buy an
    egg and start a mission) together with the part of the persistence
    layer they rely on, and the properties of the specification proved (or
    refuted) on it.

    Conventions of the embedding.
    - Python [int] is [Z]; Python [float] is idealised as an exact rational
      [Q]: no rounding and no overflow.  [int(x)] is truncation toward zero.
      The one computation whose truncated result depends on the rounding,
      the rewards of a mission, rounds every operation to binary64
      ([Py.float]).
    - [datetime] values are [Z] (seconds); a [timedelta] is a difference of
      two of them; [.date()] is the day number.  One call observes one
      instant [now].
    - Every use of the [random] module is an explicit argument (the draw).
    - An ORM object handed to a service is the key of its row in the
      session; the session keeps the objects in memory ([live]) and the
      rows already committed ([persisted]).  A [select] is evaluated on the
      objects in memory: every service commits its writes before it runs
      the next query.
    - [GameConstants.MAX_PET_LEVEL] and [GameConstants.DAILY_FREE_RAIDS] are
      read by the services and by the pet card, but [GameConstants] in
      [bot/config.py] declares neither (only the settings carry
      [max_pet_level] and [daily_free_raids]): reading either raises
      [AttributeError], and that is what the code does here. *)

From Stdlib Require Import ZArith QArith Qround Qminmax Qpower Lia Lqa String List.
From stdpp Require Import base option list gmap strings fin_maps sorting.

Local Open Scope string_scope.
Local Open Scope Z_scope.

(** ** Python built-ins *)

Module Py.

(** [int(x)] on a float: truncation toward zero. *)
Definition int (x : Q) : Z := Z.quot (Qnum x) (Z.pos (Qden x)).

(** The nearest integer to [n / d] for [d > 0], ties to the even one. *)
Definition round_half_even (n d : Z) : Z :=
  let q := n / d in
  let r := n mod d in
  if 2 * r <? d then q
  else if d <? 2 * r then q + 1
  else if Z.even q then q else q + 1.

(** The binary64 number nearest to [x], ties to even: a significand [m] of
    53 bits and an exponent [e], the value [m * 2 ^ e].  The exponent is
    not bounded: no overflow and no subnormal numbers, which the numbers
    of the game are far from. *)
Definition float (x : Q) : Q :=
  let n := Z.abs (Qnum x) in
  let d := Z.pos (Qden x) in
  if n =? 0 then 0%Q
  else
    let l := Z.log2 n - Z.log2 d in
    let k := if (if 0 <=? l then d * 2 ^ l <=? n else d <=? n * 2 ^ (- l))
             then l else l - 1 in
    let e := k - 52 in
    let m := if 0 <=? e then round_half_even n (d * 2 ^ e)
             else round_half_even (n * 2 ^ (- e)) d in
    let v := if 0 <=? e then inject_Z (m * 2 ^ e)
             else Qmake m (Z.to_pos (2 ^ (- e))) in
    if Qnum x <? 0 then Qopp v else v.

(** [min(a, b)]: the first argument unless the second is smaller. *)
Definition min (a b : Q) : Q := if Qlt_le_dec b a then b else a.

(** [max(a, b)]: the first argument unless the second is larger. *)
Definition max (a b : Q) : Q := if Qlt_le_dec a b then b else a.

(** [max(a, b)] on integers. *)
Definition zmax (a b : Z) : Z := if a <? b then b else a.

(** [x in xs] *)
Definition mem (x : Z) (xs : list Z) : bool := existsb (Z.eqb x) xs.

(** [sum(...)] *)
Definition sum (xs : list Z) : Z := fold_left Z.add xs 0.

(** What a service call can raise. *)
Inductive exn : Type :=
| ValueError (msg : string)
| AttributeError
| KeyError.

Inductive result (A : Type) : Type :=
| Ok (a : A)
| Raise (e : exn).
Arguments Ok {A} a.
Arguments Raise {A} e.

End Py.

(** ** [bot/config.py]: game constants *)

Module GameConstants.

Record mission_data := MissionData {
  duration : Z;
  base_reward : Z;
  exp_reward : Z;
  fail_chance : Q
}.

Definition MISSION_TYPES : list (string * mission_data) :=
  [ ("quick",  MissionData 1800  50   20  (5 # 100));
    ("medium", MissionData 10800 200  80  (15 # 100));
    ("long",   MissionData 28800 800  300 (25 # 100));
    ("epic",   MissionData 43200 2000 800 (30 # 100)) ].

Record trap_data := TrapData {
  cost : Z;
  defense_bonus : Z
}.

Definition TRAP_TYPES : list (string * trap_data) :=
  [ ("basic_wall",     TrapData 100   10);
    ("alarm",          TrapData 500   15);
    ("electric_fence", TrapData 2000  25);
    ("laser_grid",     TrapData 10000 50) ].

(** [TABLE.get(key)] *)
Fixpoint get {A : Type} (table : list (string * A)) (key : string) : option A :=
  match table with
  | [] => None
  | (k, v) :: rest => if String.eqb k key then Some v else get rest key
  end.

Definition EXP_PER_LEVEL : Z := 100.
Definition EVOLUTION_LEVELS : list Z := [10; 25; 50; 75; 100].

Definition RAID_COOLDOWN : Z := 21600.
Definition RAID_SHIELD_DURATION : Z := 3600.
Definition LOYALTY_STEAL_REDUCTION : Q := 5 # 10.

(** [RARITIES], in the order of the dictionary (the colour is
    presentation). *)
Record rarity_data := RarityData {
  chance : Q;
  base_income : Z;
  base_power : Z
}.

Definition RARITIES : list (string * rarity_data) :=
  [ ("Common",    RarityData (50 # 100) 10   5);
    ("Uncommon",  RarityData (30 # 100) 25   12);
    ("Rare",      RarityData (15 # 100) 50   25);
    ("Epic",      RarityData (4 # 100)  150  60);
    ("Legendary", RarityData (9 # 1000) 500  150);
    ("Mythical",  RarityData (1 # 1000) 2000 500) ].


End GameConstants.

(** ** [bot/database/models.py]: the rows

    Columns that no modelled service reads or writes (names, emoji,
    battle pass, VIP, creation stamps) are left out. *)

Module Pet.
Record t := Make {
  owner_id : Z;
  rarity : string;
  level : Z;
  exp : Z;
  power : Z;
  income_per_hour : Z;
  stamina : Z;
  loyalty : Z;
  is_on_mission : bool;
  is_defending : bool;
  fatigue_until : option Z;
  evolution_stage : Z;
  obtained_from : string
}.

(** Attribute assignments. *)
Definition set_owner_id (v : Z) (x : t) : t :=
  Make v (rarity x) (level x) (exp x) (power x) (income_per_hour x)
       (stamina x) (loyalty x) (is_on_mission x) (is_defending x)
       (fatigue_until x) (evolution_stage x) (obtained_from x).
Definition set_exp (v : Z) (x : t) : t :=
  Make (owner_id x) (rarity x) (level x) v (power x) (income_per_hour x)
       (stamina x) (loyalty x) (is_on_mission x) (is_defending x)
       (fatigue_until x) (evolution_stage x) (obtained_from x).
Definition set_is_on_mission (v : bool) (x : t) : t :=
  Make (owner_id x) (rarity x) (level x) (exp x) (power x)
       (income_per_hour x) (stamina x) (loyalty x) v (is_defending x)
       (fatigue_until x) (evolution_stage x) (obtained_from x).
Definition set_is_defending (v : bool) (x : t) : t :=
  Make (owner_id x) (rarity x) (level x) (exp x) (power x)
       (income_per_hour x) (stamina x) (loyalty x) (is_on_mission x) v
       (fatigue_until x) (evolution_stage x) (obtained_from x).
Definition set_fatigue_until (v : option Z) (x : t) : t :=
  Make (owner_id x) (rarity x) (level x) (exp x) (power x)
       (income_per_hour x) (stamina x) (loyalty x) (is_on_mission x)
       (is_defending x) v (evolution_stage x) (obtained_from x).
Definition set_obtained_from (v : string) (x : t) : t :=
  Make (owner_id x) (rarity x) (level x) (exp x) (power x)
       (income_per_hour x) (stamina x) (loyalty x) (is_on_mission x)
       (is_defending x) (fatigue_until x) (evolution_stage x) v.
End Pet.

Module User.
Record t := Make {
  exp : Z;
  coins : Z;
  stars : Z;
  pet_slots : Z;
  raids_won : Z;
  raids_lost : Z;
  defenses_won : Z;
  defenses_lost : Z;
  free_raids_today : Z;
  last_raid_reset : option Z;
  raid_shield_until : option Z;
  traps : gmap string Z
}.

(** Attribute assignments. *)
Definition set_exp (v : Z) (x : t) : t :=
  Make v (coins x) (stars x) (pet_slots x) (raids_won x) (raids_lost x)
       (defenses_won x) (defenses_lost x) (free_raids_today x)
       (last_raid_reset x) (raid_shield_until x) (traps x).
Definition set_coins (v : Z) (x : t) : t :=
  Make (exp x) v (stars x) (pet_slots x) (raids_won x) (raids_lost x)
       (defenses_won x) (defenses_lost x) (free_raids_today x)
       (last_raid_reset x) (raid_shield_until x) (traps x).
Definition set_stars (v : Z) (x : t) : t :=
  Make (exp x) (coins x) v (pet_slots x) (raids_won x) (raids_lost x)
       (defenses_won x) (defenses_lost x) (free_raids_today x)
       (last_raid_reset x) (raid_shield_until x) (traps x).
Definition set_raids_won (v : Z) (x : t) : t :=
  Make (exp x) (coins x) (stars x) (pet_slots x) v (raids_lost x)
       (defenses_won x) (defenses_lost x) (free_raids_today x)
       (last_raid_reset x) (raid_shield_until x) (traps x).
Definition set_raids_lost (v : Z) (x : t) : t :=
  Make (exp x) (coins x) (stars x) (pet_slots x) (raids_won x) v
       (defenses_won x) (defenses_lost x) (free_raids_today x)
       (last_raid_reset x) (raid_shield_until x) (traps x).
Definition set_defenses_won (v : Z) (x : t) : t :=
  Make (exp x) (coins x) (stars x) (pet_slots x) (raids_won x)
       (raids_lost x) v (defenses_lost x) (free_raids_today x)
       (last_raid_reset x) (raid_shield_until x) (traps x).
Definition set_defenses_lost (v : Z) (x : t) : t :=
  Make (exp x) (coins x) (stars x) (pet_slots x) (raids_won x)
       (raids_lost x) (defenses_won x) v (free_raids_today x)
       (last_raid_reset x) (raid_shield_until x) (traps x).
Definition set_free_raids_today (v : Z) (x : t) : t :=
  Make (exp x) (coins x) (stars x) (pet_slots x) (raids_won x)
       (raids_lost x) (defenses_won x) (defenses_lost x) v
       (last_raid_reset x) (raid_shield_until x) (traps x).
Definition set_last_raid_reset (v : option Z) (x : t) : t :=
  Make (exp x) (coins x) (stars x) (pet_slots x) (raids_won x)
       (raids_lost x) (defenses_won x) (defenses_lost x)
       (free_raids_today x) v (raid_shield_until x) (traps x).
Definition set_raid_shield_until (v : option Z) (x : t) : t :=
  Make (exp x) (coins x) (stars x) (pet_slots x) (raids_won x)
       (raids_lost x) (defenses_won x) (defenses_lost x)
       (free_raids_today x) (last_raid_reset x) v (traps x).
Definition set_traps (v : gmap string Z) (x : t) : t :=
  Make (exp x) (coins x) (stars x) (pet_slots x) (raids_won x)
       (raids_lost x) (defenses_won x) (defenses_lost x)
       (free_raids_today x) (last_raid_reset x) (raid_shield_until x) v.
End User.

Module Mission.
Record t := Make {
  user_id : Z;
  pet_id : Z;
  mission_type : string;
  started_at : Z;
  complete_at : Z;
  reward_coins : Z;
  reward_exp : Z;
  status : string
}.

(** Attribute assignments. *)
Definition set_complete_at (v : Z) (x : t) : t :=
  Make (user_id x) (pet_id x) (mission_type x) (started_at x) v
       (reward_coins x) (reward_exp x) (status x).
Definition set_status (v : string) (x : t) : t :=
  Make (user_id x) (pet_id x) (mission_type x) (started_at x)
       (complete_at x) (reward_coins x) (reward_exp x) v.
End Mission.

Module Raid.
Record t := Make {
  attacker_id : Z;
  defender_id : Z;
  attacker_power : Z;
  defender_power : Z;
  result : string;
  stolen_pet_id : option Z;
  timestamp : Z
}.
End Raid.

Module Achievement.
Record t := Make {
  requirement_type : string;
  requirement_value : Z;
  reward_coins : Z;
  reward_stars : Z
}.
End Achievement.

Module AchievementProgress.
Record t := Make {
  current_value : Z;
  completed : bool;
  completed_at : option Z
}.
End AchievementProgress.

(** ** The session

    Tables are finite maps from the primary key to the row; the raid log
    is a list (rows are only ever appended).  A progress row is keyed by
    [(user_id, achievement_id)]: the services create at most one per pair
    and read it with [scalar_one_or_none]. *)

Record Store := MkStore {
  users : gmap Z User.t;
  pets : gmap Z Pet.t;
  missions : gmap Z Mission.t;
  raids : list Raid.t;
  achievements : gmap Z Achievement.t;
  progress : gmap (Z * Z) AchievementProgress.t
}.

Record Session := MkSession {
  live : Store;
  persisted : Store
}.

(** [await session.commit()] *)
Definition commit (s : Session) : Session := MkSession (live s) (live s).

(** [await session.rollback()] *)
Definition rollback (s : Session) : Session := MkSession (persisted s) (persisted s).

Definition set_users (v : gmap Z User.t) (st : Store) : Store :=
  MkStore v (pets st) (missions st) (raids st) (achievements st) (progress st).
Definition set_pets (v : gmap Z Pet.t) (st : Store) : Store :=
  MkStore (users st) v (missions st) (raids st) (achievements st) (progress st).
Definition set_missions (v : gmap Z Mission.t) (st : Store) : Store :=
  MkStore (users st) (pets st) v (raids st) (achievements st) (progress st).
Definition set_raids (v : list Raid.t) (st : Store) : Store :=
  MkStore (users st) (pets st) (missions st) v (achievements st) (progress st).
Definition set_progress (v : gmap (Z * Z) AchievementProgress.t) (st : Store) : Store :=
  MkStore (users st) (pets st) (missions st) (raids st) (achievements st) v.

(** Attribute writes on a loaded object: the in-memory row changes, the
    committed one does not. *)
Definition write_user (k : Z) (u : User.t) (s : Session) : Session :=
  MkSession (set_users (<[k := u]> (users (live s))) (live s)) (persisted s).
Definition write_pet (k : Z) (p : Pet.t) (s : Session) : Session :=
  MkSession (set_pets (<[k := p]> (pets (live s))) (live s)) (persisted s).
Definition write_mission (k : Z) (m : Mission.t) (s : Session) : Session :=
  MkSession (set_missions (<[k := m]> (missions (live s))) (live s)) (persisted s).
Definition write_progress (k : Z * Z) (p : AchievementProgress.t) (s : Session) : Session :=
  MkSession (set_progress (<[k := p]> (progress (live s))) (live s)) (persisted s).

(** Attribute writes through a reference that is already loaded. *)
Definition update_user (k : Z) (f : User.t -> User.t) (s : Session) : Session :=
  match users (live s) !! k with
  | Some u => write_user k (f u) s
  | None => s
  end.
Definition update_pet (k : Z) (f : Pet.t -> Pet.t) (s : Session) : Session :=
  match pets (live s) !! k with
  | Some p => write_pet k (f p) s
  | None => s
  end.

(** [session.add(raid)] *)
Definition add_raid (r : Raid.t) (s : Session) : Session :=
  MkSession (set_raids (raids (live s) ++ [r]) (live s)) (persisted s).

(** The dictionary returned by [calculate_base_stats]. *)
Module Stats.
Record t := Make {
  income_per_hour : Z;
  power : Z;
  stamina : Z;
  loyalty : Z
}.
End Stats.

(** The dictionary returned by [generate_pet], without the name, the pet
    type and the emoji, which are presentation. *)
Module PetData.
Record t := Make {
  rarity : string;
  level : Z;
  exp : Z;
  power : Z;
  income_per_hour : Z;
  stamina : Z;
  loyalty : Z;
  is_shiny : bool;
  evolution_stage : Z;
  obtained_from : string
}.
End PetData.

(** ** [bot/utils/pet_generator.py] *)

Module PetGenerator.
Import GameConstants.

(** [EXP_PER_LEVEL * (1.1 ** current_level)], before truncation. *)
Definition exact_requirement (current_level : Z) : Q :=
  inject_Z EXP_PER_LEVEL * Qpower (11 # 10) current_level.

(** [int(EXP_PER_LEVEL * (1.1 ** current_level))] *)
Definition calculate_level_up_requirements (current_level : Z) : Z :=
  Py.int (exact_requirement current_level).

Definition can_level_up (current_exp current_level : Z) : bool :=
  calculate_level_up_requirements current_level <=? current_exp.

(** [rarity_bonus.get(pet_rarity, 1.0)], as the decimal numbers written
    in the source. *)
Definition rarity_bonus (pet_rarity : string) : Q :=
  if String.eqb pet_rarity "Common" then 1
  else if String.eqb pet_rarity "Uncommon" then 12 # 10
  else if String.eqb pet_rarity "Rare" then 15 # 10
  else if String.eqb pet_rarity "Epic" then 2
  else if String.eqb pet_rarity "Legendary" then 3
  else if String.eqb pet_rarity "Mythical" then 5
  else 1.

(** Returns [(coins, exp)]; [KeyError] (here [None]) on an unknown type.
    The two results are truncated products, and the truncation depends on
    the rounding of the factors ([200 * 1.15] is just below 230): the
    literals, the conversions of the integers and every operation are
    rounded to binary64. *)
Definition generate_mission_rewards
    (mission_type : string) (pet_level : Z) (pet_rarity : string) : option (Z * Z) :=
  match get MISSION_TYPES mission_type with
  | None => None
  | Some mission_data =>
      let base_coins := base_reward mission_data in
      let base_exp := exp_reward mission_data in
      let level_multiplier :=
        Py.float (1 + Py.float (Py.float (inject_Z pet_level) * Py.float (5 # 100))) in
      let multiplier :=
        Py.float (level_multiplier * Py.float (rarity_bonus pet_rarity)) in
      Some (Py.int (Py.float (Py.float (inject_Z base_coins) * multiplier)),
            Py.int (Py.float (Py.float (inject_Z base_exp) * multiplier)))
  end.

(** [KeyError] (here [None]) on an unknown mission type. *)
Definition calculate_mission_success_chance
    (pet_stamina pet_level : Z) (mission_type : string) : option Q :=
  match get MISSION_TYPES mission_type with
  | None => None
  | Some mission_data =>
      let base_fail_chance := fail_chance mission_data in
      let stamina_modifier :=
        if 50 <=? pet_stamina then 1%Q else (inject_Z pet_stamina / 50)%Q in
      let level_modifier := (1 - inject_Z pet_level * (5 # 1000))%Q in
      let level_modifier := Py.max (5 # 10) level_modifier in
      let final_fail_chance :=
        (base_fail_chance * level_modifier * (2 - stamina_modifier))%Q in
      let success_chance := (1 - Py.min final_fail_chance (5 # 10))%Q in
      Some success_chance
  end.

(** [level_up_pet(pet_data)]: the stand-alone level-up, on the fields of the
    pet dictionary. *)
Definition level_up_pet (pet_data : Pet.t) : Pet.t :=
  let level := Pet.level pet_data + 1 in
  let exp := Pet.exp pet_data - calculate_level_up_requirements (level - 1) in
  let income_per_hour :=
    Py.int (inject_Z (Pet.income_per_hour pet_data) * (105 # 100)) in
  let power := Pet.power pet_data + 2 in
  let evolution_stage :=
    if Py.mem level EVOLUTION_LEVELS
    then Pet.evolution_stage pet_data + 1 else Pet.evolution_stage pet_data in
  Pet.Make (Pet.owner_id pet_data) (Pet.rarity pet_data) level exp power
           income_per_hour (Pet.stamina pet_data) (Pet.loyalty pet_data)
           (Pet.is_on_mission pet_data) (Pet.is_defending pet_data)
           (Pet.fatigue_until pet_data) evolution_stage (Pet.obtained_from pet_data).

(** [itertools.accumulate(weights)] *)
Fixpoint accumulate (weights : list Q) (total : Q) : list Q :=
  match weights with
  | [] => []
  | weight :: weights => (total + weight)%Q :: accumulate weights (total + weight)%Q
  end.

(** [bisect(cum_weights, x, 0, hi)] on increasing [cum_weights]: the
    number of entries among the first [hi] that are not above [x]. *)
Definition bisect (cum_weights : list Q) (x : Q) (hi : nat) : nat :=
  length (List.filter (fun c => if Qlt_le_dec x c then false else true)
            (take hi cum_weights)).

(** [random.choices(population, weights=weights)[0]]; [u] is the
    [random.random()] it draws.  [None] is the [IndexError] of an empty
    population. *)
Definition choices (population : list string) (weights : list Q) (u : Q)
  : option string :=
  let cum_weights := accumulate weights 0 in
  let total := List.last cum_weights 0%Q in
  population !! bisect cum_weights (u * total)%Q (length population - 1).

(** [determine_rarity(egg_type)]; [u] is the draw of [random.choices]. *)
Definition determine_rarity (egg_type : string) (u : Q) : option string :=
  if String.eqb egg_type "mythical" then Some "Mythical"
  else if String.eqb egg_type "legendary" then
    choices ["Legendary"; "Mythical"] [9 # 10; 1 # 10] u
  else if String.eqb egg_type "epic" then
    choices ["Epic"; "Legendary"] [8 # 10; 2 # 10] u
  else if String.eqb egg_type "rare" then
    choices ["Rare"; "Epic"; "Legendary"] [7 # 10; 25 # 100; 5 # 100] u
  else
    let rarities := List.map fst RARITIES in
    let weights := List.map (fun row => chance (snd row)) RARITIES in
    choices rarities weights u.

(** The population [determine_rarity] draws from, for each egg type. *)
Definition rarities_of_egg (egg_type : string) : list string :=
  if String.eqb egg_type "mythical" then ["Mythical"]
  else if String.eqb egg_type "legendary" then ["Legendary"; "Mythical"]
  else if String.eqb egg_type "epic" then ["Epic"; "Legendary"]
  else if String.eqb egg_type "rare" then ["Rare"; "Epic"; "Legendary"]
  else List.map fst RARITIES.

(** [calculate_base_stats(rarity, is_shiny)]; [loyalty] is the value of
    [random.randint(40, 60)].  [None] is the [KeyError] of an unknown
    rarity. *)
Definition calculate_base_stats (rarity : string) (is_shiny : bool) (loyalty : Z)
  : option Stats.t :=
  match get RARITIES rarity with
  | None => None
  | Some rarity_data =>
      let base_income := base_income rarity_data in
      let base_power := base_power rarity_data in
      let base_income :=
        if is_shiny then Py.int (inject_Z base_income * (12 # 10)) else base_income in
      let base_power :=
        if is_shiny then Py.int (inject_Z base_power * (12 # 10)) else base_power in
      Some (Stats.Make base_income base_power 100 loyalty)
  end.

(** [is_shiny()]; [draw] is [random.random()]. *)
Definition is_shiny (draw : Q) : bool :=
  if Qlt_le_dec draw (1 # 100) then true else false.

(** [generate_pet(egg_type)]: [u] decides the rarity, [shiny_draw]
    whether the pet is shiny, [loyalty] is the value of
    [random.randint(40, 60)]. *)
Definition generate_pet (egg_type : string) (u shiny_draw : Q) (loyalty : Z)
  : option PetData.t :=
  match determine_rarity egg_type u with
  | None => None
  | Some rarity =>
      let is_shiny := is_shiny shiny_draw in
      match calculate_base_stats rarity is_shiny loyalty with
      | None => None
      | Some stats =>
          Some (PetData.Make rarity 1 0 (Stats.power stats)
                  (Stats.income_per_hour stats) (Stats.stamina stats)
                  (Stats.loyalty stats) is_shiny 0 "egg")
      end
  end.

End PetGenerator.

(** ** [bot/services/pet_service.py] *)

Module PetService.
Import GameConstants PetGenerator.

(** The dictionary returned by [add_exp_to_pet]. *)
Record level_up_info := LevelUpInfo {
  levels_gained : Z;
  new_level : Z;
  new_power : Z;
  new_income : Z;
  evolved : bool
}.

(** The body of the [while] of [add_exp_to_pet]: one level-up. *)
Definition level_up (pet : Pet.t) : Pet.t :=
  let required_exp := calculate_level_up_requirements (Pet.level pet) in
  let exp := Pet.exp pet - required_exp in
  let level := Pet.level pet + 1 in
  let income_per_hour := Py.int (inject_Z (Pet.income_per_hour pet) * (105 # 100)) in
  let power := Pet.power pet + 2 in
  let evolution_stage :=
    if Py.mem level EVOLUTION_LEVELS
    then Pet.evolution_stage pet + 1 else Pet.evolution_stage pet in
  Pet.Make (Pet.owner_id pet) (Pet.rarity pet) level exp power income_per_hour
           (Pet.stamina pet) (Pet.loyalty pet) (Pet.is_on_mission pet)
           (Pet.is_defending pet) (Pet.fatigue_until pet) evolution_stage
           (Pet.obtained_from pet).

(** [add_exp_to_pet(session, pet, exp_amount)].  The guard of the [while]
    is [can_level_up(pet.exp, pet.level) and pet.level <
    GameConstants.MAX_PET_LEVEL]: when the first operand holds, the second
    is evaluated and reading the attribute, which [GameConstants] does not
    have, raises [AttributeError]; the experience is then already added to
    the pet object, and nothing is committed.  When the first operand does
    not hold, the loop is over with no level gained.  The body of the loop
    never runs. *)
Definition add_exp_to_pet (s : Session) (pet_id : Z) (exp_amount : Z)
  : Session * Py.result level_up_info :=
  match pets (live s) !! pet_id with
  | None => (s, Py.Raise Py.AttributeError)
  | Some pet =>
      let pet := Pet.set_exp (Pet.exp pet + exp_amount) pet in
      let s := write_pet pet_id pet s in
      let levels_gained := 0 in
      if can_level_up (Pet.exp pet) (Pet.level pet)
      then (s, Py.Raise Py.AttributeError)
      else
        (commit s,
         Py.Ok (LevelUpInfo levels_gained (Pet.level pet) (Pet.power pet)
                  (Pet.income_per_hour pet)
                  ((0 <? levels_gained) && Py.mem (Pet.level pet) EVOLUTION_LEVELS)))
  end.



(** [select(Pet).where(...)]: the rows (with their keys) that satisfy [cond]. *)
Definition select_pets (s : Session) (cond : Pet.t -> bool) : list (Z * Pet.t) :=
  List.filter (fun row => cond (snd row)) (map_to_list (pets (live s))).

(** [ORDER BY power DESC]: the stronger row first.  Rows of equal power,
    whose order the database leaves open, keep the order of their keys. *)
Definition by_power_desc (row1 row2 : Z * Pet.t) : Prop :=
  Pet.power (snd row2) <= Pet.power (snd row1).

#[global] Instance by_power_desc_dec row1 row2 : Decision (by_power_desc row1 row2) :=
  decide (Pet.power (snd row2) <= Pet.power (snd row1)).

(** [or_(Pet.fatigue_until == None, Pet.fatigue_until < now)] *)
Definition rested (pet : Pet.t) (now : Z) : bool :=
  match Pet.fatigue_until pet with
  | None => true
  | Some fatigue_until => fatigue_until <? now
  end.

(** [get_pet_by_id(session, pet_id, owner_id)]; the result is the key of
    the pet.  [if owner_id:] holds for an owner id other than [None] and 0. *)
Definition get_pet_by_id (s : Session) (pet_id : Z) (owner_id : option Z) : option Z :=
  match pets (live s) !! pet_id with
  | None => None
  | Some pet =>
      match owner_id with
      | Some owner_id =>
          if (owner_id =? 0) || (Pet.owner_id pet =? owner_id)
          then Some pet_id else None
      | None => Some pet_id
      end
  end.

(** [get_available_pets_for_mission(session, user_id)] *)
Definition get_available_pets_for_mission (s : Session) (user_id : Z) (now : Z)
  : list (Z * Pet.t) :=
  merge_sort by_power_desc
    (select_pets s (fun p =>
       (Pet.owner_id p =? user_id)
       && negb (Pet.is_on_mission p)
       && negb (Pet.is_defending p)
       && rested p now)).

(** [get_available_pets_for_raid(session, user_id, max_count)], for a
    limit that is not negative. *)
Definition get_available_pets_for_raid (s : Session) (user_id : Z) (max_count : Z)
    (now : Z) : list (Z * Pet.t) :=
  take (Z.to_nat max_count)
    (merge_sort by_power_desc
       (select_pets s (fun p =>
          (Pet.owner_id p =? user_id)
          && negb (Pet.is_on_mission p)
          && rested p now))).

(** [transfer_pet(session, pet, new_owner_id, reason)].  A missing [pet]
    object raises inside the [try], which rolls back and returns [False]. *)
Definition transfer_pet (s : Session) (pet_id new_owner_id : Z) (reason : string)
  : Session * bool :=
  match users (live s) !! new_owner_id with
  | None => (s, false)
  | Some new_owner =>
      let owner_pets_count :=
        Z.of_nat (length (select_pets s (fun p => Pet.owner_id p =? new_owner_id))) in
      if User.pet_slots new_owner <=? owner_pets_count then (s, false)
      else
        match pets (live s) !! pet_id with
        | None => (rollback s, false)
        | Some pet =>
            let pet := Pet.set_is_on_mission false pet in
            let pet := Pet.set_is_defending false pet in
            let pet := Pet.set_fatigue_until None pet in
            let pet := Pet.set_owner_id new_owner_id pet in
            let pet := Pet.set_obtained_from reason pet in
            (commit (write_pet pet_id pet s), true)
        end
  end.

(** [can_steal_pet(pet)]; [draw] is [random.random()]. *)
Definition can_steal_pet (pet : Pet.t) (draw : Q) : bool :=
  if String.eqb (Pet.rarity pet) "Mythical" then false
  else if 80 <? Pet.loyalty pet
       then (if Qlt_le_dec LOYALTY_STEAL_REDUCTION draw then true else false)
       else true.

(** [set_pet_fatigue(session, pet, hours)] *)
Definition set_pet_fatigue (s : Session) (pet_id : Z) (hours : Z) (now : Z) : Session :=
  commit (update_pet pet_id (Pet.set_fatigue_until (Some (now + hours * 3600))) s).

(** [calculate_total_defense_power(session, user_id)] *)
Definition calculate_total_defense_power (s : Session) (user_id : Z) : Z :=
  let defending_pets :=
    select_pets s (fun p => (Pet.owner_id p =? user_id) && Pet.is_defending p) in
  let total_power :=
    Py.sum (List.map (fun row => Pet.power (snd row) * Pet.level (snd row)) defending_pets) in
  match users (live s) !! user_id with
  | None => total_power
  | Some user =>
      fold_left
        (fun total_power item =>
           let '(trap_type, level) := item in
           let bonus :=
             match get TRAP_TYPES trap_type with
             | Some trap_data => defense_bonus trap_data
             | None => 0
             end * level in
           total_power + bonus)
        (map_to_list (User.traps user)) total_power
  end.

(** The bonus one entry of [user.traps] adds in
    [calculate_total_defense_power]. *)
Definition trap_bonus (item : string * Z) : Z :=
  let '(trap_type, level) := item in
  match get TRAP_TYPES trap_type with
  | Some trap_data => defense_bonus trap_data
  | None => 0
  end * level.

(** [get_stealable_pets(session, user_id)] *)
Definition get_stealable_pets (s : Session) (user_id : Z) : list (Z * Pet.t) :=
  select_pets s (fun p =>
    (Pet.owner_id p =? user_id)
    && negb (Pet.is_on_mission p)
    && negb (String.eqb (Pet.rarity p) "Mythical")).

End PetService.

(** ** [bot/services/mission_service.py] *)

Module MissionService.
Import GameConstants PetGenerator.

(** The dictionary returned by [complete_mission]. *)
Record completion := Completion {
  success : bool;
  coins : Z;
  exp : Z;
  level_up_levels_gained : Z
}.

Definition is_active (mission : Mission.t) : bool :=
  String.eqb (Mission.status mission) "active".

(** The key the database gives to a newly added mission row. *)
Definition new_mission_id (s : Session) : Z :=
  fresh (dom (missions (live s)) ∪ dom (missions (persisted s))).

(** [start_mission(session, pet, mission_type)]; returns the key of the
    mission created. *)
Definition start_mission (s : Session) (pet_id : Z) (mission_type : string) (now : Z)
  : Session * Py.result Z :=
  match pets (live s) !! pet_id with
  | None => (s, Py.Raise Py.AttributeError)
  | Some pet =>
      if Pet.is_on_mission pet
      then (s, Py.Raise (Py.ValueError "Pet is already on a mission"))
      else if Pet.is_defending pet
      then (s, Py.Raise (Py.ValueError "Pet is currently defending"))
      else if match Pet.fatigue_until pet with
              | Some fatigue_until => now <? fatigue_until
              | None => false
              end
      then (s, Py.Raise (Py.ValueError "Pet is too tired"))
      else
        match get MISSION_TYPES mission_type with
        | None => (s, Py.Raise (Py.ValueError "Invalid mission type"))
        | Some mission_data =>
            match generate_mission_rewards mission_type (Pet.level pet) (Pet.rarity pet) with
            | None => (s, Py.Raise Py.KeyError)
            | Some (reward_coins, reward_exp) =>
                let complete_at := now + duration mission_data in
                let mission :=
                  Mission.Make (Pet.owner_id pet) pet_id mission_type now complete_at
                               reward_coins reward_exp "active" in
                let mission_id := new_mission_id s in
                let s := write_pet pet_id (Pet.set_is_on_mission true pet) s in
                let s := write_mission mission_id mission s in
                (commit s, Py.Ok mission_id)
            end
        end
  end.

(** [complete_mission(session, mission)]; [draw] is [random.random()]. *)
Definition complete_mission (s : Session) (mission_id : Z) (now : Z) (draw : Q)
  : Session * Py.result completion :=
  match missions (live s) !! mission_id with
  | None => (s, Py.Raise Py.AttributeError)
  | Some mission =>
      if negb (is_active mission)
      then (s, Py.Raise (Py.ValueError "Mission is not active"))
      else if now <? Mission.complete_at mission
      then (s, Py.Raise (Py.ValueError "Mission is not complete yet"))
      else
        match pets (live s) !! Mission.pet_id mission with
        | None => (s, Py.Raise (Py.ValueError "Pet not found"))
        | Some pet =>
            match calculate_mission_success_chance
                    (Pet.stamina pet) (Pet.level pet) (Mission.mission_type mission) with
            | None => (s, Py.Raise Py.KeyError)
            | Some success_chance =>
                if Qlt_le_dec draw success_chance then
                  match users (live s) !! Mission.user_id mission with
                  | None => (s, Py.Raise Py.AttributeError)
                  | Some user =>
                      let user := User.set_coins (User.coins user + Mission.reward_coins mission) user in
                      let user := User.set_exp (User.exp user + Mission.reward_exp mission / 10) user in
                      let s := write_user (Mission.user_id mission) user s in
                      let '(s, level_up_info) :=
                        PetService.add_exp_to_pet s
                          (Mission.pet_id mission) (Mission.reward_exp mission) in
                      match level_up_info with
                      | Py.Raise e => (s, Py.Raise e)
                      | Py.Ok level_up_info =>
                          let s := write_mission mission_id (Mission.set_status "completed" mission) s in
                          let s := update_pet (Mission.pet_id mission) (Pet.set_is_on_mission false) s in
                          (commit s,
                           Py.Ok (Completion true (Mission.reward_coins mission)
                                    (Mission.reward_exp mission)
                                    (PetService.levels_gained level_up_info)))
                      end
                  end
                else
                  let reduced_coins :=
                    Py.int (inject_Z (Mission.reward_coins mission) * (2 # 10)) in
                  match users (live s) !! Mission.user_id mission with
                  | None => (s, Py.Raise Py.AttributeError)
                  | Some user =>
                      let user := User.set_coins (User.coins user + reduced_coins) user in
                      let s := write_user (Mission.user_id mission) user s in
                      let s := update_pet (Mission.pet_id mission)
                                 (Pet.set_fatigue_until (Some (now + 3600))) s in
                      let s := write_mission mission_id (Mission.set_status "failed" mission) s in
                      let s := update_pet (Mission.pet_id mission) (Pet.set_is_on_mission false) s in
                      (commit s, Py.Ok (Completion false reduced_coins 0 0))
                  end
            end
        end
  end.

(** [check_and_autocomplete_missions(session)]: the background sweep.
    [draws] gives the random draw used for each mission; whatever a
    single [complete_mission] raises is logged and dropped. *)
Definition check_and_autocomplete_missions (s : Session) (now : Z) (draws : Z -> Q)
  : Session :=
  let missions :=
    List.filter
      (fun row => is_active (snd row) && (Mission.complete_at (snd row) <=? now))
      (map_to_list (missions (live s))) in
  fold_left
    (fun s row => fst (complete_mission s (fst row) now (draws (fst row))))
    missions s.
(** What [scalar_one_or_none()] makes of the rows of a query: nothing,
    the one row, or the exception [MultipleResultsFound]. *)
Inductive scalar (A : Type) : Type :=
| NoRow
| OneRow (a : A)
| MultipleResultsFound.
Arguments NoRow {A}.
Arguments OneRow {A} a.
Arguments MultipleResultsFound {A}.

Definition scalar_one_or_none {A : Type} (rows : list A) : scalar A :=
  match rows with
  | [] => NoRow
  | [a] => OneRow a
  | _ :: _ :: _ => MultipleResultsFound
  end.

(** [get_mission_by_pet(session, pet_id)]; the result is the key of the
    mission. *)
Definition get_mission_by_pet (s : Session) (pet_id : Z) : scalar Z :=
  scalar_one_or_none
    (List.filter
       (fun row => (Mission.pet_id (snd row) =? pet_id) && is_active (snd row))
       (map_to_list (missions (live s)))).*1.

(** The [for] loop of the sweep over the rows it selected. *)
Definition sweep_loop (now : Z) (draws : Z -> Q)
    (rows : list (Z * Mission.t)) (s : Session) : Session :=
  fold_left
    (fun s row => fst (complete_mission s (fst row) now (draws (fst row))))
    rows s.

(** [cancel_mission(session, mission)] *)
Definition cancel_mission (s : Session) (mission_id : Z) (now : Z)
  : Session * Py.result bool :=
  match missions (live s) !! mission_id with
  | None => (s, Py.Raise Py.AttributeError)
  | Some mission =>
      if negb (is_active mission) then (s, Py.Ok false)
      else
        let s := update_pet (Mission.pet_id mission)
                   (fun pet => Pet.set_fatigue_until (Some (now + 3600))
                                 (Pet.set_is_on_mission false pet)) s in
        let s := write_mission mission_id (Mission.set_status "cancelled" mission) s in
        (commit s, Py.Ok true)
  end.

(** [instant_complete_mission(session, mission, user)]; returns the cost. *)
Definition instant_complete_mission (s : Session) (mission_id user_id : Z) (now : Z)
  : Session * Py.result Z :=
  match missions (live s) !! mission_id with
  | None => (s, Py.Raise Py.AttributeError)
  | Some mission =>
      if negb (is_active mission)
      then (s, Py.Raise (Py.ValueError "Mission is not active"))
      else
        let time_left := Mission.complete_at mission - now in
        let hours_left := (inject_Z time_left / 3600)%Q in
        let cost := Py.zmax 20 (Py.int (hours_left * 10)) in
        match users (live s) !! user_id with
        | None => (s, Py.Raise Py.AttributeError)
        | Some user =>
            if User.stars user <? cost
            then (s, Py.Raise (Py.ValueError "Not enough Stars"))
            else
              let s := write_user user_id (User.set_stars (User.stars user - cost) user) s in
              let s := write_mission mission_id (Mission.set_complete_at now mission) s in
              (commit s, Py.Ok cost)
        end
  end.

End MissionService.

(** ** [bot/services/raid_service.py] *)

Module RaidService.
Import GameConstants.

(** Why [can_raid_target] answers [False]; the message text shown to the
    player is presentation. *)
Inductive refusal : Type :=
| SelfRaid
| UserNotFound
| NoFreeRaids
| OnCooldown
| DefenderShielded.

Definition refusal_message (r : refusal) : string :=
  match r with
  | SelfRaid => "cannot raid yourself"
  | UserNotFound => "User not found"
  | NoFreeRaids => "no free raids left"
  | OnCooldown => "target on cooldown"
  | DefenderShielded => "target is shielded"
  end.

(** [d.date()] *)
Definition date (d : Z) : Z := d / 86400.

(** Whether the "reset daily raids" block of [can_raid_target] has
    something to do at [now]: never reset before, or last reset on an
    earlier day. *)
Definition reset_due (attacker : User.t) (now : Z) : Prop :=
  match User.last_raid_reset attacker with
  | Some last_raid_reset => date last_raid_reset < date now
  | None => True
  end.

(** The dictionary returned by [execute_raid] (without the rounded
    percentage, which is presentation). *)
Record outcome := Outcome {
  success : bool;
  attack_power : Z;
  defense_power : Z;
  stolen_pet : option Z
}.

(** The win chance of [execute_raid]; [offset] is
    [random.uniform(-0.15, 0.15)]. *)
Definition raid_win_chance (attack_power defense_power : Z) (offset : Q) : Q :=
  let total_power := attack_power + defense_power in
  let win_chance :=
    if total_power =? 0 then 5 # 10
    else (inject_Z attack_power / inject_Z total_power)%Q in
  let win_chance := (win_chance + offset)%Q in
  Py.max (1 # 10) (Py.min (9 # 10) win_chance).

(** [random.choice(seq)] for a non-empty [seq]; [pick] is the random
    source, reduced to an index of [seq]. *)
Definition choice {A : Type} (seq : list A) (pick : nat) : option A :=
  seq !! (pick mod length seq)%nat.

(** The "reset daily raids if needed" block of [can_raid_target]; returns
    the session and the attacker object as they are after it.  On a day
    later than the last reset the block starts with
    [attacker.free_raids_today = GameConstants.DAILY_FREE_RAIDS]: reading
    the attribute, which [GameConstants] does not have, raises
    [AttributeError] before anything is written.  A first reset only
    stamps the instant and commits. *)
Definition reset_daily_raids (s : Session) (attacker_id : Z) (attacker : User.t)
    (now : Z) : Session * Py.result User.t :=
  match User.last_raid_reset attacker with
  | Some last_raid_reset =>
      if date last_raid_reset <? date now
      then (s, Py.Raise Py.AttributeError)
      else (s, Py.Ok attacker)
  | None =>
      let attacker := User.set_last_raid_reset (Some now) attacker in
      (commit (write_user attacker_id attacker s), Py.Ok attacker)
  end.

(** [can_raid_target(session, attacker_id, defender_id)]; [Py.Ok None] is
    the answer [(True, None)], [Py.Ok (Some _)] an answer [(False, _)]. *)
Definition can_raid_target (s : Session) (attacker_id defender_id : Z) (now : Z)
  : Session * Py.result (option refusal) :=
  if attacker_id =? defender_id then (s, Py.Ok (Some SelfRaid))
  else
    match users (live s) !! attacker_id with
    | None => (s, Py.Ok (Some UserNotFound))
    | Some attacker =>
        let '(s, attacker) := reset_daily_raids s attacker_id attacker now in
        match attacker with
        | Py.Raise e => (s, Py.Raise e)
        | Py.Ok attacker =>
            if User.free_raids_today attacker <=? 0 then (s, Py.Ok (Some NoFreeRaids))
            else
              let last_raid :=
                List.filter
                  (fun raid =>
                     (Raid.attacker_id raid =? attacker_id)
                     && (Raid.defender_id raid =? defender_id)
                     && (now - RAID_COOLDOWN <? Raid.timestamp raid))
                  (raids (live s)) in
              match last_raid with
              | _ :: _ => (s, Py.Ok (Some OnCooldown))
              | [] =>
                  match users (live s) !! defender_id with
                  | Some defender =>
                      match User.raid_shield_until defender with
                      | Some raid_shield_until =>
                          if now <? raid_shield_until
                          then (s, Py.Ok (Some DefenderShielded))
                          else (s, Py.Ok None)
                      | None => (s, Py.Ok None)
                      end
                  | None => (s, Py.Ok None)
                  end
              end
        end
    end.

(** [execute_raid(session, attacker_id, defender_id, attacker_pet_ids)].
    [offset] is [random.uniform(-0.15, 0.15)], [draw] the
    [random.random()] that decides the raid, [pick] the source of
    [random.choice] and [loyalty_draw] the [random.random()] of
    [can_steal_pet]. *)
Definition execute_raid (s : Session) (attacker_id defender_id : Z)
    (attacker_pet_ids : list Z) (now : Z)
    (offset draw : Q) (pick : nat) (loyalty_draw : Q)
  : Session * Py.result outcome :=
  let '(s, error) := can_raid_target s attacker_id defender_id now in
  match error with
  | Py.Raise e => (s, Py.Raise e)
  | Py.Ok (Some error) => (s, Py.Raise (Py.ValueError (refusal_message error)))
  | Py.Ok None =>
      let attacker_pets :=
        List.flat_map
          (fun pet_id =>
             match pets (live s) !! pet_id with
             | Some pet => if Pet.owner_id pet =? attacker_id then [(pet_id, pet)] else []
             | None => []
             end)
          attacker_pet_ids in
      match attacker_pets with
      | [] => (s, Py.Raise (Py.ValueError "No valid pets for attack"))
      | _ :: _ =>
          let attack_power :=
            Py.sum (List.map (fun row => Pet.power (snd row) * Pet.level (snd row))
                      attacker_pets) in
          let defense_power := PetService.calculate_total_defense_power s defender_id in
          let win_chance := raid_win_chance attack_power defense_power offset in
          if Qlt_le_dec draw win_chance then
            let stealable_pets := PetService.get_stealable_pets s defender_id in
            let '(s, stolen_pet) :=
              match choice stealable_pets pick with
              | None => (s, None)
              | Some (target_id, target_pet) =>
                  if PetService.can_steal_pet target_pet loyalty_draw then
                    let '(s, transfer_success) :=
                      PetService.transfer_pet s target_id attacker_id "raid" in
                    (s, if transfer_success then Some target_id else None)
                  else (s, None)
              end in
            match users (live s) !! attacker_id with
            | None => (s, Py.Raise Py.AttributeError)
            | Some attacker =>
                let attacker :=
                  User.set_raid_shield_until (Some (now + RAID_SHIELD_DURATION)) attacker in
                let attacker := User.set_raids_won (User.raids_won attacker + 1) attacker in
                let attacker :=
                  User.set_free_raids_today (User.free_raids_today attacker - 1) attacker in
                let s := write_user attacker_id attacker s in
                match users (live s) !! defender_id with
                | None => (s, Py.Raise Py.AttributeError)
                | Some defender =>
                    let defender :=
                      User.set_defenses_lost (User.defenses_lost defender + 1) defender in
                    let s := write_user defender_id defender s in
                    let raid :=
                      Raid.Make attacker_id defender_id attack_power defense_power
                                "win" stolen_pet now in
                    (commit (add_raid raid s),
                     Py.Ok (Outcome true attack_power defense_power stolen_pet))
                end
            end
          else
            let s :=
              fold_left
                (fun s row => PetService.set_pet_fatigue s (fst row) 2 now)
                attacker_pets s in
            match users (live s) !! attacker_id with
            | None => (s, Py.Raise Py.AttributeError)
            | Some attacker =>
                let attacker := User.set_raids_lost (User.raids_lost attacker + 1) attacker in
                let attacker :=
                  User.set_free_raids_today (User.free_raids_today attacker - 1) attacker in
                let s := write_user attacker_id attacker s in
                match users (live s) !! defender_id with
                | None => (s, Py.Raise Py.AttributeError)
                | Some defender =>
                    let defender :=
                      User.set_defenses_won (User.defenses_won defender + 1) defender in
                    let s := write_user defender_id defender s in
                    let raid :=
                      Raid.Make attacker_id defender_id attack_power defense_power
                                "lose" None now in
                    (commit (add_raid raid s),
                     Py.Ok (Outcome false attack_power defense_power None))
                end
            end
      end
  end.
(** [buy_trap(session, user, trap_type)] *)
Definition buy_trap (s : Session) (user_id : Z) (trap_type : string)
  : Session * Py.result bool :=
  match get TRAP_TYPES trap_type with
  | None => (s, Py.Raise (Py.ValueError "Invalid trap type"))
  | Some trap_data =>
      match users (live s) !! user_id with
      | None => (s, Py.Raise Py.AttributeError)
      | Some user =>
          let current_level := default 0 (User.traps user !! trap_type) in
          let cost := cost trap_data * (current_level + 1) in
          if User.coins user <? cost
          then (s, Py.Raise (Py.ValueError "Not enough coins"))
          else
            let user := User.set_coins (User.coins user - cost) user in
            let user :=
              User.set_traps (<[trap_type := current_level + 1]> (User.traps user)) user in
            (commit (write_user user_id user s), Py.Ok true)
      end
  end.

(** The first [for] loop of [execute_raid]: the pets among the ids given
    that exist and belong to the attacker, in the order of the ids. *)
Definition attacker_pets (s : Session) (attacker_id : Z) (attacker_pet_ids : list Z)
  : list (Z * Pet.t) :=
  List.flat_map
    (fun pet_id =>
       match pets (live s) !! pet_id with
       | Some pet => if Pet.owner_id pet =? attacker_id then [(pet_id, pet)] else []
       | None => []
       end)
    attacker_pet_ids.

(** The [for] loop of a lost raid: two hours of fatigue for every
    attacking pet. *)
Definition fatigue_all (s : Session) (now : Z) (rows : list (Z * Pet.t)) : Session :=
  fold_left (fun s row => PetService.set_pet_fatigue s (fst row) 2 now) rows s.

(** The attacker's and the defender's rows as [execute_raid] leaves them. *)
Definition attacker_after (success : bool) (now : Z) (attacker : User.t) : User.t :=
  if success then
    let attacker :=
      User.set_raid_shield_until (Some (now + RAID_SHIELD_DURATION)) attacker in
    let attacker := User.set_raids_won (User.raids_won attacker + 1) attacker in
    User.set_free_raids_today (User.free_raids_today attacker - 1) attacker
  else
    let attacker := User.set_raids_lost (User.raids_lost attacker + 1) attacker in
    User.set_free_raids_today (User.free_raids_today attacker - 1) attacker.

Definition defender_after (success : bool) (defender : User.t) : User.t :=
  if success
  then User.set_defenses_lost (User.defenses_lost defender + 1) defender
  else User.set_defenses_won (User.defenses_won defender + 1) defender.

End RaidService.

(** ** [bot/services/achievement_service.py] *)

Module AchievementService.

(** The body of the [for achievement in achievements] loop; the state is
    the session and the list [newly_completed] (of achievement keys). *)
Definition update_one (user_id : Z) (value_increment : Z) (now : Z)
    (acc : Session * list Z) (row : Z * Achievement.t) : Session * list Z :=
  let '(s, newly_completed) := acc in
  let '(achievement_id, achievement) := row in
  let '(s, progress) :=
    match progress (live s) !! (user_id, achievement_id) with
    | Some progress => (s, progress)
    | None =>
        let progress := AchievementProgress.Make 0 false None in
        (write_progress (user_id, achievement_id) progress s, progress)
    end in
  if AchievementProgress.completed progress then (s, newly_completed)
  else
    let current_value := AchievementProgress.current_value progress + value_increment in
    if Achievement.requirement_value achievement <=? current_value then
      let progress := AchievementProgress.Make current_value true (Some now) in
      let s := write_progress (user_id, achievement_id) progress s in
      let s :=
        update_user user_id
          (fun user =>
             User.set_stars (User.stars user + Achievement.reward_stars achievement)
               (User.set_coins (User.coins user + Achievement.reward_coins achievement) user))
          s in
      (s, (newly_completed ++ [achievement_id])%list)
    else
      let progress :=
        AchievementProgress.Make current_value
          (AchievementProgress.completed progress)
          (AchievementProgress.completed_at progress) in
      (write_progress (user_id, achievement_id) progress s, newly_completed).

(** [select(Achievement).where(requirement_type == achievement_type)] *)
Definition select_achievements (s : Session) (achievement_type : string)
  : list (Z * Achievement.t) :=
  List.filter
    (fun row => String.eqb (Achievement.requirement_type (snd row)) achievement_type)
    (map_to_list (achievements (live s))).

(** [check_and_update_achievements(session, user_id, achievement_type,
    value_increment)]; returns the keys of the achievements completed by
    this call. *)
Definition check_and_update_achievements (s : Session) (user_id : Z)
    (achievement_type : string) (value_increment : Z) (now : Z)
  : Session * list Z :=
  let achievements := select_achievements s achievement_type in
  let '(s, newly_completed) :=
    fold_left (update_one user_id value_increment now) achievements (s, []) in
  (commit s, newly_completed).

(** *** Reading a session, to state what the tracker guarantees *)

(** The [completed] flag and the counter of a user for an achievement;
    a missing progress row counts as "not completed, zero". *)
Definition completed_in (st : Store) (user_id achievement_id : Z) : bool :=
  match progress st !! (user_id, achievement_id) with
  | Some progress => AchievementProgress.completed progress
  | None => false
  end.

Definition counter_in (st : Store) (user_id achievement_id : Z) : Z :=
  match progress st !! (user_id, achievement_id) with
  | Some progress => AchievementProgress.current_value progress
  | None => 0
  end.

(** Whether the loop body, run for [row] in store [st], completes it:
    not completed yet, and the incremented counter reaches the threshold. *)
Definition completes (st : Store) (user_id value_increment : Z)
    (row : Z * Achievement.t) : bool :=
  negb (completed_in st user_id (fst row))
  && (Achievement.requirement_value (snd row)
      <=? counter_in st user_id (fst row) + value_increment).

(** The coins and the stars that the definitions listed in [ids] carry. *)
Definition reward_coins_of (st : Store) (ids : list Z) : Z :=
  foldr (fun achievement_id total =>
           match achievements st !! achievement_id with
           | Some achievement => Achievement.reward_coins achievement + total
           | None => total
           end) 0 ids.

Definition reward_stars_of (st : Store) (ids : list Z) : Z :=
  foldr (fun achievement_id total =>
           match achievements st !! achievement_id with
           | Some achievement => Achievement.reward_stars achievement + total
           | None => total
           end) 0 ids.

(** A call of the tracker: user, metric key, increment, instant. *)
Record call := Call {
  call_user : Z;
  call_key : string;
  call_increment : Z;
  call_now : Z
}.

Definition record_progress (s : Session) (c : call) : Session * list Z :=
  check_and_update_achievements s (call_user c) (call_key c) (call_increment c)
    (call_now c).

(** A run of calls; besides the final session, for every call whether it
    returned [achievement_id] as newly completed for [user_id]. *)
Fixpoint record_all (user_id achievement_id : Z) (s : Session) (calls : list call)
  : Session * list bool :=
  match calls with
  | [] => (s, [])
  | c :: calls =>
      let '(s, newly_completed) := record_progress s c in
      let hit := (call_user c =? user_id) && Py.mem achievement_id newly_completed in
      let '(s, hits) := record_all user_id achievement_id s calls in
      (s, hit :: hits)
  end.

End AchievementService.

(** ** The requests served

    One constructor per service entry point, as the handlers and the
    scheduler call them, and the way its outcome is reported: a
    [ValueError] (or a [False] answer) is a rejection shown to the player,
    any other exception is a crash. *)

Module Bot.

Inductive request : Type :=
| StartMission (pet_id : Z) (mission_type : string)
| CompleteMission (mission_id : Z) (draw : Q)
| CancelMission (mission_id : Z)
| InstantCompleteMission (mission_id user_id : Z)
| Sweep (draws : Z -> Q)
| CanRaidTarget (attacker_id defender_id : Z)
| ExecuteRaid (attacker_id defender_id : Z) (attacker_pet_ids : list Z)
              (offset draw : Q) (pick : nat) (loyalty_draw : Q)
| BuyTrap (user_id : Z) (trap_type : string)
| RecordProgress (user_id : Z) (achievement_type : string) (value_increment : Z).

Inductive response : Type :=
| Accepted
| Rejected (reason : string)
| Crashed (e : Py.exn).

Definition respond {A : Type} (r : Py.result A) : response :=
  match r with
  | Py.Ok _ => Accepted
  | Py.Raise (Py.ValueError reason) => Rejected reason
  | Py.Raise e => Crashed e
  end.

Definition handle (now : Z) (req : request) (s : Session) : Session * response :=
  match req with
  | StartMission pet_id mission_type =>
      let '(s, r) := MissionService.start_mission s pet_id mission_type now in
      (s, respond r)
  | CompleteMission mission_id draw =>
      let '(s, r) := MissionService.complete_mission s mission_id now draw in
      (s, respond r)
  | CancelMission mission_id =>
      let '(s, r) := MissionService.cancel_mission s mission_id now in
      (s, match r with
          | Py.Ok false => Rejected "Mission is not active"
          | _ => respond r
          end)
  | InstantCompleteMission mission_id user_id =>
      let '(s, r) := MissionService.instant_complete_mission s mission_id user_id now in
      (s, respond r)
  | Sweep draws =>
      (MissionService.check_and_autocomplete_missions s now draws, Accepted)
  | CanRaidTarget attacker_id defender_id =>
      let '(s, error) := RaidService.can_raid_target s attacker_id defender_id now in
      (s, match error with
          | Py.Ok (Some error) => Rejected (RaidService.refusal_message error)
          | Py.Ok None => Accepted
          | Py.Raise e => Crashed e
          end)
  | ExecuteRaid attacker_id defender_id attacker_pet_ids offset draw pick loyalty_draw =>
      let '(s, r) :=
        RaidService.execute_raid s attacker_id defender_id
          attacker_pet_ids now offset draw pick loyalty_draw in
      (s, respond r)
  | BuyTrap user_id trap_type =>
      let '(s, r) := RaidService.buy_trap s user_id trap_type in
      (s, respond r)
  | RecordProgress user_id achievement_type value_increment =>
      let '(s, _) :=
        AchievementService.check_and_update_achievements s user_id achievement_type
          value_increment now in
      (s, Accepted)
  end.

(** A run of the bot: the requests served one after the other, each
    at its own instant, all on one session: what a request leaves on the
    objects in memory without committing it is there for the next. *)
Definition serve (reqs : list (Z * request)) (s : Session) : Session :=
  fold_left (fun s r => fst (handle (fst r) (snd r) s)) reqs s.

(** The status of a mission row, if the row exists. *)
Definition mission_status (st : Store) (mission_id : Z) : option string :=
  Mission.status <$> missions st !! mission_id.

(** The moves the status of one mission may make in one step: none, or
    from active to one of the three final values. *)
Definition status_step (status status' : string) : Prop :=
  status' = status
  \/ (status = "active"
      /\ (status' = "completed" \/ status' = "failed" \/ status' = "cancelled")).

(** One step of a session, seen from the mission [mission_id]: its
    status in memory moves by [status_step], and a final status that is
    both in memory and committed stays committed. *)
Definition mission_step (mission_id : Z) (s s' : Session) : Prop :=
  (forall status,
      mission_status (live s) mission_id = Some status ->
      exists status',
        mission_status (live s') mission_id = Some status'
        /\ status_step status status')
  /\ (forall status,
        status <> "active" ->
        mission_status (live s) mission_id = Some status ->
        mission_status (persisted s) mission_id = Some status ->
        mission_status (persisted s') mission_id = Some status).

(** A step that leaves the mission table alone: the rows in memory are
    the same, the committed rows are the old ones or the ones in memory. *)
Definition mission_neutral (s s' : Session) : Prop :=
  missions (live s') = missions (live s)
  /\ (missions (persisted s') = missions (persisted s)
      \/ missions (persisted s') = missions (live s)).

(** The invariant of the mission table: the pet of an active mission
    exists and is marked as being on a mission, and no two active missions
    have the same pet. *)
Definition one_active_mission_per_pet (st : Store) : Prop :=
  (forall mission_id mission,
      missions st !! mission_id = Some mission ->
      MissionService.is_active mission = true ->
      exists pet,
        pets st !! Mission.pet_id mission = Some pet
        /\ Pet.is_on_mission pet = true)
  /\ (forall mission_id1 mission_id2 mission1 mission2,
        missions st !! mission_id1 = Some mission1 ->
        missions st !! mission_id2 = Some mission2 ->
        MissionService.is_active mission1 = true ->
        MissionService.is_active mission2 = true ->
        Mission.pet_id mission1 = Mission.pet_id mission2 ->
        mission_id1 = mission_id2).

(** The same, as a check that can be run on a store. *)
Definition check_missions (st : Store) : bool :=
  forallb
    (fun row1 =>
       negb (MissionService.is_active (snd row1))
       || (match pets st !! Mission.pet_id (snd row1) with
           | Some pet => Pet.is_on_mission pet
           | None => false
           end
           && forallb
                (fun row2 =>
                   negb (MissionService.is_active (snd row2))
                   || negb (Mission.pet_id (snd row2) =? Mission.pet_id (snd row1))
                   || (fst row2 =? fst row1))
                (map_to_list (missions st))))
    (map_to_list (missions st)).

(** A step after which every pet that was on a mission still is. *)
Definition keeps_busy (s s' : Session) : Prop :=
  forall pet_id pet,
    pets (live s) !! pet_id = Some pet ->
    Pet.is_on_mission pet = true ->
    exists pet',
      pets (live s') !! pet_id = Some pet'
      /\ Pet.is_on_mission pet' = true.

(** A step that keeps every mission row other than [mission_id], and the
    existence of every pet and player. *)
Definition keeps (mission_id : Z) (s s' : Session) : Prop :=
  (forall k, k <> mission_id -> missions (live s') !! k = missions (live s) !! k)
  /\ (forall k, is_Some (pets (live s) !! k) -> is_Some (pets (live s') !! k))
  /\ (forall k, is_Some (users (live s) !! k) -> is_Some (users (live s') !! k)).

(** What leveling acts on, and what the chances are computed from: the
    level, the power, the income, the evolution stage and the stamina of
    a pet. *)
Definition stats (pet : Pet.t) : Z * Z * Z * Z * Z :=
  (Pet.level pet, Pet.power pet, Pet.income_per_hour pet,
   Pet.evolution_stage pet, Pet.stamina pet).

(** A step after which every pet is still there, with the same [stats]. *)
Definition keeps_stats (s s' : Session) : Prop :=
  forall pet_id pet,
    pets (live s) !! pet_id = Some pet ->
    exists pet',
      pets (live s') !! pet_id = Some pet'
      /\ stats pet' = stats pet.

End Bot.

(** ** [bot/handlers/pets.py], [bot/handlers/missions.py]

    The handlers behind the buttons, without the messages they send: what
    remains is the session they leave and whether the request went
    through.  The text of a refusal that the handler words itself is
    presentation. *)

Module Handlers.
Import GameConstants Bot.


(** [start_mission(callback, session)]: [user_id] is
    [callback.from_user.id]; the pet is looked up as a pet of that player.
    Only a [ValueError] is caught. *)
Definition start_mission (s : Session) (user_id pet_id : Z) (mission_type : string)
    (now : Z) : Session * response :=
  match PetService.get_pet_by_id s pet_id (Some user_id) with
  | None => (s, Crashed Py.AttributeError)
  | Some pet =>
      let '(s, mission) := MissionService.start_mission s pet mission_type now in
      match mission with
      | Py.Raise (Py.ValueError reason) => (s, Rejected reason)
      | Py.Raise e => (s, Crashed e)
      | Py.Ok mission =>
          let '(s, _) :=
            AchievementService.check_and_update_achievements s user_id
              "missions_completed" 0 now in
          (s, Accepted)
      end
  end.

End Handlers.

(** ** Sample data *)

Module Examples.

Definition user (free_raids_today : Z) (last_raid_reset raid_shield_until : option Z)
  : User.t :=
  User.Make 0 1000 0 5 0 0 0 0 free_raids_today last_raid_reset raid_shield_until ∅.

Definition pet (owner_id : Z) (rarity : string) (is_on_mission is_defending : bool)
    (fatigue_until : option Z) : Pet.t :=
  Pet.Make owner_id rarity 5 0 50 100 100 50 is_on_mission is_defending
           fatigue_until 0 "egg".

(** Players 1 and 2; player 1 has never raided, player 2 is shielded
    until 5000.  Pet 10 belongs to player 1; pets 20 (Common, defending,
    tired) and 21 (Mythical) belong to player 2. *)
Definition store (shield : option Z) : Store :=
  MkStore
    (<[1 := user 5 None None]> (<[2 := user 5 (Some 0) shield]> ∅))
    (<[10 := pet 1 "Rare" false false None]>
       (<[20 := pet 2 "Common" false true (Some 9000)]>
          (<[21 := pet 2 "Mythical" false false None]> ∅)))
    ∅ [] ∅ ∅.

(** Player 1 with pet 10 out on the quick mission 7, started at 0 and
    due at 1800. *)
Definition mission_session : Session :=
  let st :=
    MkStore
      (<[1 := user 5 None None]> ∅)
      (<[10 := pet 1 "Rare" true false None]> ∅)
      (<[7 := Mission.Make 1 10 "quick" 0 1800 93 37 "active"]> ∅)
      [] ∅ ∅ in
  MkSession st st.

(** Player 1 and the two collection achievements of the seed data:
    1 ("first pet": one pet, 100 coins) and 2 ("collector": five pets,
    500 coins). *)
Definition achievement_session : Session :=
  let st :=
    MkStore
      (<[1 := user 5 None None]> ∅) ∅ ∅ []
      (<[1 := Achievement.Make "pets_owned" 1 100 0]>
         (<[2 := Achievement.Make "pets_owned" 5 500 0]> ∅))
      ∅ in
  MkSession st st.

Definition open_session : Session := MkSession (store None) (store None).
Definition shielded_session : Session :=
  MkSession (store (Some 5000)) (store (Some 5000)).

End Examples.

(** * Properties *)

(** ** Python built-ins *)

Module PyFacts.

Lemma min_Qmin a b : (Py.min a b == Qmin a b)%Q.
Proof.
  unfold Py.min. destruct (Qlt_le_dec b a) as [Hlt | Hle].
  - symmetry. apply Q.min_r. apply Qlt_le_weak, Hlt.
  - symmetry. apply Q.min_l, Hle.
Qed.

Lemma max_Qmax a b : (Py.max a b == Qmax a b)%Q.
Proof.
  unfold Py.max. destruct (Qlt_le_dec a b) as [Hlt | Hle].
  - symmetry. apply Q.max_r. apply Qlt_le_weak, Hlt.
  - symmetry. apply Q.max_l, Hle.
Qed.

Lemma min_bounds a b lo : (lo <= a -> lo <= b -> lo <= Py.min a b <= b)%Q.
Proof.
  intros Ha Hb. unfold Py.min. destruct (Qlt_le_dec b a); split; lra.
Qed.

Lemma max_lower a b : (a <= Py.max a b)%Q.
Proof. unfold Py.max. destruct (Qlt_le_dec a b); lra. Qed.

Lemma max_upper a b hi : (a <= hi -> b <= hi -> Py.max a b <= hi)%Q.
Proof. intros Ha Hb. unfold Py.max. destruct (Qlt_le_dec a b); lra. Qed.

End PyFacts.

(** ** Mission success chance *)

Module MissionChance.
Import GameConstants PetGenerator.

(** Every mission type of the table has a fail chance between 0 and 1. *)
Lemma fail_chance_range tier data :
  get MISSION_TYPES tier = Some data -> (0 <= fail_chance data <= 1)%Q.
Proof.
  unfold MISSION_TYPES. cbn [get].
  repeat (destruct (String.eqb _ tier);
          [ intros [= <-]; simpl; split; lra | ]).
  discriminate.
Qed.

(** C1. For a mission type of the table with base fail chance [f], a pet
    level [L] and a stamina [S] between 0 and 100, the success chance
    computed before the draw is
    [1 - min(0.5, f * max(0.5, 1 - L*0.005) * (2 - (1 if S >= 50 else S/50)))],
    and it lies between 0.5 and 1. *)
Theorem mission_success_chance_formula (tier : string) (data : mission_data) (L S : Z) :
  get MISSION_TYPES tier = Some data ->
  0 <= S <= 100 ->
  exists p : Q,
    calculate_mission_success_chance S L tier = Some p
    /\ (p == 1 - Qmin (5 # 10)
                  (fail_chance data
                   * Qmax (5 # 10) (1 - inject_Z L * (5 # 1000))
                   * (2 - (if 50 <=? S then 1 else inject_Z S / 50))))%Q
    /\ (5 # 10 <= p <= 1)%Q.
Proof.
  intros Htier HS.
  pose proof (fail_chance_range _ _ Htier) as [Hf0 _].
  unfold calculate_mission_success_chance. rewrite Htier.
  eexists. split; [reflexivity |].
  set (lm := Py.max (5 # 10) (1 - inject_Z L * (5 # 1000))).
  set (sm := if 50 <=? S then 1%Q else (inject_Z S / 50)%Q).
  assert (Hlm : (5 # 10 <= lm)%Q) by apply PyFacts.max_lower.
  assert (Hsm : (0 <= sm <= 1)%Q).
  { subst sm. destruct (50 <=? S) eqn:E; [split; lra |].
    apply Z.leb_gt in E.
    assert (H0 : (inject_Z 0 <= inject_Z S)%Q) by (rewrite <- Zle_Qle; lia).
    assert (H50 : (inject_Z S <= inject_Z 50)%Q) by (rewrite <- Zle_Qle; lia).
    change (inject_Z 0) with 0%Q in H0. change (inject_Z 50) with 50%Q in H50.
    split.
    - apply Qle_shift_div_l; lra.
    - apply Qle_shift_div_r; lra. }
  assert (Hfail : (0 <= fail_chance data * lm * (2 - sm))%Q).
  { apply Qmult_le_0_compat; [apply Qmult_le_0_compat |]; lra. }
  split.
  - rewrite PyFacts.min_Qmin, Q.min_comm.
    subst lm. rewrite PyFacts.max_Qmax. reflexivity.
  - pose proof (PyFacts.min_bounds (fail_chance data * lm * (2 - sm)) (5 # 10) 0 Hfail)
      as Hmin.
    lra.
Qed.

(** The formula at an epic mission, level 3, stamina 20. *)
Lemma mission_success_chance_formula_witness :
  exists p : Q,
    calculate_mission_success_chance 20 3 "epic" = Some p
    /\ (p == 1 - Qmin (5 # 10)
                  ((30 # 100)
                   * Qmax (5 # 10) (1 - inject_Z 3 * (5 # 1000))
                   * (2 - (if 50 <=? 20 then 1 else inject_Z 20 / 50))))%Q
    /\ (5 # 10 <= p <= 1)%Q.
Proof.
  apply (mission_success_chance_formula "epic" (MissionData 43200 2000 800 (30 # 100)) 3 20).
  - reflexivity.
  - lia.
Defined.

End MissionChance.

(** ** Raid win chance *)

Module RaidChance.
Import GameConstants RaidService.

(** C2. For attack power [A >= 0] and defense power [D >= 0] the win
    chance is [A/(A+D)] (0.5 when [A+D = 0]) plus the offset, clamped
    into [0.10, 0.90]. *)
Theorem raid_win_chance_clamped (A D : Z) (offset : Q) :
  0 <= A -> 0 <= D ->
  (raid_win_chance A D offset ==
     Qmax (1 # 10)
       (Qmin (9 # 10)
          ((if 0 <? A + D then inject_Z A / inject_Z (A + D) else 5 # 10) + offset)))%Q
  /\ (1 # 10 <= raid_win_chance A D offset <= 9 # 10)%Q.
Proof.
  intros HA HD. unfold raid_win_chance. split.
  - rewrite PyFacts.max_Qmax, PyFacts.min_Qmin.
    destruct (A + D =? 0) eqn:E0, (0 <? A + D) eqn:Epos; try reflexivity;
      apply Z.eqb_eq in E0 || apply Z.eqb_neq in E0;
      apply Z.ltb_lt in Epos || apply Z.ltb_ge in Epos; lia.
  - split.
    + apply PyFacts.max_lower.
    + apply PyFacts.max_upper; [lra |].
      unfold Py.min. destruct (Qlt_le_dec _ _); lra.
Qed.

(** A lopsided raid: 100000 against 1, with the largest offset. *)
Lemma raid_win_chance_clamped_witness :
  (raid_win_chance 100000 1 (15 # 100) ==
     Qmax (1 # 10)
       (Qmin (9 # 10)
          ((if 0 <? 100000 + 1 then inject_Z 100000 / inject_Z (100000 + 1) else 5 # 10)
           + (15 # 100))))%Q
  /\ (1 # 10 <= raid_win_chance 100000 1 (15 # 100) <= 9 # 10)%Q.
Proof. apply (raid_win_chance_clamped 100000 1 (15 # 100)); lia. Defined.

(** The draw of [execute_raid] is compared with exactly this chance,
    taken at the two powers the raid reports. *)
Lemma execute_raid_draw s attacker_id defender_id ids now offset draw pick ld s' r :
  execute_raid s attacker_id defender_id ids now offset draw pick ld = (s', Py.Ok r) ->
  success r = true <->
  (draw < raid_win_chance (attack_power r) (defense_power r) offset)%Q.
Proof.
  unfold execute_raid.
  destruct (can_raid_target s attacker_id defender_id now) as [s1 [[e |] | e]];
    [discriminate | | discriminate].
  destruct (flat_map _ ids) as [| row rows] eqn:Epets; [discriminate |].
  set (A := Py.sum _). set (D := PetService.calculate_total_defense_power _ _).
  destruct (Qlt_le_dec draw (raid_win_chance A D offset)) as [Hlt | Hge].
  - destruct (choice _ pick) as [[tid tp] |].
    + destruct (PetService.can_steal_pet tp ld).
      * destruct (PetService.transfer_pet _ _ _ _) as [s2 ok].
        repeat (match goal with
                | |- context [match ?x with _ => _ end] => destruct x
                end; try discriminate).
        all: intros [= _ <-]; simpl; tauto.
      * repeat (match goal with
                | |- context [match ?x with _ => _ end] => destruct x
                end; try discriminate).
        all: intros [= _ <-]; simpl; tauto.
    + repeat (match goal with
              | |- context [match ?x with _ => _ end] => destruct x
              end; try discriminate).
      all: intros [= _ <-]; simpl; tauto.
  - repeat (match goal with
            | |- context [match ?x with _ => _ end] => destruct x
            end; try discriminate).
    all: intros [= _ <-]; simpl; split; [discriminate | intros Hlt; lra].
Qed.

End RaidChance.

(** ** Leveling *)

Module LevelingFacts.
Import GameConstants PetGenerator PetService.

Lemma int_floor q : (0 <= q)%Q -> Py.int q = Qfloor q.
Proof.
  destruct q as [n d]. unfold Qle, Py.int, Qfloor. simpl. intros Hn.
  apply Z.quot_div_nonneg; lia.
Qed.

Lemma int_lower_bound (n : Z) q : 0 <= n -> (inject_Z n <= q)%Q -> n <= Py.int q.
Proof.
  intros Hn Hq.
  assert (H0 : (0 <= q)%Q).
  { apply Qle_trans with (inject_Z n); [| exact Hq].
    change 0%Q with (inject_Z 0). rewrite <- Zle_Qle. exact Hn. }
  rewrite int_floor by exact H0.
  rewrite <- (Qfloor_Z n). apply Qfloor_resp_le, Hq.
Qed.

(** From level 0 on, a level costs at least the base amount. *)
Lemma requirement_lower_bound level :
  0 <= level -> EXP_PER_LEVEL <= calculate_level_up_requirements level.
Proof.
  intros Hl. unfold calculate_level_up_requirements, exact_requirement.
  apply int_lower_bound; [unfold EXP_PER_LEVEL; lia |].
  assert (H1 : (1 <= (11 # 10) ^ level)%Q) by (apply Qpower_1_le; [lra | exact Hl]).
  unfold EXP_PER_LEVEL. change (inject_Z 100) with 100%Q. lra.
Qed.

(** On the levels a pet can have, the exact requirement is an integer
    (levels 0, 1 and 2: 100, 110, 121) or lies more than 1/2000 away from
    every integer.  So an evaluation of [100 * 1.1 ** level] whose error
    is below 1/2000 and which does not fall below an exact integer value
    truncates to the same integer; the double precision one of the source
    is of that kind (its errors are below 1e-7 here, and it yields 100.0
    on level 0 and values just above 110 and 121 on levels 1 and 2). *)
Lemma requirement_margin level :
  0 <= level <= 100 ->
  (exact_requirement level == inject_Z (calculate_level_up_requirements level))%Q
  \/ (inject_Z (calculate_level_up_requirements level) + (1 # 2000)
      < exact_requirement level
      < inject_Z (calculate_level_up_requirements level) + 1 - (1 # 2000))%Q.
Proof.
  intros Hlevel.
  set (ok := fun l : Z =>
               let x := exact_requirement l in
               let n := inject_Z (calculate_level_up_requirements l) in
               Qeq_bool x n
               || ((if Qlt_le_dec (n + (1 # 2000)) x then true else false)
                   && (if Qlt_le_dec x (n + 1 - (1 # 2000)) then true else false))).
  assert (Hall : forallb ok (List.map Z.of_nat (seq 0 101)) = true)
    by (vm_compute; reflexivity).
  rewrite forallb_forall in Hall.
  specialize (Hall level).
  assert (Hin : In level (List.map Z.of_nat (seq 0 101))).
  { apply in_map_iff. exists (Z.to_nat level). split; [lia |].
    apply in_seq. lia. }
  apply Hall in Hin. unfold ok in Hin. cbv zeta in Hin.
  apply orb_prop in Hin as [Heq | Hbetween].
  - left. apply Qeq_bool_iff, Heq.
  - right. apply andb_prop in Hbetween as [Hlo Hhi].
    destruct (Qlt_le_dec _ _) as [Hlo' |]; [| discriminate Hlo].
    destruct (Qlt_le_dec _ _) as [Hhi' |]; [| discriminate Hhi].
    split; assumption.
Qed.

(** When the first operand of the guard holds, the guard raises: the
    experience is on the pet object, nothing is committed. *)
Lemma add_exp_to_pet_due s pet_id pet d :
  pets (live s) !! pet_id = Some pet ->
  can_level_up (Pet.exp pet + d) (Pet.level pet) = true ->
  add_exp_to_pet s pet_id d =
    (write_pet pet_id (Pet.set_exp (Pet.exp pet + d) pet) s,
     Py.Raise Py.AttributeError).
Proof.
  intros Hpet Hdue. unfold add_exp_to_pet. rewrite Hpet. cbn [Pet.exp Pet.level Pet.set_exp].
  rewrite Hdue. reflexivity.
Qed.

(** When it does not, the call returns with no level gained. *)
Lemma add_exp_to_pet_not_due s pet_id pet d :
  pets (live s) !! pet_id = Some pet ->
  can_level_up (Pet.exp pet + d) (Pet.level pet) = false ->
  add_exp_to_pet s pet_id d =
    (commit (write_pet pet_id (Pet.set_exp (Pet.exp pet + d) pet) s),
     Py.Ok (LevelUpInfo 0 (Pet.level pet) (Pet.power pet) (Pet.income_per_hour pet)
              false)).
Proof.
  intros Hpet Hdue. unfold add_exp_to_pet. rewrite Hpet. cbn [Pet.exp Pet.level Pet.set_exp].
  rewrite Hdue. reflexivity.
Qed.

(** In both cases the pet in memory is the old one with the experience
    added. *)
Lemma add_exp_to_pet_live s pet_id pet d :
  pets (live s) !! pet_id = Some pet ->
  live (fst (add_exp_to_pet s pet_id d)) =
    live (write_pet pet_id (Pet.set_exp (Pet.exp pet + d) pet) s).
Proof.
  intros Hpet.
  destruct (can_level_up (Pet.exp pet + d) (Pet.level pet)) eqn:Hdue.
  - rewrite (add_exp_to_pet_due _ _ _ _ Hpet Hdue). reflexivity.
  - rewrite (add_exp_to_pet_not_due _ _ _ _ Hpet Hdue). reflexivity.
Qed.

(** C3. Applying experience never changes the level of the pet, so never
    takes it above any maximum; but experience that reaches the
    requirement of the level of the pet, at the cap as below it, is not
    retained without error: the call raises [AttributeError], with the
    experience added to the pet object and nothing committed. *)
Theorem add_exp_beyond_requirement_raises s pet_id pet d :
  pets (live s) !! pet_id = Some pet ->
  calculate_level_up_requirements (Pet.level pet) <= Pet.exp pet + d ->
  let s' := fst (add_exp_to_pet s pet_id d) in
  snd (add_exp_to_pet s pet_id d) = Py.Raise Py.AttributeError
  /\ (exists pet',
        pets (live s') !! pet_id = Some pet'
        /\ Pet.level pet' = Pet.level pet
        /\ Pet.exp pet' = Pet.exp pet + d)
  /\ persisted s' = persisted s.
Proof.
  intros Hpet Hreq.
  assert (Hdue : can_level_up (Pet.exp pet + d) (Pet.level pet) = true)
    by (apply Z.leb_le, Hreq).
  cbv zeta. rewrite (add_exp_to_pet_due _ _ _ _ Hpet Hdue). cbn [fst snd].
  split; [reflexivity |]. split; [| reflexivity].
  eexists. split; [apply lookup_insert_eq |]. split; reflexivity.
Qed.

(** A pet at level 100, the maximum of the settings, given 2,000,000
    experience: [requirement(100)] is 1,378,061. *)
Lemma add_exp_beyond_requirement_raises_witness :
  let pet := Pet.Make 1 "Rare" 100 0 200 400 100 50 false false None 4 "egg" in
  let s := write_pet 10 pet Examples.open_session in
  let s' := fst (add_exp_to_pet s 10 2000000) in
  snd (add_exp_to_pet s 10 2000000) = Py.Raise Py.AttributeError
  /\ (exists pet',
        pets (live s') !! 10 = Some pet'
        /\ Pet.level pet' = Pet.level pet
        /\ Pet.exp pet' = Pet.exp pet + 2000000)
  /\ persisted s' = persisted s.
Proof.
  intros pet s.
  apply (add_exp_beyond_requirement_raises s 10 pet 2000000).
  - reflexivity.
  - vm_compute. discriminate.
Defined.

(** C6. The result of a call never reports an evolution, and never a
    level gained: whenever a result is returned its flag is unset, and
    the pet is at the level and the evolution stage it had.  When a level
    is due, the one case in which an evolution could occur, no result is
    returned: the call raises [AttributeError] and the evolution stage of
    the pet stays what it was. *)
Theorem evolved_flag_never_set s pet_id pet d :
  pets (live s) !! pet_id = Some pet ->
  (forall s' info,
      add_exp_to_pet s pet_id d = (s', Py.Ok info) ->
      evolved info = false
      /\ levels_gained info = 0
      /\ new_level info = Pet.level pet
      /\ can_level_up (Pet.exp pet + d) (Pet.level pet) = false)
  /\ (can_level_up (Pet.exp pet + d) (Pet.level pet) = true ->
      snd (add_exp_to_pet s pet_id d) = Py.Raise Py.AttributeError)
  /\ (exists pet',
        pets (live (fst (add_exp_to_pet s pet_id d))) !! pet_id = Some pet'
        /\ Pet.level pet' = Pet.level pet
        /\ Pet.evolution_stage pet' = Pet.evolution_stage pet).
Proof.
  intros Hpet. split; [| split].
  - intros s' info Hcall.
    destruct (can_level_up (Pet.exp pet + d) (Pet.level pet)) eqn:Hdue.
    + rewrite (add_exp_to_pet_due _ _ _ _ Hpet Hdue) in Hcall. discriminate Hcall.
    + rewrite (add_exp_to_pet_not_due _ _ _ _ Hpet Hdue) in Hcall.
      inversion Hcall; subst. repeat split; reflexivity.
  - intros Hdue. rewrite (add_exp_to_pet_due _ _ _ _ Hpet Hdue). reflexivity.
  - rewrite (add_exp_to_pet_live _ _ _ _ Hpet).
    eexists. split; [apply lookup_insert_eq |]. split; reflexivity.
Qed.

(** A level-9 Common pet back from an epic mission receives 1160
    experience, enough to pass level 10, an evolution level. *)
Lemma evolved_flag_never_set_witness :
  let pet := Pet.Make 1 "Common" 9 0 5 10 100 50 true false None 0 "egg" in
  let s := write_pet 10 pet Examples.open_session in
  generate_mission_rewards "epic" (Pet.level pet) (Pet.rarity pet) = Some (2900, 1160)
  /\ Py.mem 10 EVOLUTION_LEVELS = true
  /\ calculate_level_up_requirements 9 = 235
  /\ add_exp_to_pet s 10 1160
     = (write_pet 10 (Pet.set_exp 1160 pet) s, Py.Raise Py.AttributeError)
  /\ (forall s' info,
        add_exp_to_pet s 10 1160 = (s', Py.Ok info) ->
        evolved info = false
        /\ levels_gained info = 0
        /\ new_level info = Pet.level pet
        /\ can_level_up (Pet.exp pet + 1160) (Pet.level pet) = false)
  /\ (can_level_up (Pet.exp pet + 1160) (Pet.level pet) = true ->
      snd (add_exp_to_pet s 10 1160) = Py.Raise Py.AttributeError)
  /\ (exists pet',
        pets (live (fst (add_exp_to_pet s 10 1160))) !! 10 = Some pet'
        /\ Pet.level pet' = Pet.level pet
        /\ Pet.evolution_stage pet' = Pet.evolution_stage pet).
Proof.
  intros pet s.
  split; [vm_compute; reflexivity |]. split; [reflexivity |].
  split; [vm_compute; reflexivity |]. split; [reflexivity |].
  apply (evolved_flag_never_set s 10 pet 1160). reflexivity.
Defined.

(** C7. A gain that brings the experience of a pet to exactly the
    requirement of its level gains it no level: the call raises
    [AttributeError]; the pet object keeps its level, its power, its
    income and its evolution stage, holds the whole requirement as
    experience, and nothing is committed. *)
Theorem exact_requirement_raises s pet_id pet d :
  pets (live s) !! pet_id = Some pet ->
  Pet.exp pet + d = calculate_level_up_requirements (Pet.level pet) ->
  exists s',
    add_exp_to_pet s pet_id d = (s', Py.Raise Py.AttributeError)
    /\ pets (live s') !! pet_id =
         Some (Pet.set_exp (calculate_level_up_requirements (Pet.level pet)) pet)
    /\ persisted s' = persisted s.
Proof.
  intros Hpet Hexp.
  assert (Hdue : can_level_up (Pet.exp pet + d) (Pet.level pet) = true)
    by (apply Z.leb_le; lia).
  rewrite (add_exp_to_pet_due _ _ _ _ Hpet Hdue), Hexp.
  eexists. split; [reflexivity |]. split; [apply lookup_insert_eq | reflexivity].
Qed.

(** The scenario of the specification: level 5, experience equal to
    [requirement(5) = 161]. *)
Lemma exact_requirement_raises_witness :
  let pet := Pet.Make 1 "Epic" 5 0 60 150 100 50 false false None 0 "egg" in
  let s := write_pet 10 pet Examples.open_session in
  calculate_level_up_requirements 5 = 161
  /\ exists s',
       add_exp_to_pet s 10 161 = (s', Py.Raise Py.AttributeError)
       /\ pets (live s') !! 10 =
            Some (Pet.set_exp (calculate_level_up_requirements (Pet.level pet)) pet)
       /\ persisted s' = persisted s.
Proof.
  intros pet s. split; [vm_compute; reflexivity |].
  apply (exact_requirement_raises s 10 pet 161).
  - reflexivity.
  - vm_compute. reflexivity.
Defined.

End LevelingFacts.

(** ** Pet transfer and raid stealing *)

Module TransferFacts.
Import GameConstants PetService.

(** C10. A transfer that succeeds leaves the pet idle with its new owner
    (flags cleared, no fatigue, whatever they were before) and is
    committed; a transfer to a recipient whose pets already fill the
    slots is refused and changes nothing. *)
Theorem transfer_pet_idle_or_refused
    (s s' : Session) (pet_id new_owner_id : Z) (reason : string) (ok : bool) :
  transfer_pet s pet_id new_owner_id reason = (s', ok) ->
  (ok = true ->
   exists pet pet',
     pets (live s) !! pet_id = Some pet
     /\ pets (live s') !! pet_id = Some pet'
     /\ pets (persisted s') !! pet_id = Some pet'
     /\ Pet.is_on_mission pet' = false
     /\ Pet.is_defending pet' = false
     /\ Pet.fatigue_until pet' = None
     /\ Pet.owner_id pet' = new_owner_id
     /\ Pet.obtained_from pet' = reason
     /\ (Pet.rarity pet', Pet.level pet', Pet.exp pet', Pet.power pet',
         Pet.income_per_hour pet', Pet.stamina pet', Pet.loyalty pet',
         Pet.evolution_stage pet')
        = (Pet.rarity pet, Pet.level pet, Pet.exp pet, Pet.power pet,
           Pet.income_per_hour pet, Pet.stamina pet, Pet.loyalty pet,
           Pet.evolution_stage pet))
  /\ (forall new_owner,
        users (live s) !! new_owner_id = Some new_owner ->
        User.pet_slots new_owner
          <= Z.of_nat (length (select_pets s (fun p => Pet.owner_id p =? new_owner_id))) ->
        ok = false /\ s' = s).
Proof.
  unfold transfer_pet. intros Hrun. split.
  - intros ->.
    destruct (users (live s) !! new_owner_id) as [new_owner |]; [| discriminate].
    destruct (User.pet_slots new_owner <=? _); [discriminate |].
    destruct (pets (live s) !! pet_id) as [pet |] eqn:Hpet; [| discriminate].
    injection Hrun as <-.
    eexists pet, _. split; [reflexivity |].
    simpl. rewrite lookup_insert_eq. repeat split; reflexivity.
  - intros new_owner Howner Hfull. rewrite Howner in Hrun.
    apply Z.leb_le in Hfull. rewrite Hfull in Hrun.
    injection Hrun as <- <-. split; reflexivity.
Qed.

(** Pet 20 (defending and tired under player 2) traded to player 1. *)
Lemma transfer_pet_idle_or_refused_witness :
  let s := Examples.open_session in
  let s' := fst (transfer_pet s 20 1 "trade") in
  let ok := snd (transfer_pet s 20 1 "trade") in
  (ok = true ->
   exists pet pet',
     pets (live s) !! 20 = Some pet
     /\ pets (live s') !! 20 = Some pet'
     /\ pets (persisted s') !! 20 = Some pet'
     /\ Pet.is_on_mission pet' = false
     /\ Pet.is_defending pet' = false
     /\ Pet.fatigue_until pet' = None
     /\ Pet.owner_id pet' = 1
     /\ Pet.obtained_from pet' = "trade"
     /\ (Pet.rarity pet', Pet.level pet', Pet.exp pet', Pet.power pet',
         Pet.income_per_hour pet', Pet.stamina pet', Pet.loyalty pet',
         Pet.evolution_stage pet')
        = (Pet.rarity pet, Pet.level pet, Pet.exp pet, Pet.power pet,
           Pet.income_per_hour pet, Pet.stamina pet, Pet.loyalty pet,
           Pet.evolution_stage pet))
  /\ (forall new_owner,
        users (live s) !! 1 = Some new_owner ->
        User.pet_slots new_owner
          <= Z.of_nat (length (select_pets s (fun p => Pet.owner_id p =? 1))) ->
        ok = false /\ s' = s).
Proof.
  apply (transfer_pet_idle_or_refused Examples.open_session
           (fst (transfer_pet Examples.open_session 20 1 "trade")) 20 1 "trade"
           (snd (transfer_pet Examples.open_session 20 1 "trade"))).
  vm_compute. reflexivity.
Defined.

(** The rows a [select] returns: each matching pet, once. *)
Lemma elem_of_select_pets s cond k p :
  (k, p) ∈ select_pets s cond <-> pets (live s) !! k = Some p /\ cond p = true.
Proof.
  unfold select_pets. rewrite list_elem_of_In, filter_In, <- list_elem_of_In.
  rewrite elem_of_map_to_list. reflexivity.
Qed.

Lemma NoDup_fst_filter {A B} (f : A * B -> bool) (l : list (A * B)) :
  NoDup (l.*1) -> NoDup ((List.filter f l).*1).
Proof.
  induction l as [| x l IH]; simpl; [trivial |].
  intros [Hx Hl]%NoDup_cons.
  destruct (f x); [| auto].
  simpl. apply NoDup_cons. split; [| auto].
  intros Hin. apply Hx.
  apply list_elem_of_fmap in Hin as (y & -> & Hy).
  apply list_elem_of_fmap. exists y. split; [reflexivity |].
  apply list_elem_of_In in Hy. apply filter_In in Hy as [Hy _].
  apply list_elem_of_In, Hy.
Qed.

Lemma NoDup_fst_select_pets s cond : NoDup ((select_pets s cond).*1).
Proof. apply NoDup_fst_filter, NoDup_fst_map_to_list. Qed.

(** [random.choice]: an index below the length selects its own element,
    and only an empty sequence gives nothing. *)
Lemma choice_index {A} (seq : list A) (i : nat) :
  (i < length seq)%nat -> RaidService.choice seq i = seq !! i.
Proof. intros Hi. unfold RaidService.choice. rewrite Nat.mod_small; auto. Qed.

Lemma choice_elem_of {A} (seq : list A) (pick : nat) (x : A) :
  RaidService.choice seq pick = Some x -> x ∈ seq.
Proof. unfold RaidService.choice. apply list_elem_of_lookup_2. Qed.

(** The eligibility check only ever touches the attacker's user row. *)
Lemma reset_daily_raids_pets s attacker_id attacker now :
  pets (live (fst (RaidService.reset_daily_raids s attacker_id attacker now)))
  = pets (live s).
Proof.
  unfold RaidService.reset_daily_raids.
  destruct (User.last_raid_reset attacker); [destruct (_ <? _) |]; reflexivity.
Qed.

Lemma can_raid_target_pets s attacker_id defender_id now :
  pets (live (fst (RaidService.can_raid_target s attacker_id defender_id now)))
  = pets (live s).
Proof.
  unfold RaidService.can_raid_target.
  destruct (attacker_id =? defender_id); [reflexivity |].
  destruct (users (live s) !! attacker_id) as [attacker |]; [| reflexivity].
  pose proof (reset_daily_raids_pets s attacker_id attacker now) as Hreset.
  destruct (RaidService.reset_daily_raids s attacker_id attacker now) as [s1 a1].
  simpl in Hreset.
  repeat (match goal with
          | |- context [match ?x with _ => _ end] => destruct x
          end; simpl; try exact Hreset).
Qed.

(** C9. When a raid reports a stolen pet, that pet was drawn by
    [random.choice] from the defender's pets that are not on a mission and
    not Mythical; the list holds each such pet exactly once and an index
    selects its own element, so a uniform index is a uniform choice among
    them.  A Mythical pet is never the target. *)
Theorem steal_target_never_mythical
    (s s' : Session) (attacker_id defender_id : Z) (ids : list Z) (now : Z)
    (offset draw : Q) (pick : nat) (loyalty_draw : Q)
    (r : RaidService.outcome) (target : Z) :
  RaidService.execute_raid s attacker_id defender_id ids now
    offset draw pick loyalty_draw = (s', Py.Ok r) ->
  RaidService.stolen_pet r = Some target ->
  let stealable := get_stealable_pets s defender_id in
  RaidService.success r = true
  /\ NoDup (stealable.*1)
  /\ (forall k p,
        (k, p) ∈ stealable <->
        pets (live s) !! k = Some p
        /\ Pet.owner_id p = defender_id
        /\ Pet.is_on_mission p = false
        /\ Pet.rarity p <> "Mythical")
  /\ (forall i, (i < length stealable)%nat ->
                RaidService.choice stealable i = stealable !! i)
  /\ exists pet,
       RaidService.choice stealable pick = Some (target, pet)
       /\ pets (live s) !! target = Some pet
       /\ Pet.owner_id pet = defender_id
       /\ Pet.is_on_mission pet = false
       /\ Pet.rarity pet <> "Mythical".
Proof.
  intros Hrun Hstolen stealable.
  assert (Hchar : forall k p,
             (k, p) ∈ stealable <->
             pets (live s) !! k = Some p
             /\ Pet.owner_id p = defender_id
             /\ Pet.is_on_mission p = false
             /\ Pet.rarity p <> "Mythical").
  { intros k p. subst stealable. unfold get_stealable_pets.
    rewrite elem_of_select_pets, !andb_true_iff, !negb_true_iff.
    rewrite Z.eqb_eq, String.eqb_neq. tauto. }
  unfold RaidService.execute_raid in Hrun.
  pose proof (can_raid_target_pets s attacker_id defender_id now) as Hpets.
  destruct (RaidService.can_raid_target s attacker_id defender_id now)
    as [s1 [[e |] | e]]; [discriminate | | discriminate].
  simpl in Hpets.
  assert (Hsame : get_stealable_pets s1 defender_id = stealable).
  { subst stealable. unfold get_stealable_pets, select_pets. rewrite Hpets. reflexivity. }
  rewrite Hsame in Hrun.
  destruct (flat_map _ ids) as [| row rows]; [discriminate |].
  destruct (Qlt_le_dec draw _) as [Hlt | Hge].
  - assert (Hpick : exists pet, RaidService.choice stealable pick = Some (target, pet)).
    { destruct (RaidService.choice stealable pick) as [[tid tp] |].
      - destruct (can_steal_pet tp loyalty_draw).
        + destruct (transfer_pet _ _ _ _) as [s2 [|]];
            repeat (match type of Hrun with
                    | context [match ?x with _ => _ end] => destruct x
                    end; try discriminate);
            injection Hrun as _ <-; simpl in Hstolen; try discriminate.
          injection Hstolen as <-. eauto.
        + repeat (match type of Hrun with
                  | context [match ?x with _ => _ end] => destruct x
                  end; try discriminate);
            injection Hrun as _ <-; simpl in Hstolen; discriminate.
      - repeat (match type of Hrun with
                | context [match ?x with _ => _ end] => destruct x
                end; try discriminate);
          injection Hrun as _ <-; simpl in Hstolen; discriminate. }
    assert (Hwin : RaidService.success r = true).
    { repeat (match type of Hrun with
              | context [match ?x with _ => _ end] => destruct x
              end; try discriminate);
        injection Hrun as _ <-; reflexivity. }
    destruct Hpick as [pet Hpick].
    split; [exact Hwin |].
    split; [apply NoDup_fst_select_pets |].
    split; [exact Hchar |].
    split; [intros i Hi; apply choice_index, Hi |].
    exists pet. split; [exact Hpick |].
    apply choice_elem_of, Hchar in Hpick. exact Hpick.
  - repeat (match type of Hrun with
            | context [match ?x with _ => _ end] => destruct x
            end; try discriminate);
      injection Hrun as _ <-; simpl in Hstolen; discriminate.
Qed.

(** Player 1 raids player 2 with pet 10 and wins: the only stealable pet
    is 20; the Mythical pet 21 is not in the list. *)
Lemma steal_target_never_mythical_witness :
  let s := Examples.open_session in
  let run := RaidService.execute_raid s 1 2 [10] 1000 0 0 0%nat 0 in
  let stealable := get_stealable_pets s 2 in
  snd run = Py.Ok (RaidService.Outcome true 250 250 (Some 20))
  /\ RaidService.success (RaidService.Outcome true 250 250 (Some 20)) = true
  /\ NoDup (stealable.*1)
  /\ (forall k p,
        (k, p) ∈ stealable <->
        pets (live s) !! k = Some p
        /\ Pet.owner_id p = 2
        /\ Pet.is_on_mission p = false
        /\ Pet.rarity p <> "Mythical")
  /\ (forall i, (i < length stealable)%nat ->
                RaidService.choice stealable i = stealable !! i)
  /\ exists pet,
       RaidService.choice stealable 0%nat = Some (20, pet)
       /\ pets (live s) !! 20 = Some pet
       /\ Pet.owner_id pet = 2
       /\ Pet.is_on_mission pet = false
       /\ Pet.rarity pet <> "Mythical".
Proof.
  split; [vm_compute; reflexivity |].
  apply (steal_target_never_mythical Examples.open_session
           (fst (RaidService.execute_raid Examples.open_session 1 2 [10] 1000 0 0 0%nat 0))
           1 2 [10] 1000 0 0 0%nat 0
           (RaidService.Outcome true 250 250 (Some 20)) 20).
  - vm_compute. reflexivity.
  - reflexivity.
Defined.

End TransferFacts.

(** ** Rejected requests *)

Module RejectionFacts.
Import GameConstants Bot.

(** Case analysis on everything a run [H] branches on. *)
Ltac split_run H :=
  repeat (match type of H with
          | context [match ?x with _ => _ end] => destruct x eqn:?
          end; try discriminate H).

Lemma start_mission_raise s pet_id mission_type now s' e :
  MissionService.start_mission s pet_id mission_type now = (s', Py.Raise e) -> s' = s.
Proof.
  unfold MissionService.start_mission. intros H. split_run H.
  all: injection H as <- _; reflexivity.
Qed.

(** A [ValueError] of [complete_mission] comes from its checks, before
    anything is written.  (An [AttributeError] of [add_exp_to_pet] comes
    after the rewards are on the objects.) *)
Lemma complete_mission_raise s mission_id now draw s' msg :
  MissionService.complete_mission s mission_id now draw
    = (s', Py.Raise (Py.ValueError msg)) ->
  s' = s.
Proof.
  unfold MissionService.complete_mission. intros H.
  destruct (missions (live s) !! mission_id) as [mission |];
    [| injection H as <- _; reflexivity].
  destruct (negb _); [injection H as <- _; reflexivity |].
  destruct (now <? _); [injection H as <- _; reflexivity |].
  destruct (pets (live s) !! Mission.pet_id mission) as [pet |] eqn:Hpet;
    [| injection H as <- _; reflexivity].
  destruct (PetGenerator.calculate_mission_success_chance _ _ _) as [chance |];
    [| injection H as <- _; reflexivity].
  destruct (Qlt_le_dec draw chance);
    (destruct (users (live s) !! Mission.user_id mission) as [user |];
     [| injection H as <- _; reflexivity]).
  - match type of H with
    | context [PetService.add_exp_to_pet ?s1 ?p ?d] =>
        assert (Hpet1 : pets (live s1) !! p = Some pet) by exact Hpet;
        destruct (PetGenerator.can_level_up (Pet.exp pet + d) (Pet.level pet)) eqn:Hdue;
        [rewrite (LevelingFacts.add_exp_to_pet_due _ _ _ _ Hpet1 Hdue) in H
        |rewrite (LevelingFacts.add_exp_to_pet_not_due _ _ _ _ Hpet1 Hdue) in H]
    end; discriminate H.
  - discriminate H.
Qed.

Lemma cancel_mission_refused s mission_id now s' r :
  MissionService.cancel_mission s mission_id now = (s', r) ->
  r <> Py.Ok true -> s' = s.
Proof.
  unfold MissionService.cancel_mission. intros H Hr. split_run H.
  all: injection H as <- <-; try reflexivity; congruence.
Qed.

Lemma instant_complete_mission_raise s mission_id user_id now s' e :
  MissionService.instant_complete_mission s mission_id user_id now = (s', Py.Raise e) ->
  s' = s.
Proof.
  unfold MissionService.instant_complete_mission. intros H. split_run H.
  all: injection H as <- _; reflexivity.
Qed.

Lemma buy_trap_raise s user_id trap_type s' e :
  RaidService.buy_trap s user_id trap_type = (s', Py.Raise e) -> s' = s.
Proof.
  unfold RaidService.buy_trap. intros H. split_run H.
  all: injection H as <- _; reflexivity.
Qed.

Lemma reset_daily_raids_cases s attacker_id attacker now :
  fst (RaidService.reset_daily_raids s attacker_id attacker now) = s
  \/ RaidService.reset_due attacker now.
Proof.
  unfold RaidService.reset_daily_raids, RaidService.reset_due.
  destruct (User.last_raid_reset attacker) as [t |]; [| right; exact I].
  destruct (RaidService.date t <? RaidService.date now) eqn:E.
  - right. apply Z.ltb_lt, E.
  - left. reflexivity.
Qed.

(** Whatever it answers, the eligibility check leaves the session as it
    was, or as the daily reset of the attacker, when due, left it. *)
Lemma can_raid_target_state s attacker_id defender_id now :
  let s' := fst (RaidService.can_raid_target s attacker_id defender_id now) in
  s' = s
  \/ exists attacker,
       users (live s) !! attacker_id = Some attacker
       /\ attacker_id <> defender_id
       /\ RaidService.reset_due attacker now
       /\ s' = fst (RaidService.reset_daily_raids s attacker_id attacker now).
Proof.
  unfold RaidService.can_raid_target.
  destruct (attacker_id =? defender_id) eqn:Eself; [left; reflexivity |].
  apply Z.eqb_neq in Eself.
  destruct (users (live s) !! attacker_id) as [attacker |]; [| left; reflexivity].
  match goal with
  | |- context [let '(s1, a1) := ?X in @?body s1 a1] =>
      assert (Heq : fst (let '(s1, a1) := X in body s1 a1) = fst X)
  end.
  { destruct (RaidService.reset_daily_raids s attacker_id attacker now) as [s1 a1].
    repeat (match goal with
            | |- context [match ?x with _ => _ end] => destruct x
            end; simpl; try reflexivity). }
  cbv zeta. rewrite Heq. clear Heq.
  destruct (reset_daily_raids_cases s attacker_id attacker now) as [Hid | Hdue].
  - left. exact Hid.
  - right. exists attacker. repeat split; assumption.
Qed.

Lemma execute_raid_value_error s a d ids now offset draw pick ld s' msg :
  RaidService.execute_raid s a d ids now offset draw pick ld
    = (s', Py.Raise (Py.ValueError msg)) ->
  s' = fst (RaidService.can_raid_target s a d now).
Proof.
  unfold RaidService.execute_raid. intros H.
  destruct (RaidService.can_raid_target s a d now) as [s1 [[e |] | e]];
    [injection H as <- _; reflexivity | | injection H as <- _; reflexivity].
  destruct (flat_map _ ids); [injection H as <- _; reflexivity |].
  exfalso.
  destruct (Qlt_le_dec _ _).
  - destruct (RaidService.choice _ pick) as [[tid tp] |];
      [destruct (PetService.can_steal_pet tp ld);
       [destruct (PetService.transfer_pet _ _ _ _) as [s2 ok] |] |];
      split_run H.
  - split_run H.
Qed.

(** The same, with the reset spelled out: the only write is the first
    stamp of an attacker who has never been reset.  (On a day later than
    the last reset the block raises and has written nothing.) *)
Lemma can_raid_target_first_stamp s attacker_id defender_id now :
  let s' := fst (RaidService.can_raid_target s attacker_id defender_id now) in
  s' = s
  \/ exists attacker,
       users (live s) !! attacker_id = Some attacker
       /\ attacker_id <> defender_id
       /\ User.last_raid_reset attacker = None
       /\ s' = commit (write_user attacker_id
                         (User.set_last_raid_reset (Some now) attacker) s).
Proof.
  destruct (can_raid_target_state s attacker_id defender_id now)
    as [Hid | (attacker & Ha & Hne & _ & Hs)]; [left; exact Hid |].
  cbv zeta. rewrite Hs. unfold RaidService.reset_daily_raids.
  destruct (User.last_raid_reset attacker) as [last |] eqn:Hlast.
  - left. destruct (_ <? _); reflexivity.
  - right. exists attacker. auto.
Qed.

(** C8, as the code has it. A rejected request leaves the session (the
    objects in memory and the committed rows) exactly as it was, except
    that the raid eligibility check of an attacker who has never been
    reset first stamps the reset of the attacker and commits it: that
    write stays when the raid is then rejected. *)
Theorem rejected_request_state
    (now : Z) (req : request) (s s' : Session) (reason : string) :
  handle now req s = (s', Rejected reason) ->
  match req with
  | CanRaidTarget attacker_id defender_id
  | ExecuteRaid attacker_id defender_id _ _ _ _ _ =>
      s' = s
      \/ exists attacker,
           users (live s) !! attacker_id = Some attacker
           /\ attacker_id <> defender_id
           /\ User.last_raid_reset attacker = None
           /\ s' = commit (write_user attacker_id
                             (User.set_last_raid_reset (Some now) attacker) s)
  | _ => s' = s
  end.
Proof.
  intros H. destruct req; simpl in H.
  - destruct (MissionService.start_mission _ _ _ _) as [s1 [? | e]] eqn:E;
      [discriminate H |].
    injection H as <- _. eapply start_mission_raise, E.
  - destruct (MissionService.complete_mission _ _ _ _) as [s1 [? | e]] eqn:E;
      [discriminate H |].
    destruct e as [msg | |]; try discriminate H.
    injection H as <- _. eapply complete_mission_raise, E.
  - destruct (MissionService.cancel_mission _ _ _) as [s1 r] eqn:E.
    injection H as <- H. eapply cancel_mission_refused; [exact E |].
    intros ->. discriminate H.
  - destruct (MissionService.instant_complete_mission _ _ _ _) as [s1 [? | e]] eqn:E;
      [discriminate H |].
    injection H as <- _. eapply instant_complete_mission_raise, E.
  - discriminate H.
  - pose proof (can_raid_target_first_stamp s attacker_id defender_id now) as Hstate.
    destruct (RaidService.can_raid_target _ _ _ _) as [s1 error].
    injection H as <- _. exact Hstate.
  - pose proof (can_raid_target_first_stamp s attacker_id defender_id now) as Hstate.
    destruct (RaidService.execute_raid _ _ _ _ _ _ _ _ _) as [s1 [? | e]] eqn:E;
      [discriminate H |].
    destruct e as [msg | |]; try discriminate H.
    injection H as <- _.
    apply execute_raid_value_error in E. rewrite E. exact Hstate.
  - destruct (RaidService.buy_trap _ _ _) as [s1 [? | e]] eqn:E; [discriminate H |].
    injection H as <- _. eapply buy_trap_raise, E.
  - destruct (AchievementService.check_and_update_achievements _ _ _ _ _).
    discriminate H.
Qed.

(** Pet 20 is defending: sending it on a mission is rejected and nothing
    changes. *)
Lemma rejected_request_state_witness :
  let s := Examples.open_session in
  let run := handle 1000 (StartMission 20 "quick") s in
  snd run = Rejected "Pet is currently defending" /\ fst run = s.
Proof.
  split; [vm_compute; reflexivity |].
  apply (rejected_request_state 1000 (StartMission 20 "quick")
           Examples.open_session
           (fst (handle 1000 (StartMission 20 "quick") Examples.open_session))
           "Pet is currently defending").
  vm_compute. reflexivity.
Defined.

(** C8 as stated fails: player 1 has never raided and player 2 is
    shielded.  The raid is rejected, yet the attacker's reset stamp has
    been written and committed. *)
Lemma rejected_raid_changes_state :
  let s := Examples.shielded_session in
  let run := handle 1000 (ExecuteRaid 1 2 [10] 0 0 0%nat 0) s in
  snd run = Rejected "target is shielded"
  /\ User.last_raid_reset <$> users (persisted s) !! 1 = Some None
  /\ User.last_raid_reset <$> users (persisted (fst run)) !! 1 = Some (Some 1000)
  /\ fst run <> s.
Proof.
  repeat split; try (vm_compute; reflexivity).
  intros Heq.
  apply (f_equal (fun s => User.last_raid_reset <$> users (persisted s) !! 1)) in Heq.
  vm_compute in Heq. discriminate Heq.
Qed.

End RejectionFacts.

(** ** The mission state machine *)

Module MissionFacts.
Import GameConstants Bot.

Lemma neutral_refl s : mission_neutral s s.
Proof. split; [reflexivity | left; reflexivity]. Qed.

Ltac neutral_now := split; [reflexivity | left; reflexivity].

Lemma neutral_trans s1 s2 s3 : mission_neutral s1 s2 -> mission_neutral s2 s3 -> mission_neutral s1 s3.
Proof.
  intros [Hl12 Hp12] [Hl23 Hp23]. split; [congruence |].
  destruct Hp23 as [-> | ->]; [exact Hp12 | right; exact Hl12].
Qed.

Lemma neutral_commit s s' :
  missions (live s') = missions (live s) -> mission_neutral s (commit s').
Proof. intros H. split; [exact H | right; exact H]. Qed.

Lemma neutral_write_user s k u : mission_neutral s (write_user k u s).
Proof. neutral_now. Qed.

Lemma neutral_update_pet s k f : mission_neutral s (update_pet k f s).
Proof. unfold update_pet. destruct (pets (live s) !! k); neutral_now. Qed.

Lemma neutral_set_pet_fatigue s pet_id hours now :
  mission_neutral s (PetService.set_pet_fatigue s pet_id hours now).
Proof.
  unfold PetService.set_pet_fatigue. apply neutral_commit.
  apply (neutral_update_pet s).
Qed.

Lemma neutral_transfer_pet s pet_id new_owner_id reason pet :
  pets (live s) !! pet_id = Some pet ->
  mission_neutral s (fst (PetService.transfer_pet s pet_id new_owner_id reason)).
Proof.
  intros Hpet. unfold PetService.transfer_pet. rewrite Hpet.
  destruct (users (live s) !! new_owner_id); [| apply neutral_refl].
  destruct (_ <=? _); [apply neutral_refl |].
  simpl. apply neutral_commit. reflexivity.
Qed.

Lemma neutral_reset_daily_raids s attacker_id attacker now :
  mission_neutral s (fst (RaidService.reset_daily_raids s attacker_id attacker now)).
Proof.
  unfold RaidService.reset_daily_raids.
  destruct (User.last_raid_reset attacker); [destruct (_ <? _) |]; simpl;
    try apply neutral_refl; apply neutral_commit; reflexivity.
Qed.

Lemma neutral_can_raid_target s attacker_id defender_id now :
  mission_neutral s (fst (RaidService.can_raid_target s attacker_id defender_id now)).
Proof.
  destruct (RejectionFacts.can_raid_target_state s attacker_id defender_id now)
    as [-> | (attacker & _ & _ & _ & ->)].
  - apply neutral_refl.
  - apply neutral_reset_daily_raids.
Qed.

Lemma neutral_fatigue_all now (rows : list (Z * Pet.t)) : forall s,
  mission_neutral s (fold_left (fun s row => PetService.set_pet_fatigue s (fst row) 2 now) rows s).
Proof.
  induction rows as [| row rows IH]; intros s; simpl; [apply neutral_refl |].
  eapply neutral_trans; [apply neutral_set_pet_fatigue | apply IH].
Qed.

Lemma neutral_execute_raid s a d ids now offset draw pick ld :
  mission_neutral s (fst (RaidService.execute_raid s a d ids now offset draw pick ld)).
Proof.
  unfold RaidService.execute_raid.
  pose proof (neutral_can_raid_target s a d now) as Hcan.
  pose proof (TransferFacts.can_raid_target_pets s a d now) as Hpets.
  destruct (RaidService.can_raid_target s a d now) as [s1 [[e |] | e]];
    [exact Hcan | | exact Hcan].
  simpl in Hcan, Hpets.
  eapply neutral_trans; [exact Hcan |]. clear Hcan.
  destruct (flat_map _ ids) as [| row rows]; [apply neutral_refl |].
  destruct (Qlt_le_dec _ _).
  - destruct (RaidService.choice _ pick) as [[tid tp] |] eqn:Hpick.
    + apply TransferFacts.choice_elem_of in Hpick.
      apply TransferFacts.elem_of_select_pets in Hpick as [Htp _].
      destruct (PetService.can_steal_pet tp ld).
      * pose proof (neutral_transfer_pet s1 tid a "raid" tp Htp) as Htr.
        destruct (PetService.transfer_pet s1 tid a "raid") as [s2 ok].
        simpl in Htr. eapply neutral_trans; [exact Htr |].
        destruct (users (live s2) !! a); [| apply neutral_refl].
        simpl. destruct (_ !! d); [| neutral_now].
        simpl. apply neutral_commit. reflexivity.
      * destruct (users (live s1) !! a); [| apply neutral_refl].
        simpl. destruct (_ !! d); [| neutral_now].
        simpl. apply neutral_commit. reflexivity.
    + destruct (users (live s1) !! a); [| apply neutral_refl].
      simpl. destruct (_ !! d); [| neutral_now].
      simpl. apply neutral_commit. reflexivity.
  - pose proof (neutral_fatigue_all now (row :: rows) s1) as Hfat.
    set (s2 := fold_left _ (row :: rows) s1) in *.
    eapply neutral_trans; [exact Hfat |].
    destruct (users (live s2) !! a); [| apply neutral_refl].
    simpl. destruct (_ !! d); [| neutral_now].
    simpl. apply neutral_commit. reflexivity.
Qed.

Lemma neutral_buy_trap s user_id trap_type :
  mission_neutral s (fst (RaidService.buy_trap s user_id trap_type)).
Proof.
  unfold RaidService.buy_trap.
  repeat (match goal with
          | |- context [match ?x with _ => _ end] => destruct x
          end; simpl; try apply neutral_refl).
  apply neutral_commit. reflexivity.
Qed.

Lemma update_one_missions user_id inc now acc row :
  missions (live (fst (AchievementService.update_one user_id inc now acc row)))
  = missions (live (fst acc)).
Proof.
  unfold AchievementService.update_one.
  destruct acc as [s newly], row as [aid a].
  destruct (progress (live s) !! (user_id, aid)) as [p |]; cbn [fst];
    (destruct (AchievementProgress.completed _); [reflexivity |]);
    (destruct (_ <=? _); [| reflexivity]);
    unfold update_user; cbn;
    destruct (users (live s) !! user_id); reflexivity.
Qed.

Lemma neutral_check_and_update_achievements s user_id key inc now :
  mission_neutral s (fst (AchievementService.check_and_update_achievements s user_id key inc now)).
Proof.
  unfold AchievementService.check_and_update_achievements.
  assert (Hfold : forall rows acc,
             missions (live (fst (fold_left (AchievementService.update_one user_id inc now)
                                    rows acc)))
             = missions (live (fst acc))).
  { induction rows as [| row rows IH]; intros acc; simpl; [reflexivity |].
    rewrite IH. apply update_one_missions. }
  specialize (Hfold (AchievementService.select_achievements s key) (s, [])).
  destruct (fold_left _ _ _) as [s1 newly]. simpl in *.
  apply neutral_commit, Hfold.
Qed.

Lemma status_step_refl st : status_step st st.
Proof. left. reflexivity. Qed.

Lemma status_step_final st st' : st <> "active" -> status_step st st' -> st' = st.
Proof. intros Hna [-> | [-> _]]; [reflexivity | contradiction]. Qed.

Lemma mission_step_refl mid s : mission_step mid s s.
Proof.
  split.
  - intros st Hst. exists st. split; [exact Hst | apply status_step_refl].
  - intros st _ _ Hp. exact Hp.
Qed.

Lemma mission_step_trans mid s1 s2 s3 :
  mission_step mid s1 s2 -> mission_step mid s2 s3 -> mission_step mid s1 s3.
Proof.
  intros [Hl12 Hp12] [Hl23 Hp23]. split.
  - intros st Hst.
    destruct (Hl12 st Hst) as (st2 & Hst2 & Hstep12).
    destruct (Hl23 st2 Hst2) as (st3 & Hst3 & Hstep23).
    exists st3. split; [exact Hst3 |].
    destruct Hstep12 as [-> | [-> Hfin]]; [exact Hstep23 |].
    assert (Hna : st2 <> "active") by (destruct Hfin as [-> | [-> | ->]]; discriminate).
    rewrite (status_step_final _ _ Hna Hstep23). right. split; [reflexivity | exact Hfin].
  - intros st Hna Hl Hp.
    destruct (Hl12 st Hl) as (st2 & Hst2 & Hstep12).
    apply (status_step_final _ _ Hna) in Hstep12. subst st2.
    apply Hp23; [exact Hna | exact Hst2 |]. apply Hp12; assumption.
Qed.

Lemma mission_step_neutral mid s s' : mission_neutral s s' -> mission_step mid s s'.
Proof.
  intros [Hl Hp]. unfold mission_step, mission_status. rewrite Hl. split.
  - intros st Hst. exists st. split; [exact Hst | apply status_step_refl].
  - intros st _ Hlive Hpers. destruct Hp as [-> | ->]; assumption.
Qed.

(** A committed write of one mission row whose status moves by
    [status_step] (or of a new row) is a mission step. *)
Lemma mission_step_insert mid s s' k m :
  missions (live s') = <[k := m]> (missions (live s)) ->
  missions (persisted s') = missions (live s') ->
  (forall old, missions (live s) !! k = Some old ->
               status_step (Mission.status old) (Mission.status m)) ->
  mission_step mid s s'.
Proof.
  intros Hl Hp Hold. unfold mission_step, mission_status. rewrite Hp, Hl.
  destruct (decide (k = mid)) as [-> | Hne].
  - rewrite lookup_insert_eq. simpl. split.
    + intros st Hst.
      destruct (missions (live s) !! mid) as [old |] eqn:Eold; [| discriminate].
      injection Hst as <-. eauto.
    + intros st Hna Hst _.
      destruct (missions (live s) !! mid) as [old |] eqn:Eold; [| discriminate].
      injection Hst as <-. f_equal.
      apply (status_step_final _ _ Hna). auto.
  - rewrite lookup_insert_ne by exact Hne. split.
    + intros st Hst. exists st. split; [exact Hst | apply status_step_refl].
    + intros st _ Hst _. exact Hst.
Qed.

Lemma is_active_status mission :
  MissionService.is_active mission = true -> Mission.status mission = "active".
Proof. unfold MissionService.is_active. apply String.eqb_eq. Qed.

Lemma mission_step_start_mission mid s pet_id mission_type now :
  mission_step mid s (fst (MissionService.start_mission s pet_id mission_type now)).
Proof.
  unfold MissionService.start_mission.
  repeat (match goal with
          | |- context [match ?x with _ => _ end] => destruct x
          end; cbn [fst]; try apply mission_step_refl).
  eapply mission_step_insert; [reflexivity | reflexivity |].
  intros old Hold. exfalso.
  assert (Hin : MissionService.new_mission_id s
                ∈ dom (missions (live s)) ∪ dom (missions (persisted s))).
  { apply elem_of_union_l, elem_of_dom. eauto. }
  exact (is_fresh _ Hin).
Qed.

Lemma mission_step_complete_mission mid s mission_id now draw :
  mission_step mid s (fst (MissionService.complete_mission s mission_id now draw)).
Proof.
  unfold MissionService.complete_mission.
  destruct (missions (live s) !! mission_id) as [mission |] eqn:Hm;
    [| apply mission_step_refl].
  destruct (MissionService.is_active mission) eqn:Hact; [| apply mission_step_refl].
  apply is_active_status in Hact. cbn [negb].
  destruct (now <? _); [apply mission_step_refl |].
  destruct (pets (live s) !! Mission.pet_id mission) as [pet |] eqn:Hpet;
    [| apply mission_step_refl].
  destruct (PetGenerator.calculate_mission_success_chance _ _ _);
    [| apply mission_step_refl].
  destruct (Qlt_le_dec _ _);
    (destruct (users (live s) !! Mission.user_id mission) as [user |];
     [| apply mission_step_refl]).
  - unfold PetService.add_exp_to_pet. cbn. rewrite Hpet. cbn.
    destruct (PetGenerator.can_level_up _ _);
      [apply mission_step_neutral; split; [reflexivity | left; reflexivity] |].
    cbn [fst]. unfold update_pet. cbn. rewrite lookup_insert_eq. cbn.
    eapply mission_step_insert; [reflexivity | reflexivity |].
    intros old Hold. rewrite Hm in Hold. injection Hold as <-.
    right. split; [exact Hact | left; reflexivity].
  - cbn [fst]. unfold update_pet. cbn. rewrite Hpet. cbn. rewrite lookup_insert_eq. cbn.
    eapply mission_step_insert; [reflexivity | reflexivity |].
    intros old Hold. rewrite Hm in Hold. injection Hold as <-.
    right. split; [exact Hact | right; left; reflexivity].
Qed.

Lemma mission_step_cancel_mission mid s mission_id now :
  mission_step mid s (fst (MissionService.cancel_mission s mission_id now)).
Proof.
  unfold MissionService.cancel_mission.
  destruct (missions (live s) !! mission_id) as [mission |] eqn:Hm;
    [| apply mission_step_refl].
  destruct (MissionService.is_active mission) eqn:Hact; [| apply mission_step_refl].
  apply is_active_status in Hact. cbn [negb fst]. unfold update_pet.
  destruct (pets (live s) !! Mission.pet_id mission);
    (eapply mission_step_insert; [reflexivity | reflexivity |];
     intros old Hold; rewrite Hm in Hold; injection Hold as <-;
     right; split; [exact Hact | right; right; reflexivity]).
Qed.

Lemma mission_step_instant_complete_mission mid s mission_id user_id now :
  mission_step mid s
    (fst (MissionService.instant_complete_mission s mission_id user_id now)).
Proof.
  unfold MissionService.instant_complete_mission.
  destruct (missions (live s) !! mission_id) as [mission |] eqn:Hm;
    [| apply mission_step_refl].
  destruct (negb _); [apply mission_step_refl |].
  destruct (users (live s) !! user_id); [| apply mission_step_refl].
  destruct (_ <? _); [apply mission_step_refl |].
  eapply mission_step_insert; [reflexivity | reflexivity |].
  intros old Hold. rewrite Hm in Hold. injection Hold as <-. apply status_step_refl.
Qed.

Lemma mission_step_sweep mid now draws s :
  mission_step mid s (MissionService.check_and_autocomplete_missions s now draws).
Proof.
  unfold MissionService.check_and_autocomplete_missions.
  generalize (List.filter
                (fun row : Z * Mission.t =>
                   MissionService.is_active (snd row)
                   && (Mission.complete_at (snd row) <=? now))
                (map_to_list (missions (live s)))).
  intros rows. revert s.
  induction rows as [| row rows IH]; intros s; simpl; [apply mission_step_refl |].
  eapply mission_step_trans; [apply mission_step_complete_mission | apply IH].
Qed.

(** Every request is a mission step. *)
Lemma mission_step_handle mid now req s :
  mission_step mid s (fst (handle now req s)).
Proof.
  destruct req; simpl.
  - pose proof (mission_step_start_mission mid s pet_id mission_type now) as H.
    destruct (MissionService.start_mission _ _ _ _). exact H.
  - pose proof (mission_step_complete_mission mid s mission_id now draw) as H.
    destruct (MissionService.complete_mission _ _ _ _). exact H.
  - pose proof (mission_step_cancel_mission mid s mission_id now) as H.
    destruct (MissionService.cancel_mission _ _ _). exact H.
  - pose proof (mission_step_instant_complete_mission mid s mission_id user_id now) as H.
    destruct (MissionService.instant_complete_mission _ _ _ _). exact H.
  - apply mission_step_sweep.
  - pose proof (neutral_can_raid_target s attacker_id defender_id now) as H.
    destruct (RaidService.can_raid_target _ _ _ _).
    apply mission_step_neutral, H.
  - pose proof (neutral_execute_raid s attacker_id defender_id attacker_pet_ids
                  now offset draw pick loyalty_draw) as H.
    destruct (RaidService.execute_raid _ _ _ _ _ _ _ _ _).
    apply mission_step_neutral, H.
  - pose proof (neutral_buy_trap s user_id trap_type) as H.
    destruct (RaidService.buy_trap _ _ _). apply mission_step_neutral, H.
  - pose proof (neutral_check_and_update_achievements s user_id achievement_type
                  value_increment now) as H.
    destruct (AchievementService.check_and_update_achievements _ _ _ _ _).
    apply mission_step_neutral, H.
Qed.

Lemma mission_step_serve mid reqs : forall s,
  mission_step mid s (serve reqs s).
Proof.
  induction reqs as [| [now req] reqs IH]; intros s; simpl; [apply mission_step_refl |].
  eapply mission_step_trans; [apply mission_step_handle | apply IH].
Qed.

(** C4. Along any run of requests (start, complete, cancel,
    instant-complete, the sweep, raids, traps, achievements), the status
    of a mission either stays what it was or has moved from ["active"] to
    one of ["completed"], ["failed"], ["cancelled"]; a status other than
    ["active"] never changes again, in memory or in the committed rows. *)
Theorem mission_status_one_directional
    (reqs : list (Z * request)) (s : Session)
    (mission_id : Z) (status : string) :
  mission_status (live s) mission_id = Some status ->
  let s' := serve reqs s in
  exists status',
    mission_status (live s') mission_id = Some status'
    /\ (status' = status
        \/ (status = "active"
            /\ (status' = "completed" \/ status' = "failed" \/ status' = "cancelled")))
    /\ (status <> "active" ->
        status' = status
        /\ (mission_status (persisted s) mission_id = Some status ->
            mission_status (persisted s') mission_id = Some status)).
Proof.
  intros Hst s'.
  destruct (mission_step_serve mission_id reqs s) as [Hlive Hpers].
  destruct (Hlive status Hst) as (status' & Hst' & Hstep).
  exists status'. split; [exact Hst' |]. split; [exact Hstep |].
  intros Hna. split.
  - apply (status_step_final _ _ Hna Hstep).
  - intros Hp. apply Hpers; assumption.
Qed.

(** Mission 7 is completed at 1900; the cancel, the sweep and the
    instant-complete that follow leave it completed. *)
Lemma mission_status_one_directional_witness :
  let s := Examples.mission_session in
  let reqs :=
    [ (1900, CompleteMission 7 0);
      (2000, CancelMission 7);
      (3000, Sweep (fun _ => 0%Q));
      (4000, InstantCompleteMission 7 1) ] in
  let s' := serve reqs s in
  mission_status (live s) 7 = Some "active"
  /\ mission_status (live s') 7 = Some "completed"
  /\ exists status',
       mission_status (live s') 7 = Some status'
       /\ (status' = "active"
           \/ ("active" = "active"
               /\ (status' = "completed" \/ status' = "failed" \/ status' = "cancelled")))
       /\ ("active" <> "active" ->
           status' = "active"
           /\ (mission_status (persisted s) 7 = Some "active" ->
               mission_status (persisted s') 7 = Some "active")).
Proof.
  split; [vm_compute; reflexivity |].
  split; [vm_compute; reflexivity |].
  apply (mission_status_one_directional
           [ (1900, CompleteMission 7 0);
             (2000, CancelMission 7);
             (3000, Sweep (fun _ => 0%Q));
             (4000, InstantCompleteMission 7 1) ]
           Examples.mission_session 7 "active").
  vm_compute. reflexivity.
Defined.

(** Each of the three final values is reached from ["active"]: by a
    successful completion, a failed one and a cancellation. *)
Lemma final_statuses_reachable :
  let s := Examples.mission_session in
  mission_status (live (fst (handle 2000 (CompleteMission 7 0) s))) 7
    = Some "completed"
  /\ mission_status (live (fst (handle 2000 (CompleteMission 7 1) s))) 7
     = Some "failed"
  /\ mission_status (live (fst (handle 1000 (CancelMission 7) s))) 7
     = Some "cancelled".
Proof. vm_compute. repeat split; reflexivity. Qed.

End MissionFacts.

(** ** Achievements *)

Module AchievementFacts.
Import AchievementService.

Section OneCall.
Variables (user_id value_increment now : Z).

(** The loop body on one row. *)
Lemma update_one_spec s newly k a :
  let r := update_one user_id value_increment now (s, newly) (k, a) in
  let hit := completes (live s) user_id value_increment (k, a) in
  snd r = (newly ++ (if hit then [k] else []))%list
  /\ (completed_in (live s) user_id k = true ->
      progress (live (fst r)) !! (user_id, k) = progress (live s) !! (user_id, k))
  /\ (completed_in (live s) user_id k = false ->
      exists p,
        progress (live (fst r)) !! (user_id, k) = Some p
        /\ AchievementProgress.current_value p
           = counter_in (live s) user_id k + value_increment
        /\ AchievementProgress.completed p = hit)
  /\ (forall key, key <> (user_id, k) ->
                  progress (live (fst r)) !! key = progress (live s) !! key)
  /\ (forall u, u <> user_id -> users (live (fst r)) !! u = users (live s) !! u)
  /\ match users (live s) !! user_id with
     | None => users (live (fst r)) !! user_id = None
     | Some user =>
         exists user',
           users (live (fst r)) !! user_id = Some user'
           /\ User.coins user'
              = User.coins user + (if hit then Achievement.reward_coins a else 0)
           /\ User.stars user'
              = User.stars user + (if hit then Achievement.reward_stars a else 0)
     end
  /\ achievements (live (fst r)) = achievements (live s)
  /\ persisted (fst r) = persisted s.
Proof.
  unfold update_one, completes, completed_in, counter_in, update_user. cbn [fst snd].
  destruct (progress (live s) !! (user_id, k)) as [p |] eqn:Hp; cbn [fst snd];
    [destruct (AchievementProgress.completed p) eqn:Hdone |];
    cbn [negb andb fst snd]; rewrite ?Z.add_0_l;
    try destruct (Achievement.requirement_value a <=? _) eqn:Hreach;
    cbn [fst snd]; cbn;
    destruct (users (live s) !! user_id) as [u |] eqn:Hu; cbn.
  all: rewrite ?app_nil_r, ?Hp, ?Hu, ?lookup_insert_eq.
  all: repeat match goal with |- _ /\ _ => split end.
  all: try (intros; reflexivity).
  all: try (intros H; discriminate H).
  all: try (intros _; eexists; split; [reflexivity |]; simpl;
            split; [reflexivity | first [reflexivity | assumption]]).
  all: try (intros key Hkey; rewrite ?lookup_insert_ne by congruence; reflexivity).
  all: try (eexists; split; [reflexivity |]; simpl; split; lia).
Qed.
Lemma reward_coins_of_ext st1 st2 ids :
  achievements st1 = achievements st2 -> reward_coins_of st1 ids = reward_coins_of st2 ids.
Proof. intros H. unfold reward_coins_of. rewrite H. reflexivity. Qed.

Lemma reward_stars_of_ext st1 st2 ids :
  achievements st1 = achievements st2 -> reward_stars_of st1 ids = reward_stars_of st2 ids.
Proof. intros H. unfold reward_stars_of. rewrite H. reflexivity. Qed.

(** [completes] only reads the progress row of the user for that
    achievement. *)
Lemma completes_ext st1 st2 row :
  progress st1 !! (user_id, fst row) = progress st2 !! (user_id, fst row) ->
  completes st1 user_id value_increment row = completes st2 user_id value_increment row.
Proof. intros H. unfold completes, completed_in, counter_in. rewrite H. reflexivity. Qed.

(** The whole [for] loop over rows with distinct keys, each row being
    the definition stored under its key. *)
Lemma loop_spec (rows : list (Z * Achievement.t)) : forall s newly,
  NoDup (rows.*1) ->
  (forall k a, (k, a) ∈ rows -> achievements (live s) !! k = Some a) ->
  let r := fold_left (update_one user_id value_increment now) rows (s, newly) in
  let hits := List.filter (completes (live s) user_id value_increment) rows in
  snd r = (newly ++ hits.*1)%list
  /\ (forall k, completed_in (live s) user_id k = true ->
                progress (live (fst r)) !! (user_id, k)
                = progress (live s) !! (user_id, k))
  /\ (forall k a,
        (k, a) ∈ rows ->
        completed_in (live s) user_id k = false ->
        exists p,
          progress (live (fst r)) !! (user_id, k) = Some p
          /\ AchievementProgress.current_value p
             = counter_in (live s) user_id k + value_increment
          /\ AchievementProgress.completed p
             = completes (live s) user_id value_increment (k, a))
  /\ (forall key, fst key <> user_id \/ snd key ∉ rows.*1 ->
                  progress (live (fst r)) !! key = progress (live s) !! key)
  /\ (forall u, u <> user_id -> users (live (fst r)) !! u = users (live s) !! u)
  /\ match users (live s) !! user_id with
     | None => users (live (fst r)) !! user_id = None
     | Some user =>
         exists user',
           users (live (fst r)) !! user_id = Some user'
           /\ User.coins user' = User.coins user + reward_coins_of (live s) (hits.*1)
           /\ User.stars user' = User.stars user + reward_stars_of (live s) (hits.*1)
     end
  /\ achievements (live (fst r)) = achievements (live s)
  /\ persisted (fst r) = persisted s.
Proof.
  induction rows as [| [k0 a0] rows IH]; intros s newly Hnodup Hrows.
  - cbn. rewrite app_nil_r. repeat split; try reflexivity.
    + intros k a Hin. apply elem_of_nil in Hin. contradiction.
    + destruct (users (live s) !! user_id) as [u |]; [| reflexivity].
      exists u. repeat split; lia.
  - cbn [fmap list_fmap fst] in Hnodup. apply NoDup_cons in Hnodup as [Hk0 Hnodup].
    cbn [fold_left].
    pose proof (update_one_spec s newly k0 a0)
      as (Hnew & Hdone & Hopen & Hother & Husers & Huser & Hach & Hpers).
    cbv zeta in Hnew, Hdone, Hopen, Hother, Husers, Huser, Hach, Hpers.
    destruct (update_one user_id value_increment now (s, newly) (k0, a0))
      as [s1 newly1] eqn:Estep.
    cbn [fst snd] in Hnew, Hdone, Hopen, Hother, Husers, Huser, Hach, Hpers.
    assert (Hrows1 : forall k a, (k, a) ∈ rows -> achievements (live s1) !! k = Some a).
    { intros k a Hin. rewrite Hach. apply Hrows. apply list_elem_of_further, Hin. }
    specialize (IH s1 newly1 Hnodup Hrows1).
    cbv zeta in IH.
    destruct IH as (INew & IDone & IOpen & IOther & IUsers & IUser & IAch & IPers).
    assert (Hkeys : forall k a, (k, a) ∈ rows -> k <> k0).
    { intros k a Hin ->. apply Hk0. apply list_elem_of_fmap. exists (k0, a). auto. }
    assert (Hfilter :
              List.filter (completes (live s1) user_id value_increment) rows
              = List.filter (completes (live s) user_id value_increment) rows).
    { apply filter_ext_in. intros [k a] Hin. apply list_elem_of_In in Hin.
      apply completes_ext. apply Hother. cbn. intros [= ->].
      exact (Hkeys _ _ Hin eq_refl). }
    rewrite Hfilter in INew, IUser.
    set (hit0 := completes (live s) user_id value_increment (k0, a0)) in *.
    set (rest := List.filter (completes (live s) user_id value_increment) rows) in *.
    assert (Hhits : (List.filter (completes (live s) user_id value_increment)
                       ((k0, a0) :: rows)).*1
                    = ((if hit0 then [k0] else []) ++ rest.*1)%list).
    { cbn [List.filter]. fold hit0. fold rest. destruct hit0; reflexivity. }
    rewrite Hhits.
    split; [rewrite INew, Hnew, <- app_assoc; reflexivity |].
    split.
    { intros k Hk.
      assert (Hsame : progress (live s1) !! (user_id, k) = progress (live s) !! (user_id, k)).
      { destruct (decide (k = k0)) as [-> | Hne]; [apply Hdone, Hk |].
        apply Hother. congruence. }
      rewrite <- Hsame. apply IDone.
      unfold completed_in in *. rewrite Hsame. exact Hk. }
    split.
    { intros k a Hin Hk.
      apply elem_of_cons in Hin as [[= -> ->] | Hin].
      - destruct (Hopen Hk) as (p & Hp & Hcur & Hcomp).
        exists p. split; [| split; assumption].
        rewrite <- Hp. apply IOther. right. exact Hk0.
      - assert (Hne : k <> k0) by exact (Hkeys _ _ Hin).
        assert (Hsame : progress (live s1) !! (user_id, k)
                        = progress (live s) !! (user_id, k))
          by (apply Hother; congruence).
        destruct (IOpen k a Hin) as (p & Hp & Hcur & Hcomp).
        { unfold completed_in in *. rewrite Hsame. exact Hk. }
        exists p. split; [exact Hp |].
        unfold counter_in in *. rewrite Hsame in Hcur.
        split; [exact Hcur |].
        rewrite Hcomp. apply (completes_ext _ _ (k, a)). exact Hsame. }
    split.
    { intros [u k] Hkey. cbn [fst snd] in Hkey.
      rewrite IOther.
      - apply Hother. intros [= -> ->].
        destruct Hkey as [Hu | Hk]; [congruence |].
        apply Hk. cbn. apply list_elem_of_here.
      - cbn [fst snd]. destruct Hkey as [Hu | Hk]; [left; exact Hu | right].
        intros Hin. apply Hk. cbn. apply list_elem_of_further, Hin. }
    split; [intros u Hu; rewrite IUsers by exact Hu; apply Husers, Hu |].
    split.
    { destruct (users (live s) !! user_id) as [u |].
      - destruct Huser as (u1 & Hu1 & Hc1 & Hs1). rewrite Hu1 in IUser.
        destruct IUser as (u2 & Hu2 & Hc2 & Hs2).
        exists u2. split; [exact Hu2 |].
        rewrite (reward_coins_of_ext _ _ _ Hach) in Hc2.
        rewrite (reward_stars_of_ext _ _ _ Hach) in Hs2.
        assert (Ha0 : achievements (live s) !! k0 = Some a0)
          by (apply Hrows, list_elem_of_here).
        destruct hit0; cbn [app]; unfold reward_coins_of, reward_stars_of in *;
          cbn [foldr]; rewrite ?Ha0; split; lia.
      - rewrite Huser in IUser. exact IUser. }
    split; [congruence | congruence].
Qed.
End OneCall.

Lemma mem_true_iff x xs : Py.mem x xs = true <-> x ∈ xs.
Proof.
  unfold Py.mem. rewrite existsb_exists. split.
  - intros (y & Hin & ->%Z.eqb_eq). apply list_elem_of_In, Hin.
  - intros Hin. exists x. split; [apply list_elem_of_In, Hin | apply Z.eqb_refl].
Qed.

Lemma elem_of_select_achievements s key k a :
  (k, a) ∈ select_achievements s key <->
  achievements (live s) !! k = Some a /\ Achievement.requirement_type a = key.
Proof.
  unfold select_achievements.
  rewrite list_elem_of_In, filter_In, <- list_elem_of_In, elem_of_map_to_list.
  cbn [snd]. rewrite String.eqb_eq. reflexivity.
Qed.

Lemma NoDup_select_achievements s key : NoDup ((select_achievements s key).*1).
Proof. apply TransferFacts.NoDup_fst_filter, NoDup_fst_map_to_list. Qed.

(** One call of the tracker, seen from one user and one definition. *)
Lemma record_progress_spec s c aid a :
  achievements (live s) !! aid = Some a ->
  let uid := call_user c in
  let s' := fst (record_progress s c) in
  let newly := snd (record_progress s c) in
  let counter := counter_in (live s) uid aid + call_increment c in
  NoDup newly
  /\ (aid ∈ newly <->
      Achievement.requirement_type a = call_key c
      /\ completed_in (live s) uid aid = false
      /\ Achievement.requirement_value a <= counter)
  /\ (completed_in (live s) uid aid = true ->
      progress (live s') !! (uid, aid) = progress (live s) !! (uid, aid))
  /\ (Achievement.requirement_type a = call_key c ->
      completed_in (live s) uid aid = false ->
      completed_in (live s') uid aid = (Achievement.requirement_value a <=? counter)
      /\ counter_in (live s') uid aid = counter)
  /\ (Achievement.requirement_type a <> call_key c ->
      progress (live s') !! (uid, aid) = progress (live s) !! (uid, aid))
  /\ (forall u k, u <> uid -> progress (live s') !! (u, k) = progress (live s) !! (u, k))
  /\ (forall user,
        users (live s) !! uid = Some user ->
        exists user',
          users (live s') !! uid = Some user'
          /\ User.coins user' = User.coins user + reward_coins_of (live s) newly
          /\ User.stars user' = User.stars user + reward_stars_of (live s) newly)
  /\ achievements (live s') = achievements (live s)
  /\ persisted s' = live s'.
Proof.
  intros Ha uid s' newly counter.
  subst s' newly. unfold record_progress, check_and_update_achievements.
  pose proof (loop_spec (call_user c) (call_increment c) (call_now c)
                (select_achievements s (call_key c)) s []
                (NoDup_select_achievements s (call_key c))) as Hloop.
  cbv zeta in Hloop.
  destruct Hloop as (HNew & HDone & HOpen & HOther & _ & HUser & HAch & _).
  { intros k a' Hin. apply elem_of_select_achievements in Hin. tauto. }
  fold uid in HNew, HDone, HOpen, HOther, HUser.
  destruct (fold_left _ _ _) as [s1 newly1]. unfold commit. cbn [fst snd live persisted] in *.
  cbn [app] in HNew. subst newly1.
  set (rows := select_achievements s (call_key c)) in *.
  assert (Hrow : (aid, a) ∈ rows <-> Achievement.requirement_type a = call_key c).
  { subst rows. rewrite elem_of_select_achievements. tauto. }
  assert (Hkey : aid ∈ rows.*1 <-> Achievement.requirement_type a = call_key c).
  { rewrite <- Hrow, list_elem_of_fmap. split.
    - intros ([k a'] & Heq & Hin). cbn [fst] in Heq. subst k.
      pose proof Hin as Hin'. apply elem_of_select_achievements in Hin' as [Hk _].
      rewrite Ha in Hk. injection Hk as <-. exact Hin.
    - intros Hin. exists (aid, a). auto. }
  split; [apply TransferFacts.NoDup_fst_filter, NoDup_select_achievements |].
  split.
  { rewrite list_elem_of_fmap. split.
    - intros ([k a'] & Heq & Hin). cbn [fst] in Heq. subst k.
      apply list_elem_of_In, filter_In in Hin as [Hin Hhit].
      apply list_elem_of_In in Hin.
      pose proof Hin as Hin'. apply elem_of_select_achievements in Hin' as [Hk Hty].
      rewrite Ha in Hk. injection Hk as <-.
      unfold completes in Hhit. cbn [fst snd] in Hhit.
      apply andb_prop in Hhit as [Hopen%negb_true_iff Hreach%Z.leb_le].
      auto.
    - intros (Hty & Hopen & Hreach). exists (aid, a). split; [reflexivity |].
      apply list_elem_of_In, filter_In. split.
      + apply list_elem_of_In, Hrow, Hty.
      + unfold completes. cbn [fst snd]. rewrite Hopen. cbn.
        apply Z.leb_le, Hreach. }
  split; [exact (HDone aid) |].
  split.
  { intros Hty Hopen.
    destruct (HOpen aid a (proj2 Hrow Hty) Hopen) as (p & Hp & Hcur & Hcomp).
    unfold completed_in at 1, counter_in at 1. rewrite Hp. split; [| exact Hcur].
    rewrite Hcomp. unfold completes. cbn [fst snd]. rewrite Hopen. reflexivity. }
  split.
  { intros Hty. apply HOther. right. cbn [snd]. rewrite Hkey. exact Hty. }
  split; [intros u k Hu; apply HOther; left; exact Hu |].
  split.
  { intros user Huser. rewrite Huser in HUser. exact HUser. }
  split; [exact HAch | reflexivity].
Qed.

Section Runs.
Variables (user_id achievement_id : Z) (a : Achievement.t).

(** The definitions are never written by the tracker. *)
Lemma record_progress_achievements s c :
  achievements (live s) !! achievement_id = Some a ->
  achievements (live (fst (record_progress s c))) !! achievement_id = Some a.
Proof.
  intros Ha.
  destruct (record_progress_spec s c achievement_id a Ha)
    as (_ & _ & _ & _ & _ & _ & _ & Hach & _).
  rewrite Hach. exact Ha.
Qed.

(** A call leaves a completed progress row as it is and does not
    report it. *)
Lemma record_progress_frozen s c :
  achievements (live s) !! achievement_id = Some a ->
  completed_in (live s) user_id achievement_id = true ->
  progress (live (fst (record_progress s c))) !! (user_id, achievement_id)
  = progress (live s) !! (user_id, achievement_id)
  /\ (call_user c =? user_id) && Py.mem achievement_id (snd (record_progress s c))
     = false.
Proof.
  intros Ha Hdone.
  destruct (record_progress_spec s c achievement_id a Ha)
    as (_ & Hin & Hfrozen & _ & _ & Hothers & _).
  destruct (call_user c =? user_id) eqn:Euser.
  - apply Z.eqb_eq in Euser. rewrite Euser in Hin, Hfrozen.
    split; [apply Hfrozen, Hdone |].
    cbn [andb]. apply not_true_is_false. rewrite mem_true_iff, Hin.
    intros (_ & Hopen & _). congruence.
  - apply Z.eqb_neq in Euser.
    split; [apply Hothers; congruence | reflexivity].
Qed.

Lemma record_all_frozen calls : forall s,
  achievements (live s) !! achievement_id = Some a ->
  completed_in (live s) user_id achievement_id = true ->
  let r := record_all user_id achievement_id s calls in
  progress (live (fst r)) !! (user_id, achievement_id)
  = progress (live s) !! (user_id, achievement_id)
  /\ List.filter id (snd r) = [].
Proof.
  induction calls as [| c calls IH]; intros s Ha Hdone; cbn [record_all].
  - split; reflexivity.
  - pose proof (record_progress_frozen s c Ha Hdone) as [Hsame Hhit].
    pose proof (record_progress_achievements s c Ha) as Ha1.
    destruct (record_progress s c) as [s1 newly]. cbn [fst snd] in *.
    rewrite Hhit.
    assert (Hdone1 : completed_in (live s1) user_id achievement_id = true)
      by (unfold completed_in in *; rewrite Hsame; exact Hdone).
    specialize (IH s1 Ha1 Hdone1). cbv zeta in IH.
    destruct (record_all user_id achievement_id s1 calls) as [s2 hits].
    cbn [fst snd] in *. destruct IH as [IHsame IHhits].
    split; [congruence | exact IHhits].
Qed.

Lemma record_all_once calls : forall s,
  achievements (live s) !! achievement_id = Some a ->
  (length (List.filter id (snd (record_all user_id achievement_id s calls))) <= 1)%nat.
Proof.
  induction calls as [| c calls IH]; intros s Ha; cbn [record_all].
  - cbn. lia.
  - pose proof (record_progress_spec s c achievement_id a Ha)
      as (_ & Hin & _ & Hreach & _).
    pose proof (record_progress_achievements s c Ha) as Ha1.
    destruct (record_progress s c) as [s1 newly]. cbn [fst snd] in *.
    pose proof (record_all_frozen calls s1 Ha1) as Hfrozen.
    specialize (IH s1 Ha1). cbv zeta in Hfrozen.
    destruct (record_all user_id achievement_id s1 calls) as [s2 hits].
    cbn [fst snd List.filter] in *.
    destruct ((call_user c =? user_id) && Py.mem achievement_id newly) eqn:Ehit;
      cbn [id]; [| exact IH].
    apply andb_prop in Ehit as [Euser%Z.eqb_eq Hmem%mem_true_iff].
    rewrite Euser in Hin, Hreach.
    apply Hin in Hmem as (Hty & Hopen & Hle).
    destruct (Hreach Hty Hopen) as [Hdone _].
    apply Z.leb_le in Hle. rewrite Hle in Hdone.
    destruct (Hfrozen Hdone) as [_ ->]. cbn. lia.
Qed.
End Runs.

(** C5. For a user and a definition: a call returns the definition as
    newly completed exactly when its metric key matches, the progress row
    is not completed yet and the incremented counter reaches the
    threshold; the row is then completed.  A completed row is never
    written again and never returned again, so along any run of calls the
    definition is returned to the user at most once.  The coins and stars
    a call adds to the user are those of the definitions it returns, each
    counted once. *)
Theorem achievement_rewarded_once
    (s : Session) (user_id achievement_id : Z) (a : Achievement.t) :
  achievements (live s) !! achievement_id = Some a ->
  (forall key inc now,
      let r := record_progress s (Call user_id key inc now) in
      let counter := counter_in (live s) user_id achievement_id + inc in
      NoDup (snd r)
      /\ (achievement_id ∈ snd r <->
          Achievement.requirement_type a = key
          /\ completed_in (live s) user_id achievement_id = false
          /\ Achievement.requirement_value a <= counter)
      /\ (achievement_id ∈ snd r ->
          completed_in (live (fst r)) user_id achievement_id = true
          /\ counter_in (live (fst r)) user_id achievement_id = counter)
      /\ (completed_in (live s) user_id achievement_id = true ->
          progress (live (fst r)) !! (user_id, achievement_id)
          = progress (live s) !! (user_id, achievement_id)
          /\ achievement_id ∉ snd r)
      /\ (forall user,
            users (live s) !! user_id = Some user ->
            exists user',
              users (live (fst r)) !! user_id = Some user'
              /\ User.coins user' = User.coins user + reward_coins_of (live s) (snd r)
              /\ User.stars user' = User.stars user + reward_stars_of (live s) (snd r)))
  /\ (forall calls,
        let r := record_all user_id achievement_id s calls in
        (length (List.filter id (snd r)) <= 1)%nat
        /\ (completed_in (live s) user_id achievement_id = true ->
            progress (live (fst r)) !! (user_id, achievement_id)
            = progress (live s) !! (user_id, achievement_id)
            /\ List.filter id (snd r) = [])).
Proof.
  intros Ha. split.
  - intros key inc now r counter.
    pose proof (record_progress_spec s (Call user_id key inc now) achievement_id a Ha)
      as (Hnodup & Hin & Hfrozen & Hreach & _ & _ & Huser & _).
    cbn [call_user call_key call_increment] in *. fold r in Hnodup, Hin, Hfrozen, Hreach, Huser.
    fold counter in Hin, Hreach.
    split; [exact Hnodup |]. split; [exact Hin |].
    split.
    { intros (Hty & Hopen & Hle)%Hin.
      destruct (Hreach Hty Hopen) as [Hdone Hcnt].
      apply Z.leb_le in Hle. rewrite Hle in Hdone. split; assumption. }
    split; [| exact Huser].
    intros Hdone. split; [apply Hfrozen, Hdone |].
    rewrite Hin. intros (_ & Hopen & _). congruence.
  - intros calls r. split.
    + apply (record_all_once user_id achievement_id a calls s Ha).
    + intros Hdone. apply (record_all_frozen user_id achievement_id a calls s Ha Hdone).
Qed.

(** Player 1 gets a first pet, then four more: "first pet" (1) is
    returned by the first call only. *)
Lemma achievement_rewarded_once_witness :
  let s := Examples.achievement_session in
  let calls := [ Call 1 "pets_owned" 1 10; Call 1 "pets_owned" 4 20;
                 Call 1 "pets_owned" (-3) 30; Call 1 "pets_owned" 1 40 ] in
  snd (record_all 1 1 s calls) = [true; false; false; false]
  /\ User.coins <$> users (live (fst (record_all 1 1 s calls))) !! 1 = Some 1600
  /\ (forall calls,
        let r := record_all 1 1 s calls in
        (length (List.filter id (snd r)) <= 1)%nat
        /\ (completed_in (live s) 1 1 = true ->
            progress (live (fst r)) !! (1, 1) = progress (live s) !! (1, 1)
            /\ List.filter id (snd r) = [])).
Proof.
  split; [vm_compute; reflexivity |].
  split; [vm_compute; reflexivity |].
  apply (achievement_rewarded_once Examples.achievement_session 1 1
           (Achievement.Make "pets_owned" 1 100 0)).
  vm_compute. reflexivity.
Defined.

End AchievementFacts.

(** * Further properties of the services *)

(** ** Progression *)

Module ProgressionFacts.
Import GameConstants PetGenerator PetService.

(** X1. Experience that leaves the pet below the requirement of its level
    is added and committed, and the result reports no level gained, the
    level, power and income of the pet, and no evolution. *)
Theorem add_exp_below_requirement s pet_id pet d :
  pets (live s) !! pet_id = Some pet ->
  Pet.exp pet + d < calculate_level_up_requirements (Pet.level pet) ->
  add_exp_to_pet s pet_id d =
    (commit (write_pet pet_id (Pet.set_exp (Pet.exp pet + d) pet) s),
     Py.Ok (LevelUpInfo 0 (Pet.level pet) (Pet.power pet) (Pet.income_per_hour pet)
              false)).
Proof.
  intros Hpet Hlt. apply LevelingFacts.add_exp_to_pet_not_due; [exact Hpet |].
  apply Z.leb_gt, Hlt.
Qed.

(** Pet 10, at level 5 with no experience, receives 37: [requirement(5)]
    is 161. *)
Lemma add_exp_below_requirement_witness :
  let s := Examples.open_session in
  let pet := Examples.pet 1 "Rare" false false None in
  add_exp_to_pet s 10 37 =
    (commit (write_pet 10 (Pet.set_exp (Pet.exp pet + 37) pet) s),
     Py.Ok (LevelUpInfo 0 (Pet.level pet) (Pet.power pet) (Pet.income_per_hour pet)
              false)).
Proof.
  apply (add_exp_below_requirement Examples.open_session 10
           (Examples.pet 1 "Rare" false false None) 37).
  - reflexivity.
  - vm_compute. reflexivity.
Defined.

(** X3. Whether it returns or raises, the call touches one field of one
    object: the experience of the pet.  The other pets, the players, the
    missions, the raids and the achievements in memory are those of
    before, and the committed rows are the old ones or, when the call
    returns, the objects in memory. *)
Theorem add_exp_to_pet_frame s pet_id pet d :
  pets (live s) !! pet_id = Some pet ->
  let s' := fst (add_exp_to_pet s pet_id d) in
  live s' = set_pets (<[pet_id := Pet.set_exp (Pet.exp pet + d) pet]> (pets (live s)))
              (live s)
  /\ (forall k, k <> pet_id -> pets (live s') !! k = pets (live s) !! k)
  /\ (users (live s'), missions (live s'), raids (live s'),
      achievements (live s'), progress (live s'))
     = (users (live s), missions (live s), raids (live s),
        achievements (live s), progress (live s))
  /\ (persisted s' = persisted s \/ persisted s' = live s').
Proof.
  intros Hpet s'. subst s'.
  destruct (can_level_up (Pet.exp pet + d) (Pet.level pet)) eqn:Hdue.
  - rewrite (LevelingFacts.add_exp_to_pet_due _ _ _ _ Hpet Hdue). cbn [fst].
    split; [reflexivity |]. split; [| split; [reflexivity | left; reflexivity]].
    intros k Hk. apply lookup_insert_ne. congruence.
  - rewrite (LevelingFacts.add_exp_to_pet_not_due _ _ _ _ Hpet Hdue). cbn [fst].
    split; [reflexivity |]. split; [| split; [reflexivity | right; reflexivity]].
    intros k Hk. apply (lookup_insert_ne (pets (live s))). congruence.
Qed.

Lemma add_exp_to_pet_frame_witness :
  let s := Examples.open_session in
  let pet := Examples.pet 1 "Rare" false false None in
  let s' := fst (add_exp_to_pet s 10 161) in
  live s' = set_pets (<[10 := Pet.set_exp (Pet.exp pet + 161) pet]> (pets (live s)))
              (live s)
  /\ (forall k, k <> 10 -> pets (live s') !! k = pets (live s) !! k)
  /\ (users (live s'), missions (live s'), raids (live s'),
      achievements (live s'), progress (live s'))
     = (users (live s), missions (live s), raids (live s),
        achievements (live s), progress (live s))
  /\ (persisted s' = persisted s \/ persisted s' = live s').
Proof.
  apply (add_exp_to_pet_frame Examples.open_session 10
           (Examples.pet 1 "Rare" false false None) 161).
  reflexivity.
Defined.

(** X4. The stand-alone [level_up_pet] of the generator and one pass of the
    loop of [add_exp_to_pet] compute the same pet. *)
Theorem level_up_pet_agrees (pet : Pet.t) : level_up_pet pet = level_up pet.
Proof.
  unfold level_up_pet, level_up. rewrite Z.add_simpl_r. reflexivity.
Qed.

End ProgressionFacts.

(** ** Mission rules *)

Module MissionRules.
Import GameConstants PetGenerator MissionService Bot.

(** Every mission type of the table has rewards. *)
Lemma rewards_defined mission_type mission_data level rarity :
  get MISSION_TYPES mission_type = Some mission_data ->
  exists coins exp,
    generate_mission_rewards mission_type level rarity = Some (coins, exp).
Proof.
  intros Hty. unfold generate_mission_rewards. rewrite Hty. eauto.
Qed.

(** The rewards are what binary64 arithmetic gives: [200 * 1.15] falls
    just below 230. *)
Lemma rewards_rounded :
  generate_mission_rewards "medium" 3 "Common" = Some (229, 92)
  /\ generate_mission_rewards "quick" 5 "Rare" = Some (93, 37)
  /\ generate_mission_rewards "epic" 9 "Common" = Some (2900, 1160).
Proof. vm_compute. repeat split; reflexivity. Qed.

(** A free, rested pet is accepted for any mission of the table. *)
Lemma start_mission_accepts s pet_id mission_type now pet mission_data :
  pets (live s) !! pet_id = Some pet ->
  Pet.is_on_mission pet = false ->
  Pet.is_defending pet = false ->
  (forall fatigue_until, Pet.fatigue_until pet = Some fatigue_until -> fatigue_until <= now) ->
  get MISSION_TYPES mission_type = Some mission_data ->
  exists s' mission_id, start_mission s pet_id mission_type now = (s', Py.Ok mission_id).
Proof.
  intros Hpet Hfree Hidle Hrested Hty.
  destruct (rewards_defined mission_type mission_data (Pet.level pet) (Pet.rarity pet) Hty)
    as (coins & exp & Hrew).
  unfold start_mission. rewrite Hpet, Hfree, Hidle.
  assert (Hfat : match Pet.fatigue_until pet with
                 | Some fatigue_until => now <? fatigue_until
                 | None => false
                 end = false).
  { destruct (Pet.fatigue_until pet) as [f |]; [| reflexivity].
    apply Z.ltb_ge. apply Hrested. reflexivity. }
  rewrite Hfat, Hty, Hrew. eauto.
Qed.

(** X5. A pet that is neither on a mission nor defending nor tired can be
    sent on any mission of the table: the call creates a new mission row,
    active, owned by the pet's owner, due after the duration of the type and
    carrying the rewards computed for the pet; the pet becomes busy; no
    other mission row changes; everything is committed. *)
Theorem start_mission_starts
    (s : Session) (pet_id : Z) (mission_type : string) (now : Z)
    (pet : Pet.t) (mission_data : mission_data) :
  pets (live s) !! pet_id = Some pet ->
  Pet.is_on_mission pet = false ->
  Pet.is_defending pet = false ->
  (forall fatigue_until, Pet.fatigue_until pet = Some fatigue_until -> fatigue_until <= now) ->
  get MISSION_TYPES mission_type = Some mission_data ->
  exists s' mission_id coins exp,
    start_mission s pet_id mission_type now = (s', Py.Ok mission_id)
    /\ generate_mission_rewards mission_type (Pet.level pet) (Pet.rarity pet)
       = Some (coins, exp)
    /\ missions (live s) !! mission_id = None
    /\ missions (live s') !! mission_id
       = Some (Mission.Make (Pet.owner_id pet) pet_id mission_type now
                 (now + duration mission_data) coins exp "active")
    /\ (forall k, k <> mission_id -> missions (live s') !! k = missions (live s) !! k)
    /\ pets (live s') !! pet_id = Some (Pet.set_is_on_mission true pet)
    /\ persisted s' = live s'.
Proof.
  intros Hpet Hfree Hidle Hrested Hty.
  destruct (rewards_defined mission_type mission_data (Pet.level pet) (Pet.rarity pet) Hty)
    as (coins & exp & Hrew).
  unfold start_mission. rewrite Hpet, Hfree, Hidle.
  assert (Hfat : match Pet.fatigue_until pet with
                 | Some fatigue_until => now <? fatigue_until
                 | None => false
                 end = false).
  { destruct (Pet.fatigue_until pet) as [f |]; [| reflexivity].
    apply Z.ltb_ge. apply Hrested. reflexivity. }
  rewrite Hfat, Hty, Hrew.
  eexists _, _, coins, exp. split; [reflexivity |]. split; [reflexivity |].
  assert (Hfresh : missions (live s) !! new_mission_id s = None).
  { apply not_elem_of_dom. intros Hin.
    apply (is_fresh (dom (missions (live s)) ∪ dom (missions (persisted s)))).
    apply elem_of_union_l, Hin. }
  split; [exact Hfresh |]. cbn.
  split; [apply lookup_insert_eq |].
  split; [intros k Hk; apply lookup_insert_ne; congruence |].
  split; [apply lookup_insert_eq | reflexivity].
Qed.

(** Pet 10 of the sample data is idle. *)
Lemma start_mission_starts_witness :
  exists s' mission_id coins exp,
    start_mission Examples.open_session 10 "quick" 1000 = (s', Py.Ok mission_id)
    /\ generate_mission_rewards "quick" 5 "Rare" = Some (coins, exp)
    /\ missions (live Examples.open_session) !! mission_id = None
    /\ missions (live s') !! mission_id
       = Some (Mission.Make 1 10 "quick" 1000 (1000 + 1800) coins exp "active")
    /\ (forall k, k <> mission_id ->
                  missions (live s') !! k = missions (live Examples.open_session) !! k)
    /\ pets (live s') !! 10
       = Some (Pet.set_is_on_mission true (Examples.pet 1 "Rare" false false None))
    /\ persisted s' = live s'.
Proof.
  apply (start_mission_starts Examples.open_session 10 "quick" 1000
           (Examples.pet 1 "Rare" false false None) (MissionData 1800 50 20 (5 # 100))).
  - vm_compute. reflexivity.
  - reflexivity.
  - reflexivity.
  - intros f Hf. discriminate Hf.
  - reflexivity.
Defined.

(** X6. A pet cannot be sent twice: once [start_mission] has succeeded,
    any further [start_mission] for the same pet is rejected and changes
    nothing, whatever the mission type and the instant. *)
Theorem start_mission_twice
    (s s' : Session) (pet_id : Z) (mission_type : string) (now : Z) (mission_id : Z)
    (mission_type' : string) (now' : Z) :
  start_mission s pet_id mission_type now = (s', Py.Ok mission_id) ->
  start_mission s' pet_id mission_type' now'
  = (s', Py.Raise (Py.ValueError "Pet is already on a mission")).
Proof.
  unfold start_mission at 1. intros Hrun.
  destruct (pets (live s) !! pet_id) as [pet |]; [| discriminate Hrun].
  destruct (Pet.is_on_mission pet); [discriminate Hrun |].
  destruct (Pet.is_defending pet); [discriminate Hrun |].
  destruct (match Pet.fatigue_until pet with Some _ => _ | None => _ end);
    [discriminate Hrun |].
  destruct (get MISSION_TYPES mission_type); [| discriminate Hrun].
  destruct (generate_mission_rewards _ _ _) as [[coins exp] |]; [| discriminate Hrun].
  injection Hrun as <- _.
  unfold start_mission. cbn. rewrite lookup_insert_eq. reflexivity.
Qed.

Lemma start_mission_twice_witness :
  start_mission (fst (start_mission Examples.open_session 10 "quick" 1000)) 10 "epic" 5000
  = (fst (start_mission Examples.open_session 10 "quick" 1000),
     Py.Raise (Py.ValueError "Pet is already on a mission")).
Proof.
  apply (start_mission_twice Examples.open_session _ 10 "quick" 1000
           (MissionService.new_mission_id Examples.open_session)).
  vm_compute. reflexivity.
Defined.

(** Integer part of a fifth of a non-negative amount. *)
Lemma reduced_coins_bounds (reward_coins : Z) :
  0 <= reward_coins ->
  0 <= Py.int (inject_Z reward_coins * (2 # 10)) <= reward_coins.
Proof.
  intros Hr. unfold Py.int. cbn [Qnum Qden Qmult inject_Z].
  change (Z.pos (1 * 10)) with 10. split.
  - apply Z.quot_pos; lia.
  - apply Z.quot_le_upper_bound; lia.
Qed.

Lemma is_active_true mission : Mission.status mission = "active" -> is_active mission = true.
Proof. intros H. unfold is_active. rewrite H. reflexivity. Qed.

(** X7. Collecting a due active mission whose pet, player and type
    exist.  On a draw that fails, the mission is failed, the player gets
    the integer part of a fifth of the coins, and the pet is free and
    tired for an hour; all of it is committed.  On a draw that succeeds
    the player gets the coins and a tenth of the experience and the pet
    the experience; when that leaves the pet below the requirement of its
    level, the mission is completed, the pet is free and all of it is
    committed; when it does not, the call raises [AttributeError]: the
    mission is still active and the pet still busy, the rewards are on
    the objects in memory, and nothing is committed. *)
Theorem complete_mission_outcomes
    (s : Session) (mission_id now : Z) (draw chance : Q)
    (mission : Mission.t) (pet : Pet.t) (user : User.t) :
  missions (live s) !! mission_id = Some mission ->
  Mission.status mission = "active" ->
  Mission.complete_at mission <= now ->
  pets (live s) !! Mission.pet_id mission = Some pet ->
  users (live s) !! Mission.user_id mission = Some user ->
  calculate_mission_success_chance
    (Pet.stamina pet) (Pet.level pet) (Mission.mission_type mission) = Some chance ->
  0 <= Mission.reward_coins mission ->
  let s' := fst (complete_mission s mission_id now draw) in
  let r := snd (complete_mission s mission_id now draw) in
  let reduced_coins := Py.int (inject_Z (Mission.reward_coins mission) * (2 # 10)) in
  let rewarded :=
    User.set_exp (User.exp user + Mission.reward_exp mission / 10)
      (User.set_coins (User.coins user + Mission.reward_coins mission) user) in
  let trained := Pet.set_exp (Pet.exp pet + Mission.reward_exp mission) pet in
  ((chance <= draw)%Q ->
   r = Py.Ok (Completion false reduced_coins 0 0)
   /\ 0 <= reduced_coins <= Mission.reward_coins mission
   /\ missions (live s') !! mission_id = Some (Mission.set_status "failed" mission)
   /\ pets (live s') !! Mission.pet_id mission
      = Some (Pet.set_is_on_mission false
                (Pet.set_fatigue_until (Some (now + 3600)) pet))
   /\ users (live s') !! Mission.user_id mission
      = Some (User.set_coins (User.coins user + reduced_coins) user)
   /\ persisted s' = live s')
  /\ ((draw < chance)%Q ->
      Pet.exp pet + Mission.reward_exp mission
        < calculate_level_up_requirements (Pet.level pet) ->
      r = Py.Ok (Completion true (Mission.reward_coins mission)
                   (Mission.reward_exp mission) 0)
      /\ missions (live s') !! mission_id = Some (Mission.set_status "completed" mission)
      /\ pets (live s') !! Mission.pet_id mission
         = Some (Pet.set_is_on_mission false trained)
      /\ users (live s') !! Mission.user_id mission = Some rewarded
      /\ persisted s' = live s')
  /\ ((draw < chance)%Q ->
      calculate_level_up_requirements (Pet.level pet)
        <= Pet.exp pet + Mission.reward_exp mission ->
      r = Py.Raise Py.AttributeError
      /\ missions (live s') !! mission_id = Some mission
      /\ pets (live s') !! Mission.pet_id mission = Some trained
      /\ users (live s') !! Mission.user_id mission = Some rewarded
      /\ persisted s' = persisted s).
Proof.
  intros Hm Hst Hdue Hpet Huser Hchance Hcoins.
  unfold complete_mission.
  rewrite Hm, (is_active_true _ Hst). cbn [negb].
  replace (now <? Mission.complete_at mission) with false
    by (symmetry; apply Z.ltb_ge; exact Hdue).
  rewrite Hpet, Hchance.
  destruct (Qlt_le_dec draw chance) as [Hwin | Hlose]; rewrite Huser.
  - split; [intros Hge; exfalso; apply (Qlt_not_le _ _ Hwin), Hge |].
    match goal with
    | |- context [PetService.add_exp_to_pet ?s1 ?p ?d] =>
        assert (Hpet1 : pets (live s1) !! p = Some pet) by exact Hpet
    end.
    split; intros _ Hreq.
    + rewrite (LevelingFacts.add_exp_to_pet_not_due _ _ _ _ Hpet1)
        by (apply Z.leb_gt, Hreq).
      unfold update_pet.
      cbn [commit write_user write_pet write_mission live pets set_users set_pets
             set_missions PetService.levels_gained fst snd].
      rewrite lookup_insert_eq.
      split; [reflexivity |]. cbn.
      split; [apply lookup_insert_eq |].
      split; [apply lookup_insert_eq |].
      split; [apply lookup_insert_eq | reflexivity].
    + rewrite (LevelingFacts.add_exp_to_pet_due _ _ _ _ Hpet1)
        by (apply Z.leb_le, Hreq).
      cbn. split; [reflexivity |]. split; [exact Hm |].
      split; [apply lookup_insert_eq |].
      split; [apply lookup_insert_eq | reflexivity].
  - split; [| split; intros Hlt; exfalso; apply (Qlt_not_le _ _ Hlt), Hlose].
    intros _. unfold update_pet. cbn [write_user live pets set_users].
    rewrite Hpet.
    cbn [commit write_pet write_mission live pets set_pets set_missions].
    rewrite lookup_insert_eq. cbn.
    split; [reflexivity |].
    split; [apply reduced_coins_bounds, Hcoins |].
    split; [apply lookup_insert_eq |].
    split; [apply lookup_insert_eq |].
    split; [apply lookup_insert_eq | reflexivity].
Qed.

(** Mission 7 is due and its pet, at level 5, holds 150 experience: with
    the 37 of the mission it passes [requirement(5) = 161]. *)
Lemma complete_mission_outcomes_witness :
  let mission := Mission.Make 1 10 "quick" 0 1800 93 37 "active" in
  let pet := Pet.set_exp 150 (Examples.pet 1 "Rare" true false None) in
  let user := Examples.user 5 None None in
  let s := write_pet 10 pet Examples.mission_session in
  let draw := 1 # 2 in
  let chance := 95125 # 100000 in
  let s' := fst (complete_mission s 7 1900 draw) in
  let r := snd (complete_mission s 7 1900 draw) in
  let reduced_coins := Py.int (inject_Z (Mission.reward_coins mission) * (2 # 10)) in
  let rewarded :=
    User.set_exp (User.exp user + Mission.reward_exp mission / 10)
      (User.set_coins (User.coins user + Mission.reward_coins mission) user) in
  let trained := Pet.set_exp (Pet.exp pet + Mission.reward_exp mission) pet in
  r = Py.Raise Py.AttributeError
  /\ ((chance <= draw)%Q ->
      r = Py.Ok (Completion false reduced_coins 0 0)
      /\ 0 <= reduced_coins <= Mission.reward_coins mission
      /\ missions (live s') !! 7 = Some (Mission.set_status "failed" mission)
      /\ pets (live s') !! Mission.pet_id mission
         = Some (Pet.set_is_on_mission false
                   (Pet.set_fatigue_until (Some (1900 + 3600)) pet))
      /\ users (live s') !! Mission.user_id mission
         = Some (User.set_coins (User.coins user + reduced_coins) user)
      /\ persisted s' = live s')
  /\ ((draw < chance)%Q ->
      Pet.exp pet + Mission.reward_exp mission
        < calculate_level_up_requirements (Pet.level pet) ->
      r = Py.Ok (Completion true (Mission.reward_coins mission)
                   (Mission.reward_exp mission) 0)
      /\ missions (live s') !! 7 = Some (Mission.set_status "completed" mission)
      /\ pets (live s') !! Mission.pet_id mission
         = Some (Pet.set_is_on_mission false trained)
      /\ users (live s') !! Mission.user_id mission = Some rewarded
      /\ persisted s' = live s')
  /\ ((draw < chance)%Q ->
      calculate_level_up_requirements (Pet.level pet)
        <= Pet.exp pet + Mission.reward_exp mission ->
      r = Py.Raise Py.AttributeError
      /\ missions (live s') !! 7 = Some mission
      /\ pets (live s') !! Mission.pet_id mission = Some trained
      /\ users (live s') !! Mission.user_id mission = Some rewarded
      /\ persisted s' = persisted s).
Proof.
  split; [vm_compute; reflexivity |].
  apply (complete_mission_outcomes
           (write_pet 10 (Pet.set_exp 150 (Examples.pet 1 "Rare" true false None))
              Examples.mission_session)
           7 1900 (1 # 2) (95125 # 100000)
           (Mission.Make 1 10 "quick" 0 1800 93 37 "active")
           (Pet.set_exp 150 (Examples.pet 1 "Rare" true false None))
           (Examples.user 5 None None)).
  - vm_compute. reflexivity.
  - reflexivity.
  - simpl. lia.
  - vm_compute. reflexivity.
  - vm_compute. reflexivity.
  - vm_compute. reflexivity.
  - simpl. lia.
Defined.

(** X8. Cancelling an active mission costs an hour of rest: the mission is
    cancelled for good, and the pet, unless it is defending, is refused any
    new mission as too tired until a full hour has passed, and accepted
    again from then on. *)
Theorem cancel_mission_rests_the_pet
    (s s' : Session) (mission_id now : Z) (mission : Mission.t) (pet : Pet.t)
    (mission_type : string) (mission_data : mission_data) (now' : Z) :
  missions (live s) !! mission_id = Some mission ->
  pets (live s) !! Mission.pet_id mission = Some pet ->
  Pet.is_defending pet = false ->
  get MISSION_TYPES mission_type = Some mission_data ->
  cancel_mission s mission_id now = (s', Py.Ok true) ->
  Bot.mission_status (live s') mission_id = Some "cancelled"
  /\ (now' < now + 3600 ->
      start_mission s' (Mission.pet_id mission) mission_type now'
      = (s', Py.Raise (Py.ValueError "Pet is too tired")))
  /\ (now + 3600 <= now' ->
      exists s'' mission_id',
        start_mission s' (Mission.pet_id mission) mission_type now'
        = (s'', Py.Ok mission_id')).
Proof.
  intros Hm Hpet Hidle Hty. unfold cancel_mission. rewrite Hm.
  destruct (negb (is_active mission)); [discriminate |].
  unfold update_pet. rewrite Hpet. intros Hrun. injection Hrun as <-.
  split; [unfold Bot.mission_status; cbn; rewrite lookup_insert_eq; reflexivity |].
  split.
  - intros Hsoon. unfold start_mission. cbn. rewrite lookup_insert_eq. cbn.
    rewrite Hidle.
    replace (now' <? now + 3600) with true by (symmetry; apply Z.ltb_lt; exact Hsoon).
    reflexivity.
  - intros Hlate.
    match goal with |- context [start_mission ?s1 _ _ _] => set (s1' := s1) end.
    apply (start_mission_accepts s1' (Mission.pet_id mission) mission_type now'
             (Pet.set_fatigue_until (Some (now + 3600)) (Pet.set_is_on_mission false pet))
             mission_data); try assumption; try reflexivity.
    + subst s1'. cbn. apply lookup_insert_eq.
    + cbn. intros f Hf. injection Hf as <-. exact Hlate.
Qed.

Lemma cancel_mission_rests_the_pet_witness :
  let s' := fst (cancel_mission Examples.mission_session 7 1000) in
  Bot.mission_status (live s') 7 = Some "cancelled"
  /\ (4599 < 1000 + 3600 ->
      start_mission s' 10 "quick" 4599
      = (s', Py.Raise (Py.ValueError "Pet is too tired")))
  /\ (1000 + 3600 <= 4599 ->
      exists s'' mission_id',
        start_mission s' 10 "quick" 4599 = (s'', Py.Ok mission_id')).
Proof.
  apply (cancel_mission_rests_the_pet Examples.mission_session _ 7 1000
           (Mission.Make 1 10 "quick" 0 1800 93 37 "active")
           (Examples.pet 1 "Rare" true false None)
           "quick" (MissionData 1800 50 20 (5 # 100)) 4599).
  - vm_compute. reflexivity.
  - vm_compute. reflexivity.
  - reflexivity.
  - reflexivity.
  - vm_compute. reflexivity.
Defined.

(** A due active mission with its pet, its player and a known type is
    never refused: it resolves, unless the draw succeeds and the
    experience of the mission takes the pet to the requirement of its
    level; then the call raises [AttributeError] and the mission row is
    what it was. *)
Lemma complete_mission_due s mission_id now draw mission pet :
  missions (live s) !! mission_id = Some mission ->
  Mission.status mission = "active" ->
  Mission.complete_at mission <= now ->
  pets (live s) !! Mission.pet_id mission = Some pet ->
  is_Some (users (live s) !! Mission.user_id mission) ->
  is_Some (get MISSION_TYPES (Mission.mission_type mission)) ->
  let run := complete_mission s mission_id now draw in
  ((exists result, snd run = Py.Ok result)
   /\ (Bot.mission_status (live (fst run)) mission_id = Some "completed"
       \/ Bot.mission_status (live (fst run)) mission_id = Some "failed"))
  \/ (snd run = Py.Raise Py.AttributeError
      /\ calculate_level_up_requirements (Pet.level pet)
           <= Pet.exp pet + Mission.reward_exp mission
      /\ missions (live (fst run)) !! mission_id = Some mission).
Proof.
  intros Hm Hst Hdue Hpet [user Huser] [mission_data Hty]. cbv zeta.
  unfold complete_mission.
  rewrite Hm, (is_active_true _ Hst). cbn [negb].
  replace (now <? Mission.complete_at mission) with false
    by (symmetry; apply Z.ltb_ge; exact Hdue).
  rewrite Hpet. unfold calculate_mission_success_chance. rewrite Hty. cbv zeta.
  destruct (Qlt_le_dec draw _); rewrite Huser.
  - match goal with
    | |- context [PetService.add_exp_to_pet ?s1 ?p ?d] =>
        assert (Hpet1 : pets (live s1) !! p = Some pet) by exact Hpet
    end.
    destruct (can_level_up (Pet.exp pet + Mission.reward_exp mission) (Pet.level pet))
      eqn:Hup.
    + right. rewrite (LevelingFacts.add_exp_to_pet_due _ _ _ _ Hpet1 Hup).
      cbn [fst snd]. split; [reflexivity |]. split; [apply Z.leb_le, Hup | exact Hm].
    + left. rewrite (LevelingFacts.add_exp_to_pet_not_due _ _ _ _ Hpet1 Hup).
      cbn [fst snd]. split; [eauto |].
      left. unfold Bot.mission_status, update_pet.
      cbn [commit write_user write_pet write_mission live pets set_users set_pets
             set_missions].
      rewrite lookup_insert_eq. cbn. rewrite lookup_insert_eq. reflexivity.
  - left. cbn [fst snd]. split; [eauto |].
    right. unfold Bot.mission_status, update_pet.
    cbn [write_user live pets set_users]. rewrite Hpet.
    cbn [commit write_pet write_mission live pets set_pets set_missions].
    rewrite lookup_insert_eq. cbn. rewrite lookup_insert_eq. reflexivity.
Qed.

(** X9. Paying for an instant completion: the price is at least 20 Stars,
    exactly 20 when less than two hours and six minutes remain, and never
    more than the player has; the Stars are deducted and the mission is due
    at once: with its pet, its player and its type in place, collecting it
    from that instant on is never refused as too early, and goes through
    when the experience of the mission leaves the pet below the
    requirement of its level. *)
Theorem instant_complete_mission_makes_due
    (s s' : Session) (mission_id user_id now cost : Z)
    (mission : Mission.t) (user : User.t) (pet : Pet.t) (now' : Z) (draw : Q) :
  missions (live s) !! mission_id = Some mission ->
  users (live s) !! user_id = Some user ->
  pets (live s) !! Mission.pet_id mission = Some pet ->
  is_Some (users (live s) !! Mission.user_id mission) ->
  is_Some (get MISSION_TYPES (Mission.mission_type mission)) ->
  now <= now' ->
  instant_complete_mission s mission_id user_id now = (s', Py.Ok cost) ->
  20 <= cost <= User.stars user
  /\ (Mission.complete_at mission - now < 7560 -> cost = 20)
  /\ users (live s') !! user_id = Some (User.set_stars (User.stars user - cost) user)
  /\ missions (live s') !! mission_id = Some (Mission.set_complete_at now mission)
  /\ (forall msg,
        snd (complete_mission s' mission_id now' draw) <> Py.Raise (Py.ValueError msg))
  /\ (Pet.exp pet + Mission.reward_exp mission
        < calculate_level_up_requirements (Pet.level pet) ->
      exists result, snd (complete_mission s' mission_id now' draw) = Py.Ok result).
Proof.
  intros Hm Huser Hpet Howner Hty Hlater. unfold instant_complete_mission.
  rewrite Hm, Huser.
  destruct (negb (is_active mission)) eqn:Hact; [discriminate |].
  set (cost0 := Py.zmax 20 _).
  destruct (User.stars user <? cost0) eqn:Hstars; [discriminate |].
  intros Hrun. injection Hrun as <- <-.
  apply Z.ltb_ge in Hstars.
  assert (Hmin : 20 <= cost0).
  { subst cost0. unfold Py.zmax. destruct (20 <? _) eqn:E; [apply Z.ltb_lt in E |]; lia. }
  split; [lia |].
  split.
  { intros Hleft. subst cost0. unfold Py.zmax.
    destruct (20 <? _) eqn:E; [| reflexivity]. apply Z.ltb_lt in E.
    exfalso. revert E. unfold Py.int, Qdiv.
    cbn [Qnum Qden Qmult Qinv inject_Z]. cbn [Qnum Qden Z.mul Pos.mul].
    intros E.
    assert (Hq : Z.quot ((Mission.complete_at mission - now) * 1 * 10) 3600 <= 20).
    { destruct (Z.le_gt_cases 0 (Mission.complete_at mission - now)) as [Hpos | Hneg].
      - apply Z.lt_succ_r. apply Z.quot_lt_upper_bound; lia.
      - transitivity 0; [| lia].
        rewrite <- (Z.opp_involutive ((Mission.complete_at mission - now) * 1 * 10)).
        rewrite Z.quot_opp_l by lia.
        assert (0 <= Z.quot (- ((Mission.complete_at mission - now) * 1 * 10)) 3600)
          by (apply Z.quot_pos; lia).
        lia. }
    change (Z.pos (1 * 3600 * 1)) with 3600 in E. lia. }
  cbn [commit write_user write_mission live users missions set_users set_missions].
  split; [apply lookup_insert_eq |].
  split; [apply lookup_insert_eq |].
  match goal with |- context [complete_mission ?s1 _ _ _] => set (s1' := s1) end.
  pose proof (complete_mission_due s1' mission_id now' draw
                (Mission.set_complete_at now mission) pet) as Hcases.
  cbv zeta in Hcases.
  destruct Hcases as [[[result Hok] _] | (Hraise & Hreq & _)].
  - subst s1'. cbn. apply lookup_insert_eq.
  - cbn. apply negb_false_iff in Hact. unfold is_active in Hact.
    apply String.eqb_eq in Hact. exact Hact.
  - cbn. exact Hlater.
  - subst s1'. cbn. exact Hpet.
  - subst s1'. cbn.
    destruct (decide (user_id = Mission.user_id mission)) as [<- | Hne].
    + rewrite lookup_insert_eq. eauto.
    + rewrite lookup_insert_ne by exact Hne. exact Howner.
  - cbn. exact Hty.
  - rewrite Hok. split; [intros msg; discriminate | eauto].
  - rewrite Hraise. split; [intros msg; discriminate |].
    cbn in Hreq. intros Hlt. lia.
Qed.

Lemma instant_complete_mission_makes_due_witness :
  let user := User.set_stars 50 (Examples.user 5 None None) in
  let mission := Mission.Make 1 10 "quick" 0 1800 93 37 "active" in
  let pet := Examples.pet 1 "Rare" true false None in
  let s := write_user 1 user Examples.mission_session in
  let s' := fst (instant_complete_mission s 7 1 1000) in
  20 <= 20 <= User.stars user
  /\ (Mission.complete_at mission - 1000 < 7560 -> 20 = 20)
  /\ users (live s') !! 1 = Some (User.set_stars (User.stars user - 20) user)
  /\ missions (live s') !! 7 = Some (Mission.set_complete_at 1000 mission)
  /\ (forall msg,
        snd (complete_mission s' 7 1000 (1 # 2)) <> Py.Raise (Py.ValueError msg))
  /\ (Pet.exp pet + Mission.reward_exp mission
        < calculate_level_up_requirements (Pet.level pet) ->
      exists result, snd (complete_mission s' 7 1000 (1 # 2)) = Py.Ok result).
Proof.
  apply (instant_complete_mission_makes_due
           (write_user 1 (User.set_stars 50 (Examples.user 5 None None))
              Examples.mission_session)
           _ 7 1 1000 20
           (Mission.Make 1 10 "quick" 0 1800 93 37 "active")
           (User.set_stars 50 (Examples.user 5 None None))
           (Examples.pet 1 "Rare" true false None) 1000 (1 # 2)).
  - vm_compute. reflexivity.
  - vm_compute. reflexivity.
  - vm_compute. reflexivity.
  - vm_compute. eauto.
  - vm_compute. eauto.
  - lia.
  - vm_compute. reflexivity.
Defined.

(** *** The background sweep *)

Lemma keeps_refl mission_id s : keeps mission_id s s.
Proof. repeat split; auto. Qed.

Lemma keeps_trans mission_id s1 s2 s3 :
  keeps mission_id s1 s2 -> keeps mission_id s2 s3 -> keeps mission_id s1 s3.
Proof.
  intros (Hm1 & Hp1 & Hu1) (Hm2 & Hp2 & Hu2). repeat split.
  - intros k Hk. rewrite Hm2, Hm1 by exact Hk. reflexivity.
  - auto.
  - auto.
Qed.

Lemma is_Some_insert {A} (m : gmap Z A) i x j :
  is_Some (m !! j) -> is_Some (<[i := x]> m !! j).
Proof.
  intros H. destruct (decide (i = j)) as [-> | Hne].
  - rewrite lookup_insert_eq. eauto.
  - rewrite lookup_insert_ne by exact Hne. exact H.
Qed.

Lemma keeps_commit mission_id s : keeps mission_id s (commit s).
Proof. repeat split; auto. Qed.

Lemma keeps_write_user mission_id k u s : keeps mission_id s (write_user k u s).
Proof. repeat split; cbn; auto using is_Some_insert. Qed.

Lemma keeps_write_pet mission_id k p s : keeps mission_id s (write_pet k p s).
Proof. repeat split; cbn; auto using is_Some_insert. Qed.

Lemma keeps_update_pet mission_id k f s : keeps mission_id s (update_pet k f s).
Proof.
  unfold update_pet. destruct (pets (live s) !! k);
    [apply keeps_write_pet | apply keeps_refl].
Qed.

Lemma keeps_write_mission mission_id m s :
  keeps mission_id s (write_mission mission_id m s).
Proof.
  repeat split; cbn; auto.
  intros k Hk. apply lookup_insert_ne. congruence.
Qed.

Lemma keeps_add_exp_to_pet mission_id s pet_id d :
  keeps mission_id s (fst (PetService.add_exp_to_pet s pet_id d)).
Proof.
  unfold PetService.add_exp_to_pet.
  destruct (pets (live s) !! pet_id) as [pet |]; [| apply keeps_refl].
  cbv zeta. destruct (can_level_up _ _); cbn [fst].
  - apply keeps_write_pet.
  - eapply keeps_trans; [apply keeps_write_pet | apply keeps_commit].
Qed.

Lemma keeps_complete_mission now s mission_id draw :
  keeps mission_id s (fst (complete_mission s mission_id now draw)).
Proof.
  unfold complete_mission.
  destruct (missions (live s) !! mission_id) as [mission |]; [| apply keeps_refl].
  destruct (negb _); [apply keeps_refl |].
  destruct (now <? _); [apply keeps_refl |].
  destruct (pets (live s) !! Mission.pet_id mission) as [pet |]; [| apply keeps_refl].
  destruct (calculate_mission_success_chance _ _ _) as [chance |]; [| apply keeps_refl].
  destruct (Qlt_le_dec draw chance);
    (destruct (users (live s) !! Mission.user_id mission) as [user |];
     [| apply keeps_refl]).
  - match goal with
    | |- context [PetService.add_exp_to_pet ?s1 ?p ?d] =>
        pose proof (keeps_add_exp_to_pet mission_id s1 p d) as Hadd;
        destruct (PetService.add_exp_to_pet s1 p d) as [s2 [info | e]]
    end; cbn [fst] in *.
    + eapply keeps_trans; [apply keeps_write_user |].
      eapply keeps_trans; [exact Hadd |].
      eapply keeps_trans; [apply keeps_write_mission |].
      eapply keeps_trans; [apply keeps_update_pet | apply keeps_commit].
    + eapply keeps_trans; [apply keeps_write_user | exact Hadd].
  - cbn [fst].
    eapply keeps_trans; [apply keeps_write_user |].
    eapply keeps_trans; [apply keeps_update_pet |].
    eapply keeps_trans; [apply keeps_write_mission |].
    eapply keeps_trans; [apply keeps_update_pet | apply keeps_commit].
Qed.

(** The loop leaves alone every mission it was not given. *)
Lemma sweep_loop_frame now draws (rows : list (Z * Mission.t)) : forall s k,
  k ∉ rows.*1 ->
  missions (live (sweep_loop now draws rows s)) !! k = missions (live s) !! k.
Proof.
  induction rows as [| [k0 m0] rows IH]; intros s k Hk; [reflexivity |].
  cbn [fmap list_fmap fst] in Hk. apply not_elem_of_cons in Hk as [Hne Hk].
  change (sweep_loop now draws ((k0, m0) :: rows) s)
    with (sweep_loop now draws rows
            (fst (complete_mission s k0 now (draws k0)))).
  rewrite IH by exact Hk.
  apply (keeps_complete_mission now s k0 (draws k0)). exact Hne.
Qed.

Lemma keeps_stats_refl s : keeps_stats s s.
Proof. intros k pet Hpet. eauto. Qed.

Lemma keeps_stats_trans s1 s2 s3 :
  keeps_stats s1 s2 -> keeps_stats s2 s3 -> keeps_stats s1 s3.
Proof.
  intros H12 H23 k pet Hpet.
  destruct (H12 k pet Hpet) as (pet2 & Hpet2 & Hs2).
  destruct (H23 k pet2 Hpet2) as (pet3 & Hpet3 & Hs3).
  exists pet3. split; [exact Hpet3 | congruence].
Qed.

Lemma keeps_stats_same_pets s s' :
  pets (live s') = pets (live s) -> keeps_stats s s'.
Proof. intros Heq k pet Hpet. rewrite Heq. eauto. Qed.

Lemma keeps_stats_write_pet s k p pet :
  pets (live s) !! k = Some pet -> stats p = stats pet ->
  keeps_stats s (write_pet k p s).
Proof.
  intros Hk Hs k' pet' Hpet'. cbn.
  destruct (decide (k = k')) as [<- | Hne].
  - rewrite lookup_insert_eq. exists p. split; [reflexivity | congruence].
  - rewrite lookup_insert_ne by exact Hne. eauto.
Qed.

Lemma keeps_stats_update_pet s k f :
  (forall pet, stats (f pet) = stats pet) -> keeps_stats s (update_pet k f s).
Proof.
  intros Hf. unfold update_pet.
  destruct (pets (live s) !! k) as [pet |] eqn:Hk; [| apply keeps_stats_refl].
  eapply keeps_stats_write_pet; [exact Hk | apply Hf].
Qed.

Lemma keeps_stats_add_exp_to_pet s pet_id d :
  keeps_stats s (fst (PetService.add_exp_to_pet s pet_id d)).
Proof.
  destruct (pets (live s) !! pet_id) as [pet |] eqn:Hpet.
  - apply keeps_stats_trans with (write_pet pet_id (Pet.set_exp (Pet.exp pet + d) pet) s).
    + eapply keeps_stats_write_pet; [exact Hpet | reflexivity].
    + apply keeps_stats_same_pets.
      rewrite (LevelingFacts.add_exp_to_pet_live _ _ _ _ Hpet). reflexivity.
  - unfold PetService.add_exp_to_pet. rewrite Hpet. apply keeps_stats_refl.
Qed.

Lemma keeps_stats_commit s : keeps_stats s (commit s).
Proof. apply keeps_stats_same_pets. reflexivity. Qed.

Lemma keeps_stats_write_user s k u : keeps_stats s (write_user k u s).
Proof. apply keeps_stats_same_pets. reflexivity. Qed.

Lemma keeps_stats_write_mission s k m : keeps_stats s (write_mission k m s).
Proof. apply keeps_stats_same_pets. reflexivity. Qed.

(** Collecting a mission changes the level and the stamina of no pet. *)
Lemma keeps_stats_complete_mission now s mission_id draw :
  keeps_stats s (fst (complete_mission s mission_id now draw)).
Proof.
  unfold complete_mission.
  destruct (missions (live s) !! mission_id) as [mission |]; [| apply keeps_stats_refl].
  destruct (negb _); [apply keeps_stats_refl |].
  destruct (now <? _); [apply keeps_stats_refl |].
  destruct (pets (live s) !! Mission.pet_id mission) as [pet |];
    [| apply keeps_stats_refl].
  destruct (calculate_mission_success_chance _ _ _) as [chance |];
    [| apply keeps_stats_refl].
  destruct (Qlt_le_dec draw chance);
    (destruct (users (live s) !! Mission.user_id mission) as [user |];
     [| apply keeps_stats_refl]).
  - match goal with
    | |- context [PetService.add_exp_to_pet ?s1 ?p ?d] =>
        pose proof (keeps_stats_add_exp_to_pet s1 p d) as Hadd;
        destruct (PetService.add_exp_to_pet s1 p d) as [s2 [info | e]]
    end; cbn [fst] in *.
    + eapply keeps_stats_trans; [apply keeps_stats_write_user |].
      eapply keeps_stats_trans; [exact Hadd |].
      eapply keeps_stats_trans; [apply keeps_stats_write_mission |].
      eapply keeps_stats_trans; [| apply keeps_stats_commit].
      apply keeps_stats_update_pet. reflexivity.
    + eapply keeps_stats_trans; [apply keeps_stats_write_user | exact Hadd].
  - cbn [fst].
    eapply keeps_stats_trans; [apply keeps_stats_write_user |].
    eapply keeps_stats_trans; [| apply keeps_stats_commit].
    eapply keeps_stats_trans; [| apply keeps_stats_update_pet; reflexivity].
    eapply keeps_stats_trans; [| apply keeps_stats_write_mission].
    apply keeps_stats_update_pet. reflexivity.
Qed.

(** The loop resolves every mission it was given that can be resolved:
    the draw of the mission decides as it would have at the start of the
    sweep, since no mission collected before it changes the level or the
    stamina of a pet. *)
Lemma sweep_loop_resolves now draws (rows : list (Z * Mission.t)) :
  forall s mission_id mission pet chance,
  NoDup rows.*1 ->
  mission_id ∈ rows.*1 ->
  missions (live s) !! mission_id = Some mission ->
  Mission.status mission = "active" ->
  Mission.complete_at mission <= now ->
  pets (live s) !! Mission.pet_id mission = Some pet ->
  is_Some (users (live s) !! Mission.user_id mission) ->
  calculate_mission_success_chance
    (Pet.stamina pet) (Pet.level pet) (Mission.mission_type mission) = Some chance ->
  let s' := sweep_loop now draws rows s in
  ((chance <= draws mission_id)%Q ->
   Bot.mission_status (live s') mission_id = Some "failed")
  /\ ((draws mission_id < chance)%Q ->
      Bot.mission_status (live s') mission_id = Some "completed"
      \/ missions (live s') !! mission_id = Some mission).
Proof.
  induction rows as [| [k0 m0] rows IH];
    intros s mission_id mission pet chance Hnodup Hin Hm Hst Hdue Hpet Huser Hchance.
  { apply elem_of_nil in Hin. contradiction. }
  cbn [fmap list_fmap fst] in Hnodup, Hin.
  apply NoDup_cons in Hnodup as [Hfresh Hnodup].
  cbv zeta.
  change (sweep_loop now draws ((k0, m0) :: rows) s)
    with (sweep_loop now draws rows
            (fst (complete_mission s k0 now (draws k0)))).
  destruct (decide (mission_id = k0)) as [-> | Hne].
  - unfold Bot.mission_status.
    rewrite sweep_loop_frame by exact Hfresh.
    destruct Huser as [user Huser].
    unfold complete_mission.
    rewrite Hm, (is_active_true _ Hst). cbn [negb].
    replace (now <? Mission.complete_at mission) with false
      by (symmetry; apply Z.ltb_ge; exact Hdue).
    rewrite Hpet, Hchance.
    destruct (Qlt_le_dec (draws k0) chance) as [Hwin | Hlose]; rewrite Huser.
    + split; [intros Hge; exfalso; apply (Qlt_not_le _ _ Hwin), Hge |].
      intros _.
      match goal with
      | |- context [PetService.add_exp_to_pet ?s1 ?p ?d] =>
          assert (Hpet1 : pets (live s1) !! p = Some pet) by exact Hpet
      end.
      destruct (can_level_up (Pet.exp pet + Mission.reward_exp mission) (Pet.level pet))
        eqn:Hup.
      * right. rewrite (LevelingFacts.add_exp_to_pet_due _ _ _ _ Hpet1 Hup).
        cbn [fst]. exact Hm.
      * left. rewrite (LevelingFacts.add_exp_to_pet_not_due _ _ _ _ Hpet1 Hup).
        unfold update_pet.
        cbn [commit write_user write_pet write_mission live pets set_users set_pets
               set_missions fst].
        rewrite lookup_insert_eq. cbn. rewrite lookup_insert_eq. reflexivity.
    + split; [| intros Hlt; exfalso; apply (Qlt_not_le _ _ Hlt), Hlose].
      intros _. unfold update_pet. cbn [write_user live pets set_users].
      rewrite Hpet.
      cbn [commit write_pet write_mission live pets set_pets set_missions fst].
      rewrite lookup_insert_eq. cbn. rewrite lookup_insert_eq. reflexivity.
  - apply elem_of_cons in Hin as [Heq | Hin]; [contradiction |].
    destruct (keeps_complete_mission now s k0 (draws k0)) as (Hmis & Hpets & Husers).
    destruct (keeps_stats_complete_mission now s k0 (draws k0) _ _ Hpet)
      as (pet1 & Hpet1 & Hstats).
    injection Hstats as Hlevel _ _ _ Hstamina.
    apply (IH _ mission_id mission pet1 chance); auto.
    + rewrite Hmis by exact Hne. exact Hm.
    + rewrite Hstamina, Hlevel. exact Hchance.
Qed.

(** The rows the sweep selects. *)
Lemma sweep_rows s now k :
  k ∈ (List.filter
         (fun row => is_active (snd row) && (Mission.complete_at (snd row) <=? now))
         (map_to_list (missions (live s)))).*1
  <-> exists m, missions (live s) !! k = Some m
                /\ is_active m = true /\ Mission.complete_at m <= now.
Proof.
  rewrite list_elem_of_fmap. split.
  - intros ([k' m] & -> & Hin). apply list_elem_of_In, filter_In in Hin as [Hin Hcond].
    apply list_elem_of_In, elem_of_map_to_list in Hin.
    apply andb_prop in Hcond as [Hact Hdue%Z.leb_le]. eauto.
  - intros (m & Hm & Hact & Hdue). exists (k, m). split; [reflexivity |].
    apply list_elem_of_In, filter_In. split.
    + apply list_elem_of_In, elem_of_map_to_list, Hm.
    + cbn. rewrite Hact. apply Z.leb_le in Hdue. rewrite Hdue. reflexivity.
Qed.

(** X10. The background sweep and a mission that is due (active, its
    completion time come, its pet, player and type in place): when the
    draw of the mission fails, the mission is failed once the sweep has
    run; when it succeeds, the mission is completed, or, the experience
    having taken its pet to the requirement of its level, the attempt
    raised and the mission row is what it was, still active. *)
Theorem sweep_resolves_due_missions
    (s : Session) (now : Z) (draws : Z -> Q)
    (mission_id : Z) (mission : Mission.t) (pet : Pet.t) (chance : Q) :
  missions (live s) !! mission_id = Some mission ->
  Mission.status mission = "active" ->
  Mission.complete_at mission <= now ->
  pets (live s) !! Mission.pet_id mission = Some pet ->
  is_Some (users (live s) !! Mission.user_id mission) ->
  calculate_mission_success_chance
    (Pet.stamina pet) (Pet.level pet) (Mission.mission_type mission) = Some chance ->
  let s' := check_and_autocomplete_missions s now draws in
  ((chance <= draws mission_id)%Q ->
   Bot.mission_status (live s') mission_id = Some "failed")
  /\ ((draws mission_id < chance)%Q ->
      Bot.mission_status (live s') mission_id = Some "completed"
      \/ missions (live s') !! mission_id = Some mission).
Proof.
  intros Hm Hst Hdue Hpet Huser Hchance. cbv zeta.
  unfold check_and_autocomplete_missions.
  apply (sweep_loop_resolves now draws _ s mission_id mission pet chance); auto.
  - apply TransferFacts.NoDup_fst_filter, NoDup_fst_map_to_list.
  - apply sweep_rows. exists mission. auto using is_active_true.
Qed.

Lemma sweep_resolves_due_missions_witness :
  let mission := Mission.Make 1 10 "quick" 0 1800 93 37 "active" in
  let draws := fun _ : Z => 1%Q in
  let s' := check_and_autocomplete_missions Examples.mission_session 1900 draws in
  Bot.mission_status (live s') 7 = Some "failed"
  /\ (((95125 # 100000) <= draws 7%Z)%Q ->
      Bot.mission_status (live s') 7 = Some "failed")
  /\ ((draws 7%Z < (95125 # 100000))%Q ->
      Bot.mission_status (live s') 7 = Some "completed"
      \/ missions (live s') !! 7 = Some mission).
Proof.
  split; [vm_compute; reflexivity |].
  apply (sweep_resolves_due_missions Examples.mission_session 1900 (fun _ => 1%Q)
           7 (Mission.Make 1 10 "quick" 0 1800 93 37 "active")
           (Examples.pet 1 "Rare" true false None) (95125 # 100000)).
  - vm_compute. reflexivity.
  - reflexivity.
  - simpl. lia.
  - vm_compute. reflexivity.
  - vm_compute. eauto.
  - vm_compute. reflexivity.
Defined.

(** X11. The sweep touches no other mission: a mission that is not active,
    or not yet due, has the same row after the sweep. *)
Theorem sweep_leaves_other_missions
    (s : Session) (now : Z) (draws : Z -> Q)
    (mission_id : Z) (mission : Mission.t) :
  missions (live s) !! mission_id = Some mission ->
  Mission.status mission <> "active" \/ now < Mission.complete_at mission ->
  missions (live (check_and_autocomplete_missions s now draws)) !! mission_id
  = Some mission.
Proof.
  intros Hm Hnot. unfold check_and_autocomplete_missions.
  rewrite <- Hm. apply (sweep_loop_frame now draws).
  rewrite sweep_rows. intros (m & Hm' & Hact & Hdue).
  rewrite Hm in Hm'. injection Hm' as <-.
  destruct Hnot as [Hst | Hearly]; [| lia].
  apply Hst. unfold is_active in Hact. apply String.eqb_eq, Hact.
Qed.

Lemma sweep_leaves_other_missions_witness :
  missions (live (check_and_autocomplete_missions Examples.mission_session 1000
                    (fun _ => 1 # 2))) !! 7
  = Some (Mission.Make 1 10 "quick" 0 1800 93 37 "active").
Proof.
  apply (sweep_leaves_other_missions Examples.mission_session 1000 (fun _ => 1 # 2)
           7 (Mission.Make 1 10 "quick" 0 1800 93 37 "active")).
  - vm_compute. reflexivity.
  - right. simpl. lia.
Defined.

End MissionRules.

(** ** Raid rules *)

Module RaidRules.
Import GameConstants PetService RaidService.

Lemma reset_daily_raids_spec s attacker_id attacker now :
  users (live s) !! attacker_id = Some attacker ->
  let r := reset_daily_raids s attacker_id attacker now in
  (forall k, k <> attacker_id -> users (live (fst r)) !! k = users (live s) !! k)
  /\ raids (live (fst r)) = raids (live s)
  /\ pets (live (fst r)) = pets (live s)
  /\ (forall attacker1,
        snd r = Py.Ok attacker1 ->
        users (live (fst r)) !! attacker_id = Some attacker1
        /\ User.free_raids_today attacker1 = User.free_raids_today attacker
        /\ exists last,
             User.last_raid_reset attacker1 = Some last /\ date now <= date last)
  /\ (forall e,
        snd r = Py.Raise e ->
        e = Py.AttributeError
        /\ fst r = s
        /\ exists last,
             User.last_raid_reset attacker = Some last /\ date last < date now).
Proof.
  intros Ha. unfold reset_daily_raids.
  destruct (User.last_raid_reset attacker) as [t |] eqn:Hlast;
    [destruct (date t <? date now) eqn:Eday |]; cbn [fst snd].
  - apply Z.ltb_lt in Eday.
    repeat (split; [reflexivity |]). split; [intros a1 H; discriminate H |].
    intros e He. injection He as <-. eauto.
  - apply Z.ltb_ge in Eday.
    repeat (split; [reflexivity |]). split; [| intros e H; discriminate H].
    intros a1 H1. injection H1 as <-. eauto.
  - split; [intros k Hk; cbn; apply lookup_insert_ne; congruence |].
    repeat (split; [reflexivity |]). split; [| intros e H; discriminate H].
    intros a1 H1. injection H1 as <-. cbn.
    split; [apply lookup_insert_eq |]. split; [reflexivity |].
    exists now. split; [reflexivity | lia].
Qed.

(** What an accepted eligibility check has established. *)
Lemma can_raid_target_accepts s attacker_id defender_id now s1 :
  can_raid_target s attacker_id defender_id now = (s1, Py.Ok None) ->
  attacker_id <> defender_id
  /\ exists attacker attacker1,
       users (live s) !! attacker_id = Some attacker
       /\ reset_daily_raids s attacker_id attacker now = (s1, Py.Ok attacker1)
       /\ 0 < User.free_raids_today attacker1
       /\ List.filter
            (fun raid =>
               (Raid.attacker_id raid =? attacker_id)
               && (Raid.defender_id raid =? defender_id)
               && (now - RAID_COOLDOWN <? Raid.timestamp raid))
            (raids (live s1)) = []
       /\ (forall defender shield,
              users (live s1) !! defender_id = Some defender ->
              User.raid_shield_until defender = Some shield -> shield <= now).
Proof.
  unfold can_raid_target.
  destruct (attacker_id =? defender_id) eqn:Eself; [discriminate |].
  apply Z.eqb_neq in Eself.
  destruct (users (live s) !! attacker_id) as [attacker |] eqn:Ha; [| discriminate].
  destruct (reset_daily_raids s attacker_id attacker now) as [s2 [attacker1 | e]]
    eqn:Hreset; [| discriminate].
  destruct (User.free_raids_today attacker1 <=? 0) eqn:Efree; [discriminate |].
  apply Z.leb_gt in Efree.
  destruct (List.filter _ (raids (live s2))) as [| raid rest] eqn:Ecool; [| discriminate].
  intros Hrun. split; [exact Eself |]. exists attacker, attacker1.
  assert (Hs : s2 = s1).
  { destruct (users (live s2) !! defender_id) as [defender |];
      [destruct (User.raid_shield_until defender) as [shield |];
       [destruct (now <? shield); [discriminate |] |] |];
      injection Hrun as <-; reflexivity. }
  subst s2. split; [reflexivity |]. split; [exact Hreset |].
  split; [exact Efree |]. split; [exact Ecool |].
  intros defender shield Hd Hshield. rewrite Hd, Hshield in Hrun.
  destruct (now <? shield) eqn:E; [discriminate |]. apply Z.ltb_ge, E.
Qed.

Lemma transfer_pet_users s pet_id new_owner_id reason pet :
  pets (live s) !! pet_id = Some pet ->
  let r := transfer_pet s pet_id new_owner_id reason in
  users (live (fst r)) = users (live s)
  /\ raids (live (fst r)) = raids (live s)
  /\ (snd r = false -> fst r = s)
  /\ (snd r = true ->
      pets (live (fst r))
      = <[pet_id := Pet.set_obtained_from reason
                      (Pet.set_owner_id new_owner_id
                         (Pet.set_fatigue_until None
                            (Pet.set_is_defending false
                               (Pet.set_is_on_mission false pet))))]> (pets (live s))).
Proof.
  intros Hpet. unfold transfer_pet.
  destruct (users (live s) !! new_owner_id) as [new_owner |]; [| cbn; auto].
  - destruct (User.pet_slots new_owner <=? _); [cbn; repeat split; auto; discriminate |].
    rewrite Hpet. cbn. repeat split; auto; discriminate.
  - repeat split; auto; discriminate.
Qed.

Lemma fatigue_all_users now (rows : list (Z * Pet.t)) : forall s,
  users (live (fatigue_all s now rows)) = users (live s)
  /\ raids (live (fatigue_all s now rows)) = raids (live s).
Proof.
  induction rows as [| row rows IH]; intros s; [split; reflexivity |].
  unfold fatigue_all. cbn [fold_left]. fold (fatigue_all (set_pet_fatigue s (fst row) 2 now) now rows).
  destruct (IH (set_pet_fatigue s (fst row) 2 now)) as [Hu Hr].
  rewrite Hu, Hr. unfold set_pet_fatigue, update_pet.
  destruct (pets (live s) !! fst row); split; reflexivity.
Qed.

(** The anatomy of an executed raid. *)
Lemma execute_raid_ok s a d ids now offset draw pick ld s' o :
  execute_raid s a d ids now offset draw pick ld = (s', Py.Ok o) ->
  exists s1 s2 attacker defender,
    can_raid_target s a d now = (s1, Py.Ok None)
    /\ users (live s2) = users (live s1)
    /\ raids (live s2) = raids (live s1)
    /\ users (live s1) !! a = Some attacker
    /\ users (live s1) !! d = Some defender
    /\ users (live s')
       = <[d := defender_after (success o) defender]>
           (<[a := attacker_after (success o) now attacker]> (users (live s1)))
    /\ raids (live s')
       = (raids (live s1)
          ++ [Raid.Make a d (attack_power o) (defense_power o)
                (if success o then "win" else "lose") (stolen_pet o) now])%list
    /\ pets (live s') = pets (live s2)
    /\ persisted s' = live s'
    /\ attack_power o
       = Py.sum (List.map (fun row => Pet.power (snd row) * Pet.level (snd row))
                   (attacker_pets s1 a ids))
    /\ attacker_pets s1 a ids <> []
    /\ ((success o = true
         /\ ((stolen_pet o = None /\ s2 = s1)
             \/ exists target_id target_pet,
                  stolen_pet o = Some target_id
                  /\ choice (get_stealable_pets s1 d) pick = Some (target_id, target_pet)
                  /\ can_steal_pet target_pet ld = true
                  /\ transfer_pet s1 target_id a "raid" = (s2, true)))
        \/ (success o = false /\ stolen_pet o = None
            /\ s2 = fatigue_all s1 now (attacker_pets s1 a ids))).
Proof.
  unfold execute_raid.
  destruct (can_raid_target s a d now) as [s1 [[e |] | e]] eqn:Hcan;
    [discriminate | | discriminate].
  destruct (can_raid_target_accepts s a d now s1 Hcan) as (Hne & _).
  fold (attacker_pets s1 a ids).
  destruct (attacker_pets s1 a ids) as [| row rows] eqn:Epets; [discriminate |].
  set (A := Py.sum _). set (D := calculate_total_defense_power _ _).
  destruct (Qlt_le_dec draw (raid_win_chance A D offset)) as [Hlt | Hge].
  - destruct (choice _ pick) as [[tid tp] |] eqn:Hpick;
      [destruct (can_steal_pet tp ld) eqn:Hsteal;
       [pose proof Hpick as Hin; apply TransferFacts.choice_elem_of in Hin;
        apply TransferFacts.elem_of_select_pets in Hin as [Htp _];
        pose proof (transfer_pet_users s1 tid a "raid" tp Htp) as (Htu & Htr & Hfalse & _);
        destruct (transfer_pet s1 tid a "raid") as [s2 ok] eqn:Htransfer;
        cbn [fst snd] in Htu, Htr, Hfalse |] |].
    + destruct (users (live s2) !! a) as [attacker |] eqn:Ha; [| discriminate].
      cbn [write_user live users set_users].
      rewrite lookup_insert_ne by exact Hne.
      destruct (users (live s2) !! d) as [defender |] eqn:Hd; [| discriminate].
      intros Hrun. injection Hrun as <- <-.
      exists s1, s2, attacker, defender. rewrite <- Htu, <- Htr, Ha, Hd.
      rewrite ?Epets. cbn. repeat (split; [solve [auto | discriminate | reflexivity] |]).
      left. split; [reflexivity |].
      destruct ok.
      * right. exists tid, tp. auto.
      * left. split; [reflexivity | apply Hfalse; reflexivity].
    + destruct (users (live s1) !! a) as [attacker |] eqn:Ha; [| discriminate].
      cbn [write_user live users set_users].
      rewrite lookup_insert_ne by exact Hne.
      destruct (users (live s1) !! d) as [defender |] eqn:Hd; [| discriminate].
      intros Hrun. injection Hrun as <- <-.
      exists s1, s1, attacker, defender.
      rewrite ?Epets. cbn. repeat (split; [solve [auto | discriminate | reflexivity] |]).
      left. split; [reflexivity |]. left. split; reflexivity.
    + destruct (users (live s1) !! a) as [attacker |] eqn:Ha; [| discriminate].
      cbn [write_user live users set_users].
      rewrite lookup_insert_ne by exact Hne.
      destruct (users (live s1) !! d) as [defender |] eqn:Hd; [| discriminate].
      intros Hrun. injection Hrun as <- <-.
      exists s1, s1, attacker, defender.
      rewrite ?Epets. cbn. repeat (split; [solve [auto | discriminate | reflexivity] |]).
      left. split; [reflexivity |]. left. split; reflexivity.
  - fold (fatigue_all s1 now (row :: rows)).
    destruct (fatigue_all_users now (row :: rows) s1) as [Hfu Hfr].
    set (s2 := fatigue_all s1 now (row :: rows)) in *.
    destruct (users (live s2) !! a) as [attacker |] eqn:Ha; [| discriminate].
    cbn [write_user live users set_users].
    rewrite lookup_insert_ne by exact Hne.
    destruct (users (live s2) !! d) as [defender |] eqn:Hd; [| discriminate].
    intros Hrun. injection Hrun as <- <-.
    exists s1, s2, attacker, defender. rewrite <- Hfu, <- Hfr, Ha, Hd.
    rewrite ?Epets. cbn. repeat (split; [solve [auto | discriminate | reflexivity] |]).
    right. repeat split.
Qed.

(** The two players' rows after an executed raid. *)
Lemma execute_raid_rows s a d ids now offset draw pick ld s' o :
  execute_raid s a d ids now offset draw pick ld = (s', Py.Ok o) ->
  a <> d
  /\ exists s1 attacker defender,
       can_raid_target s a d now = (s1, Py.Ok None)
       /\ users (live s1) !! a = Some attacker
       /\ users (live s1) !! d = Some defender
       /\ 0 < User.free_raids_today attacker
       /\ (exists last,
             User.last_raid_reset attacker = Some last /\ date now <= date last)
       /\ users (live s') !! a = Some (attacker_after (success o) now attacker)
       /\ users (live s') !! d = Some (defender_after (success o) defender)
       /\ (forall k, k <> a -> k <> d -> users (live s') !! k = users (live s) !! k)
       /\ raids (live s')
          = (raids (live s)
             ++ [Raid.Make a d (attack_power o) (defense_power o)
                   (if success o then "win" else "lose") (stolen_pet o) now])%list.
Proof.
  intros Hrun.
  destruct (execute_raid_ok _ _ _ _ _ _ _ _ _ _ _ Hrun)
    as (s1 & s2 & attacker & defender & Hcan & _ & _ & Ha & Hd & Hu & Hr & _).
  destruct (can_raid_target_accepts _ _ _ _ _ Hcan)
    as (Hne & attacker0 & attacker1 & Ha0 & Hreset & Hfree & _).
  pose proof (reset_daily_raids_spec s a attacker0 now Ha0) as Hspec.
  rewrite Hreset in Hspec. cbn [fst snd] in Hspec.
  destruct Hspec as (Hother & Hraids & _ & Hok & _).
  destruct (Hok attacker1 eq_refl) as (Ha1 & _ & Hstamp).
  rewrite Ha in Ha1. injection Ha1 as <-.
  split; [exact Hne |]. exists s1, attacker, defender.
  split; [exact Hcan |]. split; [exact Ha |]. split; [exact Hd |].
  split; [exact Hfree |]. split; [exact Hstamp |].
  split; [rewrite Hu, lookup_insert_ne, lookup_insert_eq by congruence; reflexivity |].
  split; [rewrite Hu, lookup_insert_eq; reflexivity |].
  split.
  - intros k Hka Hkd. rewrite Hu, !lookup_insert_ne by congruence. apply Hother, Hka.
  - rewrite Hr, Hraids. reflexivity.
Qed.

Lemma attacker_after_last_raid_reset success now attacker :
  User.last_raid_reset (attacker_after success now attacker)
  = User.last_raid_reset attacker.
Proof. destruct success; reflexivity. Qed.

(** X12. After an executed raid, won or lost, the same attacker does
    not raid the same target again before the cooldown of six hours is
    over: the eligibility check refuses for lack of free raids or for the
    cooldown, or, when the new instant is on a later day than the
    attacker's reset stamp, raises [AttributeError]; no new raid is
    executed, and on the day of the raid it is rejected. *)
Theorem raid_cooldown_enforced
    (s s' : Session) (a d : Z) (ids : list Z) (now : Z)
    (offset draw : Q) (pick : nat) (ld : Q) (o : outcome)
    (now' : Z) (ids' : list Z) (offset' draw' : Q) (pick' : nat) (ld' : Q) :
  execute_raid s a d ids now offset draw pick ld = (s', Py.Ok o) ->
  now' < now + RAID_COOLDOWN ->
  (snd (can_raid_target s' a d now') = Py.Ok (Some NoFreeRaids)
   \/ snd (can_raid_target s' a d now') = Py.Ok (Some OnCooldown)
   \/ snd (can_raid_target s' a d now') = Py.Raise Py.AttributeError)
  /\ (forall o',
        snd (execute_raid s' a d ids' now' offset' draw' pick' ld') <> Py.Ok o')
  /\ (date now' <= date now ->
      exists s'' reason,
        execute_raid s' a d ids' now' offset' draw' pick' ld'
        = (s'', Py.Raise (Py.ValueError reason))).
Proof.
  intros Hrun Hsoon.
  destruct (execute_raid_rows _ _ _ _ _ _ _ _ _ _ _ Hrun)
    as (Hne & s1 & attacker & defender & _ & _ & _ & _ & (last & Hlast & Hday) & Ha'
        & _ & _ & Hraids).
  assert (Hcheck :
            (snd (can_raid_target s' a d now') = Py.Ok (Some NoFreeRaids)
             \/ snd (can_raid_target s' a d now') = Py.Ok (Some OnCooldown)
             \/ snd (can_raid_target s' a d now') = Py.Raise Py.AttributeError)
            /\ (date now' <= date now ->
                snd (can_raid_target s' a d now') <> Py.Raise Py.AttributeError)).
  { unfold can_raid_target.
    replace (a =? d) with false by (symmetry; apply Z.eqb_neq; exact Hne).
    rewrite Ha'.
    pose proof (reset_daily_raids_spec s' a _ now' Ha') as (_ & Hr3 & _ & _ & Hraise).
    destruct (reset_daily_raids s' a _ now') as [s3 [a3 | e]]; cbn [fst snd] in Hr3, Hraise.
    - destruct (User.free_raids_today a3 <=? 0);
        [split; [left; reflexivity | discriminate] |].
      rewrite Hr3, Hraids, List.filter_app. cbn [List.filter Raid.attacker_id
        Raid.defender_id Raid.timestamp].
      rewrite !Z.eqb_refl.
      replace (now' - RAID_COOLDOWN <? now) with true by (symmetry; apply Z.ltb_lt; lia).
      cbn [andb].
      destruct (List.filter _ (raids (live s)));
        (split; [right; left; reflexivity | discriminate]).
    - destruct (Hraise e eq_refl) as (-> & _ & last' & Hlast' & Hday').
      split; [right; right; reflexivity |].
      intros Hsame. exfalso.
      rewrite attacker_after_last_raid_reset, Hlast in Hlast'.
      injection Hlast' as <-. lia. }
  destruct Hcheck as [Hcheck Hsame].
  split; [exact Hcheck |].
  unfold execute_raid.
  destruct (can_raid_target s' a d now') as [s'' [[e |] | e]]; cbn [snd] in *.
  - split; [discriminate | eauto].
  - destruct Hcheck as [H | [H | H]]; discriminate H.
  - split; [discriminate |]. intros Hday'.
    destruct Hcheck as [H | [H | H]]; try discriminate H.
    exfalso. apply (Hsame Hday'). exact H.
Qed.

Lemma raid_cooldown_enforced_witness :
  let s' := fst (execute_raid Examples.open_session 1 2 [10] 80000
                   0 (1 # 100) 0 0) in
  snd (can_raid_target s' 1 2 90000) = Py.Raise Py.AttributeError
  /\ (snd (can_raid_target s' 1 2 90000) = Py.Ok (Some NoFreeRaids)
      \/ snd (can_raid_target s' 1 2 90000) = Py.Ok (Some OnCooldown)
      \/ snd (can_raid_target s' 1 2 90000) = Py.Raise Py.AttributeError)
  /\ (forall o',
        snd (execute_raid s' 1 2 [10] 90000 0 (1 # 100) 0 0) <> Py.Ok o')
  /\ (date 90000 <= date 80000 ->
      exists s'' reason,
        execute_raid s' 1 2 [10] 90000 0 (1 # 100) 0 0
        = (s'', Py.Raise (Py.ValueError reason))).
Proof.
  split; [vm_compute; reflexivity |].
  apply (raid_cooldown_enforced Examples.open_session _ 1 2 [10] 80000
           0 (1 # 100) 0 0
           (Outcome true 250 250 (Some 20))).
  - vm_compute. reflexivity.
  - unfold RAID_COOLDOWN. lia.
Defined.

(** X13. Winning a raid shields the winner: for the next hour no player
    passes the eligibility check against them. *)
Theorem raid_winner_is_shielded
    (s s' : Session) (a d : Z) (ids : list Z) (now : Z)
    (offset draw : Q) (pick : nat) (ld : Q) (o : outcome)
    (b now' : Z) :
  execute_raid s a d ids now offset draw pick ld = (s', Py.Ok o) ->
  success o = true ->
  now' < now + RAID_SHIELD_DURATION ->
  snd (can_raid_target s' b a now') <> Py.Ok None.
Proof.
  intros Hrun Hwin Hsoon.
  destruct (execute_raid_rows _ _ _ _ _ _ _ _ _ _ _ Hrun)
    as (Hne & s1 & attacker & defender & _ & _ & _ & _ & _ & Ha' & _).
  rewrite Hwin in Ha'.
  unfold can_raid_target.
  destruct (b =? a) eqn:Eself; [discriminate |]. apply Z.eqb_neq in Eself.
  destruct (users (live s') !! b) as [other |] eqn:Hb; [| discriminate].
  pose proof (reset_daily_raids_spec s' b other now' Hb) as (Hother & _).
  destruct (reset_daily_raids s' b other now') as [s3 [b3 | e]]; [| discriminate].
  cbn [fst snd] in Hother.
  destruct (User.free_raids_today b3 <=? 0); [discriminate |].
  destruct (List.filter _ (raids (live s3))); [| discriminate].
  rewrite Hother, Ha' by congruence. cbn.
  replace (now' <? now + RAID_SHIELD_DURATION) with true
    by (symmetry; apply Z.ltb_lt; exact Hsoon).
  discriminate.
Qed.

Lemma raid_winner_is_shielded_witness :
  let s' := fst (execute_raid Examples.open_session 1 2 [10] 10000
                   0 (1 # 100) 0 0) in
  snd (can_raid_target s' 2 1 12000) <> Py.Ok None.
Proof.
  apply (raid_winner_is_shielded Examples.open_session _ 1 2 [10] 10000
           0 (1 # 100) 0 0 (Outcome true 250 250 (Some 20))).
  - vm_compute. reflexivity.
  - reflexivity.
  - unfold RAID_SHIELD_DURATION. lia.
Defined.

(** X14. The accounts of an executed raid.  The attacker had a free raid
    and has one less; exactly one of the attacker's won and lost tallies,
    and the matching one of the defender's, grows by one; a raid moves no
    coins and no Stars; no other player is touched; and exactly one row,
    with the two powers, the result and the stolen pet, is added to the raid
    log. *)
Theorem execute_raid_accounts
    (s s' : Session) (a d : Z) (ids : list Z) (now : Z)
    (offset draw : Q) (pick : nat) (ld : Q) (o : outcome) :
  execute_raid s a d ids now offset draw pick ld = (s', Py.Ok o) ->
  exists attacker defender attacker' defender',
    users (live (fst (can_raid_target s a d now))) !! a = Some attacker
    /\ users (live s) !! d = Some defender
    /\ users (live s') !! a = Some attacker'
    /\ users (live s') !! d = Some defender'
    /\ 0 < User.free_raids_today attacker
    /\ User.free_raids_today attacker' = User.free_raids_today attacker - 1
    /\ User.raids_won attacker'
       = User.raids_won attacker + (if success o then 1 else 0)
    /\ User.raids_lost attacker'
       = User.raids_lost attacker + (if success o then 0 else 1)
    /\ User.defenses_lost defender'
       = User.defenses_lost defender + (if success o then 1 else 0)
    /\ User.defenses_won defender'
       = User.defenses_won defender + (if success o then 0 else 1)
    /\ (User.coins attacker', User.stars attacker') = (User.coins attacker, User.stars attacker)
    /\ (User.coins defender', User.stars defender') = (User.coins defender, User.stars defender)
    /\ (forall k, k <> a -> k <> d -> users (live s') !! k = users (live s) !! k)
    /\ raids (live s')
       = (raids (live s)
          ++ [Raid.Make a d (attack_power o) (defense_power o)
                (if success o then "win" else "lose") (stolen_pet o) now])%list
    /\ persisted s' = live s'.
Proof.
  intros Hrun.
  destruct (execute_raid_rows _ _ _ _ _ _ _ _ _ _ _ Hrun)
    as (Hne & s1 & attacker & defender & Hcan & Ha & Hd & Hfree & _ & Ha' & Hd' & Hother
        & Hr).
  destruct (execute_raid_ok _ _ _ _ _ _ _ _ _ _ _ Hrun)
    as (s1' & _ & _ & _ & Hcan' & _ & _ & _ & _ & _ & _ & _ & Hcommit & _).
  destruct (can_raid_target_accepts _ _ _ _ _ Hcan)
    as (_ & attacker0 & attacker1 & Ha0 & Hreset & _).
  pose proof (reset_daily_raids_spec s a attacker0 now Ha0) as Hspec.
  rewrite Hreset in Hspec. cbn [fst snd] in Hspec.
  destruct Hspec as (Hkeep & _).
  exists attacker, defender, (attacker_after (success o) now attacker),
    (defender_after (success o) defender).
  rewrite Hcan. cbn [fst].
  split; [exact Ha |].
  split; [rewrite <- Hkeep by congruence; exact Hd |].
  split; [exact Ha' |]. split; [exact Hd' |]. split; [exact Hfree |].
  unfold attacker_after, defender_after.
  destruct (success o); cbn; repeat (split; [first [reflexivity | lia | assumption] |]);
    assumption.
Qed.

Lemma execute_raid_accounts_witness :
  let s := Examples.open_session in
  let s' := fst (execute_raid s 1 2 [10] 10000 0 (99 # 100) 0 0) in
  let o := Outcome false 250 250 None in
  exists attacker defender attacker' defender',
    users (live (fst (can_raid_target s 1 2 10000))) !! 1 = Some attacker
    /\ users (live s) !! 2 = Some defender
    /\ users (live s') !! 1 = Some attacker'
    /\ users (live s') !! 2 = Some defender'
    /\ 0 < User.free_raids_today attacker
    /\ User.free_raids_today attacker' = User.free_raids_today attacker - 1
    /\ User.raids_won attacker'
       = User.raids_won attacker + (if success o then 1 else 0)
    /\ User.raids_lost attacker'
       = User.raids_lost attacker + (if success o then 0 else 1)
    /\ User.defenses_lost defender'
       = User.defenses_lost defender + (if success o then 1 else 0)
    /\ User.defenses_won defender'
       = User.defenses_won defender + (if success o then 0 else 1)
    /\ (User.coins attacker', User.stars attacker') = (User.coins attacker, User.stars attacker)
    /\ (User.coins defender', User.stars defender') = (User.coins defender, User.stars defender)
    /\ (forall k, k <> 1 -> k <> 2 -> users (live s') !! k = users (live s) !! k)
    /\ raids (live s')
       = (raids (live s)
          ++ [Raid.Make 1 2 (attack_power o) (defense_power o)
                (if success o then "win" else "lose") (stolen_pet o) 10000])%list
    /\ persisted s' = live s'.
Proof.
  apply (execute_raid_accounts Examples.open_session _ 1 2 [10] 10000
           0 (99 # 100) 0 0 (Outcome false 250 250 None)).
  vm_compute. reflexivity.
Defined.

(** X15. What a won raid does to the pets: if a pet is reported stolen, it
    was a pet of the defender and it now belongs to the attacker, obtained
    from a raid, off duty and rested, and no other pet changed; if none is
    reported, no pet changed at all. *)
Theorem won_raid_moves_one_pet
    (s s' : Session) (a d : Z) (ids : list Z) (now : Z)
    (offset draw : Q) (pick : nat) (ld : Q) (o : outcome) :
  execute_raid s a d ids now offset draw pick ld = (s', Py.Ok o) ->
  success o = true ->
  match stolen_pet o with
  | Some target_id =>
      exists target_pet,
        pets (live s) !! target_id = Some target_pet
        /\ Pet.owner_id target_pet = d
        /\ pets (live s')
           = <[target_id :=
                 Pet.set_obtained_from "raid"
                   (Pet.set_owner_id a
                      (Pet.set_fatigue_until None
                         (Pet.set_is_defending false
                            (Pet.set_is_on_mission false target_pet))))]>
               (pets (live s))
  | None => pets (live s') = pets (live s)
  end.
Proof.
  intros Hrun Hwin.
  destruct (execute_raid_ok _ _ _ _ _ _ _ _ _ _ _ Hrun)
    as (s1 & s2 & attacker & defender & Hcan & _ & _ & _ & _ & _ & _ & Hpets & _ & _ & _
        & Hstage).
  pose proof (TransferFacts.can_raid_target_pets s a d now) as Hsame.
  rewrite Hcan in Hsame. cbn [fst] in Hsame.
  destruct Hstage as [(_ & Hsteal) | (Hlost & _)]; [| congruence].
  destruct Hsteal as [(-> & ->) | (tid & tp & -> & Hpick & _ & Htransfer)].
  - rewrite Hpets. exact Hsame.
  - apply TransferFacts.choice_elem_of in Hpick.
    apply TransferFacts.elem_of_select_pets in Hpick as [Htp Hcond].
    apply andb_prop in Hcond as [Hcond _]. apply andb_prop in Hcond as [Howner%Z.eqb_eq _].
    pose proof (transfer_pet_users s1 tid a "raid" tp Htp) as (_ & _ & _ & Hmoved).
    rewrite Htransfer in Hmoved. cbn [fst snd] in Hmoved.
    exists tp. rewrite <- Hsame. split; [exact Htp |]. split; [exact Howner |].
    rewrite Hpets. apply Hmoved. reflexivity.
Qed.

Lemma won_raid_moves_one_pet_witness :
  let s := Examples.open_session in
  let s' := fst (execute_raid s 1 2 [10] 10000 0 (1 # 100) 0 0) in
  exists target_pet,
    pets (live s) !! 20 = Some target_pet
    /\ Pet.owner_id target_pet = 2
    /\ pets (live s')
       = <[20 :=
             Pet.set_obtained_from "raid"
               (Pet.set_owner_id 1
                  (Pet.set_fatigue_until None
                     (Pet.set_is_defending false
                        (Pet.set_is_on_mission false target_pet))))]>
           (pets (live s)).
Proof.
  apply (won_raid_moves_one_pet Examples.open_session _ 1 2 [10] 10000
           0 (1 # 100) 0 0 (Outcome true 250 250 (Some 20))).
  - vm_compute. reflexivity.
  - reflexivity.
Defined.

(** The attacking pets are the listed pets that exist and belong to the
    attacker. *)
Lemma elem_of_attacker_pets s a ids pet_id :
  pet_id ∈ (attacker_pets s a ids).*1
  <-> pet_id ∈ ids
      /\ exists pet, pets (live s) !! pet_id = Some pet /\ Pet.owner_id pet = a.
Proof.
  unfold attacker_pets. induction ids as [| id ids IH]; cbn [flat_map].
  - cbn. split; [intros H; apply elem_of_nil in H; contradiction |].
    intros [H _]. apply elem_of_nil in H. contradiction.
  - rewrite fmap_app, elem_of_app, IH, elem_of_cons.
    destruct (pets (live s) !! id) as [pet |] eqn:Hpet;
      [destruct (Pet.owner_id pet =? a) eqn:Eown |]; cbn.
    + apply Z.eqb_eq in Eown. rewrite elem_of_cons. split.
      * intros [[-> | H] | H]; [eauto | apply elem_of_nil in H; contradiction | tauto].
      * intros [[-> | H] Hex]; [left; left; reflexivity | right; tauto].
    + apply Z.eqb_neq in Eown. split.
      * intros [H | H]; [apply elem_of_nil in H; contradiction | tauto].
      * intros [[-> | H] (pet' & Hpet' & Hown)]; [| right; eauto].
        rewrite Hpet in Hpet'. injection Hpet' as <-. contradiction.
    + split.
      * intros [H | H]; [apply elem_of_nil in H; contradiction | tauto].
      * intros [[-> | H] (pet' & Hpet' & Hown)]; [| right; eauto].
        rewrite Hpet in Hpet'. discriminate Hpet'.
Qed.

(** The pets after the loop of a lost raid. *)
Lemma fatigue_all_pets now (rows : list (Z * Pet.t)) : forall s pet_id,
  pets (live (fatigue_all s now rows)) !! pet_id
  = if decide (pet_id ∈ rows.*1)
    then Pet.set_fatigue_until (Some (now + 2 * 3600)) <$> pets (live s) !! pet_id
    else pets (live s) !! pet_id.
Proof.
  induction rows as [| [k p] rows IH]; intros s pet_id.
  - cbn. destruct (decide _) as [H | _]; [apply elem_of_nil in H; contradiction |].
    reflexivity.
  - change (fatigue_all s now ((k, p) :: rows))
      with (fatigue_all (set_pet_fatigue s k 2 now) now rows).
    rewrite IH. cbn [fmap list_fmap fst].
    assert (Hstep : forall j,
               pets (live (set_pet_fatigue s k 2 now)) !! j
               = if decide (j = k)
                 then Pet.set_fatigue_until (Some (now + 2 * 3600)) <$> pets (live s) !! j
                 else pets (live s) !! j).
    { intros j. unfold set_pet_fatigue, update_pet.
      destruct (decide (j = k)) as [-> | Hne].
      - destruct (pets (live s) !! k) as [p0 |] eqn:Hk; cbn.
        + rewrite lookup_insert_eq. reflexivity.
        + rewrite Hk. reflexivity.
      - destruct (pets (live s) !! k); cbn; [apply lookup_insert_ne; congruence |].
        reflexivity. }
    rewrite Hstep.
    destruct (decide (pet_id ∈ rows.*1)) as [Hin | Hnin];
      destruct (decide (pet_id = k)) as [-> | Hne].
    + rewrite decide_True by (apply elem_of_cons; auto).
      destruct (pets (live s) !! k); reflexivity.
    + rewrite decide_True by (apply elem_of_cons; auto). reflexivity.
    + rewrite decide_True by (apply elem_of_cons; auto). reflexivity.
    + rewrite decide_False; [reflexivity |].
      intros [H | H]%elem_of_cons; contradiction.
Qed.

(** X16. What a lost raid does to the pets: every listed pet of the
    attacker is tired for two hours from the raid, no pet is stolen, and
    every other pet is as before. *)
Theorem lost_raid_tires_the_attackers
    (s s' : Session) (a d : Z) (ids : list Z) (now : Z)
    (offset draw : Q) (pick : nat) (ld : Q) (o : outcome) :
  execute_raid s a d ids now offset draw pick ld = (s', Py.Ok o) ->
  success o = false ->
  stolen_pet o = None
  /\ (forall pet_id pet,
        pet_id ∈ ids ->
        pets (live s) !! pet_id = Some pet ->
        Pet.owner_id pet = a ->
        pets (live s') !! pet_id
        = Some (Pet.set_fatigue_until (Some (now + 2 * 3600)) pet))
  /\ (forall pet_id,
        (pet_id ∉ ids
         \/ forall pet, pets (live s) !! pet_id = Some pet -> Pet.owner_id pet <> a) ->
        pets (live s') !! pet_id = pets (live s) !! pet_id).
Proof.
  intros Hrun Hlost.
  destruct (execute_raid_ok _ _ _ _ _ _ _ _ _ _ _ Hrun)
    as (s1 & s2 & attacker & defender & Hcan & _ & _ & _ & _ & _ & _ & Hpets & _ & _ & _
        & Hstage).
  pose proof (TransferFacts.can_raid_target_pets s a d now) as Hsame.
  rewrite Hcan in Hsame. cbn [fst] in Hsame.
  destruct Hstage as [(Hwin & _) | (_ & Hnone & ->)]; [congruence |].
  split; [exact Hnone |].
  split.
  - intros pet_id pet Hin Hpet Hown.
    rewrite Hpets, fatigue_all_pets, decide_True, Hsame, Hpet; [reflexivity |].
    apply elem_of_attacker_pets. rewrite Hsame. eauto.
  - intros pet_id Hnot.
    rewrite Hpets, fatigue_all_pets, decide_False, Hsame; [reflexivity |].
    rewrite elem_of_attacker_pets, Hsame. intros (Hin & pet & Hpet & Hown).
    destruct Hnot as [Hnin | Hother]; [contradiction | exact (Hother pet Hpet Hown)].
Qed.

Lemma lost_raid_tires_the_attackers_witness :
  let s := Examples.open_session in
  let s' := fst (execute_raid s 1 2 [10] 10000 0 (99 # 100) 0 0) in
  stolen_pet (Outcome false 250 250 None) = None
  /\ (forall pet_id pet,
        pet_id ∈ [10] ->
        pets (live s) !! pet_id = Some pet ->
        Pet.owner_id pet = 1 ->
        pets (live s') !! pet_id
        = Some (Pet.set_fatigue_until (Some (10000 + 2 * 3600)) pet))
  /\ (forall pet_id,
        (pet_id ∉ [10]
         \/ forall pet, pets (live s) !! pet_id = Some pet -> Pet.owner_id pet <> 1) ->
        pets (live s') !! pet_id = pets (live s) !! pet_id).
Proof.
  apply (lost_raid_tires_the_attackers Examples.open_session _ 1 2 [10] 10000
           0 (99 # 100) 0 0 (Outcome false 250 250 None)).
  - vm_compute. reflexivity.
  - reflexivity.
Defined.

Lemma sum_from (xs : list Z) : forall a, fold_left Z.add xs a = a + Py.sum xs.
Proof.
  unfold Py.sum. induction xs as [| x xs IH]; intros a; cbn [fold_left]; [lia |].
  rewrite IH, (IH (0 + x)). lia.
Qed.

Lemma sum_app (xs ys : list Z) : Py.sum (xs ++ ys) = Py.sum xs + Py.sum ys.
Proof. unfold Py.sum at 1. rewrite fold_left_app. fold (Py.sum xs). apply sum_from. Qed.

(** X17. The attack power is counted per listed id, not per pet: the power
    of a raid with two lists of ids put together is the sum of the powers
    of the raids with either list, so a pet listed twice counts twice. *)
Theorem attack_power_adds_up
    (s : Session) (a d : Z) (ids1 ids2 : list Z) (now : Z)
    (offset draw : Q) (pick : nat) (ld : Q)
    (s1 s2 s12 : Session) (o1 o2 o12 : outcome) :
  execute_raid s a d ids1 now offset draw pick ld = (s1, Py.Ok o1) ->
  execute_raid s a d ids2 now offset draw pick ld = (s2, Py.Ok o2) ->
  execute_raid s a d (ids1 ++ ids2) now offset draw pick ld = (s12, Py.Ok o12) ->
  attack_power o12 = attack_power o1 + attack_power o2.
Proof.
  intros H1 H2 H12.
  destruct (execute_raid_ok _ _ _ _ _ _ _ _ _ _ _ H1)
    as (t1 & _ & _ & _ & Hcan1 & _ & _ & _ & _ & _ & _ & _ & _ & Hp1 & _).
  destruct (execute_raid_ok _ _ _ _ _ _ _ _ _ _ _ H2)
    as (t2 & _ & _ & _ & Hcan2 & _ & _ & _ & _ & _ & _ & _ & _ & Hp2 & _).
  destruct (execute_raid_ok _ _ _ _ _ _ _ _ _ _ _ H12)
    as (t12 & _ & _ & _ & Hcan12 & _ & _ & _ & _ & _ & _ & _ & _ & Hp12 & _).
  rewrite Hcan1 in Hcan2, Hcan12.
  injection Hcan2 as <-. injection Hcan12 as <-.
  rewrite Hp12, Hp1, Hp2. unfold attacker_pets.
  rewrite flat_map_app, map_app. apply sum_app.
Qed.

Lemma attack_power_adds_up_witness :
  attack_power (Outcome true 500 250 (Some 20))
  = attack_power (Outcome true 250 250 (Some 20))
    + attack_power (Outcome true 250 250 (Some 20)).
Proof.
  apply (attack_power_adds_up Examples.open_session 1 2 [10] [10] 10000
           0 (1 # 100) 0 0
           (fst (execute_raid Examples.open_session 1 2 [10] 10000 0 (1 # 100) 0 0))
           (fst (execute_raid Examples.open_session 1 2 [10] 10000 0 (1 # 100) 0 0))
           (fst (execute_raid Examples.open_session 1 2 [10; 10] 10000 0 (1 # 100) 0 0))).
  - vm_compute. reflexivity.
  - vm_compute. reflexivity.
  - vm_compute. reflexivity.
Defined.

(** *** Traps *)

Lemma sum_permutation (xs ys : list Z) : xs ≡ₚ ys -> Py.sum xs = Py.sum ys.
Proof.
  induction 1 as [| x xs ys _ IH | x y xs | xs ys zs _ IH1 _ IH2].
  - reflexivity.
  - change (x :: xs) with ([x] ++ xs)%list. change (x :: ys) with ([x] ++ ys)%list.
    rewrite !sum_app, IH. reflexivity.
  - change (y :: x :: xs) with ([y] ++ [x] ++ xs)%list.
    change (x :: y :: xs) with ([x] ++ [y] ++ xs)%list.
    rewrite !sum_app. lia.
  - congruence.
Qed.

(** The trap loop of [calculate_total_defense_power] adds up the bonuses. *)
Lemma trap_loop (items : list (string * Z)) : forall total_power,
  fold_left
    (fun total_power item =>
       let '(trap_type, level) := item in
       let bonus :=
         match get TRAP_TYPES trap_type with
         | Some trap_data => defense_bonus trap_data
         | None => 0
         end * level in
       total_power + bonus)
    items total_power
  = total_power + Py.sum (List.map trap_bonus items).
Proof.
  induction items as [| [t l] items IH]; intros total_power; cbn [fold_left List.map].
  - unfold Py.sum. cbn. lia.
  - rewrite IH. change (trap_bonus (t, l) :: List.map trap_bonus items)
      with ([trap_bonus (t, l)] ++ List.map trap_bonus items)%list.
    rewrite sum_app. unfold trap_bonus at 2. unfold Py.sum at 2. cbn [fold_left].
    generalize (match get TRAP_TYPES t with
                | Some trap_data => defense_bonus trap_data
                | None => 0
                end * l).
    intros bonus. lia.
Qed.

Lemma sum_cons (x : Z) (xs : list Z) : Py.sum (x :: xs) = x + Py.sum xs.
Proof. apply (sum_app [x] xs). Qed.

(** The bonuses of a trap table after one trap went up a level. *)
Lemma trap_bonus_upgrade (traps : gmap string Z) trap_type trap_data :
  get TRAP_TYPES trap_type = Some trap_data ->
  Py.sum (List.map trap_bonus
            (map_to_list (<[trap_type := default 0 (traps !! trap_type) + 1]> traps)))
  = Py.sum (List.map trap_bonus (map_to_list traps)) + defense_bonus trap_data.
Proof.
  intros Hty.
  assert (Hnew : map_to_list (<[trap_type := default 0 (traps !! trap_type) + 1]> traps)
                 ≡ₚ (trap_type, default 0 (traps !! trap_type) + 1)
                      :: map_to_list (delete trap_type traps)).
  { rewrite <- insert_delete_eq. apply map_to_list_insert, lookup_delete_eq. }
  rewrite (sum_permutation _ _ (Permutation_map trap_bonus Hnew)).
  cbn [List.map]. rewrite sum_cons.
  assert (Hbonus : forall level, trap_bonus (trap_type, level)
                                 = defense_bonus trap_data * level).
  { intros level. unfold trap_bonus. rewrite Hty. reflexivity. }
  rewrite Hbonus.
  destruct (traps !! trap_type) as [level |] eqn:Hlevel; cbn [default id].
  - assert (Hold : map_to_list traps
                   ≡ₚ (trap_type, level) :: map_to_list (delete trap_type traps)).
    { symmetry. apply map_to_list_delete, Hlevel. }
    rewrite (sum_permutation _ _ (Permutation_map trap_bonus Hold)).
    cbn [List.map]. rewrite sum_cons, Hbonus. lia.
  - rewrite delete_id by exact Hlevel. lia.
Qed.

(** X18. A player who can pay the price of the next level of a trap gets
    it: the price, the base cost times the new level, is deducted, the trap
    is one level higher, and the player's total defense power grows by
    exactly the defense bonus of the trap. *)
Theorem buy_trap_strengthens_defense
    (s : Session) (user_id : Z) (trap_type : string) (trap_data : trap_data)
    (user : User.t) :
  get TRAP_TYPES trap_type = Some trap_data ->
  users (live s) !! user_id = Some user ->
  let level := default 0 (User.traps user !! trap_type) in
  cost trap_data * (level + 1) <= User.coins user ->
  exists s',
    buy_trap s user_id trap_type = (s', Py.Ok true)
    /\ users (live s') !! user_id
       = Some (User.set_traps (<[trap_type := level + 1]> (User.traps user))
                 (User.set_coins (User.coins user - cost trap_data * (level + 1)) user))
    /\ calculate_total_defense_power s' user_id
       = calculate_total_defense_power s user_id + defense_bonus trap_data
    /\ persisted s' = live s'.
Proof.
  intros Hty Huser level Hpay. unfold buy_trap. rewrite Hty, Huser.
  fold level.
  replace (User.coins user <? cost trap_data * (level + 1)) with false
    by (symmetry; apply Z.ltb_ge; exact Hpay).
  eexists. split; [reflexivity |].
  split; [cbn; apply lookup_insert_eq |].
  split; [| reflexivity].
  unfold calculate_total_defense_power, select_pets.
  cbn [commit write_user live pets users set_users].
  rewrite lookup_insert_eq, Huser. cbn [User.traps User.set_traps User.set_coins].
  rewrite !trap_loop. subst level.
  rewrite (trap_bonus_upgrade (User.traps user) trap_type trap_data Hty). lia.
Qed.

Lemma buy_trap_strengthens_defense_witness :
  let s := Examples.open_session in
  let user := Examples.user 5 None None in
  let level := default 0 (User.traps user !! "alarm") in
  exists s',
    buy_trap s 1 "alarm" = (s', Py.Ok true)
    /\ users (live s') !! 1
       = Some (User.set_traps (<["alarm" := level + 1]> (User.traps user))
                 (User.set_coins (User.coins user - cost (TrapData 500 15) * (level + 1))
                    user))
    /\ calculate_total_defense_power s' 1
       = calculate_total_defense_power s 1 + defense_bonus (TrapData 500 15)
    /\ persisted s' = live s'.
Proof.
  apply (buy_trap_strengthens_defense Examples.open_session 1 "alarm" (TrapData 500 15)
           (Examples.user 5 None None)).
  - reflexivity.
  - vm_compute. reflexivity.
  - vm_compute. discriminate.
Defined.

(** X19. Free raids do not come back with the new day: when the
    attacker's last reset was on an earlier calendar day, the eligibility
    check raises [AttributeError] before it writes anything, and so does
    a raid; the session is what it was, so the same holds at every later
    instant. *)
Theorem new_day_reset_raises
    (s : Session) (a d now : Z) (attacker : User.t) (last : Z)
    (ids : list Z) (offset draw : Q) (pick : nat) (ld : Q) :
  a <> d ->
  users (live s) !! a = Some attacker ->
  User.last_raid_reset attacker = Some last ->
  date last < date now ->
  can_raid_target s a d now = (s, Py.Raise Py.AttributeError)
  /\ execute_raid s a d ids now offset draw pick ld = (s, Py.Raise Py.AttributeError).
Proof.
  intros Hne Ha Hlast Hday.
  assert (Hcan : can_raid_target s a d now = (s, Py.Raise Py.AttributeError)).
  { unfold can_raid_target.
    replace (a =? d) with false by (symmetry; apply Z.eqb_neq; exact Hne).
    rewrite Ha. unfold reset_daily_raids. rewrite Hlast.
    replace (date last <? date now) with true by (symmetry; apply Z.ltb_lt; exact Hday).
    reflexivity. }
  split; [exact Hcan |].
  unfold execute_raid. rewrite Hcan. reflexivity.
Qed.

(** Player 2 last reset on day 0; 100000 is on day 1. *)
Lemma new_day_reset_raises_witness :
  let s := Examples.open_session in
  can_raid_target s 2 1 100000 = (s, Py.Raise Py.AttributeError)
  /\ execute_raid s 2 1 [20; 21] 100000 0 0 0 0 = (s, Py.Raise Py.AttributeError).
Proof.
  apply (new_day_reset_raises Examples.open_session 2 1 100000
           (Examples.user 5 (Some 0) None) 0 [20; 21] 0 0 0%nat 0).
  - discriminate.
  - vm_compute. reflexivity.
  - reflexivity.
  - vm_compute. reflexivity.
Defined.

End RaidRules.

(** ** Collections and the pets on offer *)

Module CollectionRules.
Import GameConstants PetService MissionService RaidService.

Lemma filter_length_permutation {A} (f : A -> bool) (xs ys : list A) :
  xs ≡ₚ ys -> length (List.filter f xs) = length (List.filter f ys).
Proof.
  induction 1 as [| x xs ys _ IH | x y xs | xs ys zs _ IH1 _ IH2]; cbn [List.filter].
  - reflexivity.
  - destruct (f x); cbn [length]; congruence.
  - destruct (f x), (f y); reflexivity.
  - congruence.
Qed.

(** Writing one row adds at most one row to any selection. *)
Lemma filter_length_insert {A} (f : Z * A -> bool) (m : gmap Z A) k v :
  (length (List.filter f (map_to_list (<[k := v]> m)))
   <= length (List.filter f (map_to_list m)) + 1)%nat.
Proof.
  assert (Hnew : map_to_list (<[k := v]> m) ≡ₚ (k, v) :: map_to_list (delete k m)).
  { rewrite <- insert_delete_eq. apply map_to_list_insert, lookup_delete_eq. }
  rewrite (filter_length_permutation f _ _ Hnew). cbn [List.filter].
  assert (Hdel : (length (List.filter f (map_to_list (delete k m)))
                  <= length (List.filter f (map_to_list m)))%nat).
  { destruct (m !! k) as [x |] eqn:Hk.
    - rewrite <- (filter_length_permutation f _ _ (map_to_list_delete m k x Hk)).
      cbn [List.filter]. destruct (f (k, x)); cbn [length]; lia.
    - rewrite delete_id by exact Hk. lia. }
  destruct (f (k, v)); cbn [length]; lia.
Qed.

(** X20. A transfer never fills more slots than the recipient has: after a
    transfer that succeeded, the recipient's pets are at most as many as
    the recipient's pet slots. *)
Theorem transfer_pet_respects_slots
    (s s' : Session) (pet_id new_owner_id : Z) (reason : string) (new_owner : User.t) :
  users (live s) !! new_owner_id = Some new_owner ->
  transfer_pet s pet_id new_owner_id reason = (s', true) ->
  Z.of_nat (length (select_pets s' (fun p => Pet.owner_id p =? new_owner_id)))
  <= User.pet_slots new_owner.
Proof.
  intros Howner. unfold transfer_pet. rewrite Howner.
  destruct (User.pet_slots new_owner <=? _) eqn:Eslots; [discriminate |].
  apply Z.leb_gt in Eslots.
  destruct (pets (live s) !! pet_id) as [pet |]; [| discriminate].
  intros Hrun. injection Hrun as <-.
  unfold select_pets in *. cbn [commit write_pet live pets set_pets].
  match goal with
  | |- context [List.filter ?f (map_to_list (<[pet_id := ?v]> _))] =>
      pose proof (filter_length_insert f (pets (live s)) pet_id v) as Hcount
  end.
  lia.
Qed.

Lemma transfer_pet_respects_slots_witness :
  Z.of_nat (length (select_pets (fst (transfer_pet Examples.open_session 20 1 "trade"))
                      (fun p => Pet.owner_id p =? 1)))
  <= User.pet_slots (Examples.user 5 None None).
Proof.
  apply (transfer_pet_respects_slots Examples.open_session _ 20 1 "trade"
           (Examples.user 5 None None)).
  - vm_compute. reflexivity.
  - vm_compute. reflexivity.
Defined.

(** The order of the rows does not change which rows there are. *)
Lemma elem_of_order_by_power (rows : list (Z * Pet.t)) row :
  row ∈ merge_sort by_power_desc rows <-> row ∈ rows.
Proof. rewrite merge_sort_Permutation. reflexivity. Qed.

Lemma elem_of_available_for_mission s user_id now pet_id pet :
  (pet_id, pet) ∈ get_available_pets_for_mission s user_id now
  <-> pets (live s) !! pet_id = Some pet
      /\ Pet.owner_id pet = user_id
      /\ Pet.is_on_mission pet = false
      /\ Pet.is_defending pet = false
      /\ rested pet now = true.
Proof.
  unfold get_available_pets_for_mission.
  rewrite elem_of_order_by_power, TransferFacts.elem_of_select_pets.
  rewrite !andb_true_iff, !negb_true_iff, Z.eqb_eq. tauto.
Qed.

(** X21. Every pet that [get_available_pets_for_mission] offers belongs to
    the player and can be sent at once, and at any later instant, on any
    mission of the table. *)
Theorem available_pets_can_start
    (s : Session) (user_id now : Z) (pet_id : Z) (pet : Pet.t)
    (mission_type : string) (mission_data : mission_data) (now' : Z) :
  (pet_id, pet) ∈ get_available_pets_for_mission s user_id now ->
  get MISSION_TYPES mission_type = Some mission_data ->
  now <= now' ->
  Pet.owner_id pet = user_id
  /\ exists s' mission_id,
       start_mission s pet_id mission_type now' = (s', Py.Ok mission_id).
Proof.
  intros Hin Hty Hlater.
  apply elem_of_available_for_mission in Hin as (Hpet & Hown & Hfree & Hidle & Hrest).
  split; [exact Hown |].
  apply (MissionRules.start_mission_accepts s pet_id mission_type now' pet mission_data);
    auto.
  intros f Hf. unfold rested in Hrest. rewrite Hf in Hrest.
  apply Z.ltb_lt in Hrest. lia.
Qed.

Lemma available_pets_can_start_witness :
  Pet.owner_id (Examples.pet 1 "Rare" false false None) = 1
  /\ exists s' mission_id,
       start_mission Examples.open_session 10 "long" 2000 = (s', Py.Ok mission_id).
Proof.
  apply (available_pets_can_start Examples.open_session 1 1000 10
           (Examples.pet 1 "Rare" false false None) "long"
           (MissionData 28800 800 300 (25 # 100)) 2000).
  - vm_compute. apply list_elem_of_here.
  - reflexivity.
  - lia.
Defined.

(** X22. Conversely, a pet of the player that [start_mission] accepts is
    on offer at that instant, with one exception: a pet whose fatigue ends
    exactly at that instant is accepted by [start_mission] but not yet
    offered. *)
Theorem startable_pets_are_available
    (s s' : Session) (user_id now : Z) (pet_id : Z) (pet : Pet.t)
    (mission_type : string) (mission_id : Z) :
  pets (live s) !! pet_id = Some pet ->
  Pet.owner_id pet = user_id ->
  start_mission s pet_id mission_type now = (s', Py.Ok mission_id) ->
  (pet_id, pet) ∈ get_available_pets_for_mission s user_id now
  \/ Pet.fatigue_until pet = Some now.
Proof.
  intros Hpet Hown. unfold start_mission. rewrite Hpet.
  destruct (Pet.is_on_mission pet) eqn:Hfree; [discriminate |].
  destruct (Pet.is_defending pet) eqn:Hidle; [discriminate |].
  destruct (Pet.fatigue_until pet) as [f |] eqn:Hf.
  - destruct (now <? f) eqn:Htired; [discriminate |]. intros _.
    apply Z.ltb_ge in Htired.
    destruct (decide (f = now)) as [-> | Hne]; [right; reflexivity |].
    left. apply elem_of_available_for_mission. unfold rested. rewrite Hf.
    repeat split; auto. apply Z.ltb_lt. lia.
  - intros _. left. apply elem_of_available_for_mission. unfold rested. rewrite Hf.
    repeat split; auto.
Qed.

Lemma startable_pets_are_available_witness :
  (10, Examples.pet 1 "Rare" false false None)
    ∈ get_available_pets_for_mission Examples.open_session 1 1000
  \/ Pet.fatigue_until (Examples.pet 1 "Rare" false false None) = Some 1000.
Proof.
  apply (startable_pets_are_available Examples.open_session
           (fst (start_mission Examples.open_session 10 "quick" 1000)) 1 1000 10
           (Examples.pet 1 "Rare" false false None) "quick"
           (new_mission_id Examples.open_session)).
  - vm_compute. reflexivity.
  - reflexivity.
  - vm_compute. reflexivity.
Defined.

Lemma by_power_desc_total : Total by_power_desc.
Proof. intros row1 row2. unfold by_power_desc. lia. Qed.

Lemma by_power_desc_transitive : Transitive by_power_desc.
Proof. intros row1 row2 row3. unfold by_power_desc. lia. Qed.

Lemma order_by_power_sorted (rows : list (Z * Pet.t)) :
  StronglySorted by_power_desc (merge_sort by_power_desc rows).
Proof.
  apply (@Sorted_StronglySorted _ _ by_power_desc_transitive).
  apply (@Sorted_merge_sort _ _ _ by_power_desc_total).
Qed.

(** Listing the keys of rows of the attacker's own pets gives back the
    rows. *)
Lemma attacker_pets_of_own (s : Session) (a : Z) (rows : list (Z * Pet.t)) :
  (forall k p, (k, p) ∈ rows -> pets (live s) !! k = Some p /\ Pet.owner_id p = a) ->
  attacker_pets s a rows.*1 = rows.
Proof.
  unfold attacker_pets. induction rows as [| [k p] rows IH]; intros Hrows;
    [reflexivity |].
  cbn [fmap list_fmap fst flat_map].
  destruct (Hrows k p (list_elem_of_here _ _)) as [Hk Hown].
  rewrite Hk. replace (Pet.owner_id p =? a) with true
    by (symmetry; apply Z.eqb_eq; exact Hown).
  cbn [app]. f_equal. apply IH. intros k' p' Hin. apply Hrows.
  apply list_elem_of_further, Hin.
Qed.

(** X23. The pets offered for a raid: at most [max_count] of them, each
    listed once, each a rested pet of the player that is not on a mission;
    they are the strongest such pets, no pet left out has more power than
    one offered; and a raid launched with exactly the pets offered counts
    every one of them, once. *)
Theorem raid_offer_is_the_strongest
    (s : Session) (user_id max_count now : Z) :
  0 <= max_count ->
  let offer := get_available_pets_for_raid s user_id max_count now in
  Z.of_nat (length offer) <= max_count
  /\ NoDup offer.*1
  /\ (forall pet_id pet,
        (pet_id, pet) ∈ offer ->
        pets (live s) !! pet_id = Some pet
        /\ Pet.owner_id pet = user_id
        /\ Pet.is_on_mission pet = false
        /\ rested pet now = true)
  /\ (forall pet_id pet pet_id' pet',
        (pet_id, pet) ∈ offer ->
        pets (live s) !! pet_id' = Some pet' ->
        Pet.owner_id pet' = user_id ->
        Pet.is_on_mission pet' = false ->
        rested pet' now = true ->
        (pet_id', pet') ∉ offer ->
        Pet.power pet' <= Pet.power pet)
  /\ attacker_pets s user_id offer.*1 = offer.
Proof.
  intros Hmax. cbv zeta. unfold get_available_pets_for_raid.
  set (cond := fun p : Pet.t => (Pet.owner_id p =? user_id)
                                && negb (Pet.is_on_mission p) && rested p now).
  set (sorted := merge_sort by_power_desc (select_pets s cond)).
  assert (Hsorted : forall k p,
             (k, p) ∈ sorted
             <-> pets (live s) !! k = Some p /\ Pet.owner_id p = user_id
                 /\ Pet.is_on_mission p = false /\ rested p now = true).
  { intros k p. subst sorted cond.
    rewrite elem_of_order_by_power, TransferFacts.elem_of_select_pets.
    rewrite !andb_true_iff, !negb_true_iff, Z.eqb_eq. tauto. }
  assert (Htake : forall row, row ∈ take (Z.to_nat max_count) sorted -> row ∈ sorted).
  { intros row Hin. rewrite <- (take_drop (Z.to_nat max_count) sorted).
    apply elem_of_app. left. exact Hin. }
  split; [rewrite length_take; lia |].
  split.
  { rewrite fmap_take.
    assert (Hnodup : NoDup sorted.*1).
    { subst sorted. rewrite merge_sort_Permutation.
      apply TransferFacts.NoDup_fst_select_pets. }
    rewrite <- (take_drop (Z.to_nat max_count) sorted.*1) in Hnodup.
    apply NoDup_app in Hnodup as (Hnodup & _). exact Hnodup. }
  split; [intros k p Hin; apply Hsorted, Htake, Hin |].
  split.
  - intros k p k' p' Hin Hk' Hown' Hfree' Hrest' Hout.
    assert (Hin' : (k', p') ∈ sorted) by (apply Hsorted; auto).
    rewrite <- (take_drop (Z.to_nat max_count) sorted) in Hin'.
    apply elem_of_app in Hin' as [Hin' | Hin']; [contradiction |].
    pose proof (order_by_power_sorted (select_pets s cond)) as Hss.
    fold sorted in Hss.
    rewrite <- (take_drop (Z.to_nat max_count) sorted) in Hss.
    exact (StronglySorted_app_1_elem_of _ _ _ _ _ Hss Hin Hin').
  - apply attacker_pets_of_own. intros k p Hin.
    apply Htake, Hsorted in Hin. tauto.
Qed.

Lemma raid_offer_is_the_strongest_witness :
  let s := Examples.open_session in
  let offer := get_available_pets_for_raid s 2 1 1000 in
  Z.of_nat (length offer) <= 1
  /\ NoDup offer.*1
  /\ (forall pet_id pet,
        (pet_id, pet) ∈ offer ->
        pets (live s) !! pet_id = Some pet
        /\ Pet.owner_id pet = 2
        /\ Pet.is_on_mission pet = false
        /\ rested pet 1000 = true)
  /\ (forall pet_id pet pet_id' pet',
        (pet_id, pet) ∈ offer ->
        pets (live s) !! pet_id' = Some pet' ->
        Pet.owner_id pet' = 2 ->
        Pet.is_on_mission pet' = false ->
        rested pet' 1000 = true ->
        (pet_id', pet') ∉ offer ->
        Pet.power pet' <= Pet.power pet)
  /\ attacker_pets s 2 offer.*1 = offer.
Proof.
  apply (raid_offer_is_the_strongest Examples.open_session 2 1 1000). lia.
Defined.

End CollectionRules.

(** ** One active mission per pet *)

Module MissionInvariant.
Import GameConstants MissionService Bot.

(** The check decides the invariant. *)
Lemma check_missions_sound st :
  check_missions st = true -> one_active_mission_per_pet st.
Proof.
  unfold check_missions. rewrite forallb_forall. intros Hcheck. split.
  - intros mid m Hm Hact.
    specialize (Hcheck (mid, m)). cbn [fst snd] in Hcheck.
    rewrite Hact in Hcheck. cbn [negb orb] in Hcheck.
    assert (Hin : In (mid, m) (map_to_list (missions st)))
      by (apply list_elem_of_In, elem_of_map_to_list, Hm).
    apply Hcheck, andb_prop in Hin as [Hpet _].
    destruct (pets st !! Mission.pet_id m) as [pet |]; [eauto | discriminate].
  - intros mid1 mid2 m1 m2 Hm1 Hm2 Hact1 Hact2 Hsame.
    specialize (Hcheck (mid2, m2)). cbn [fst snd] in Hcheck.
    rewrite Hact2 in Hcheck. cbn [negb orb] in Hcheck.
    assert (Hin : In (mid2, m2) (map_to_list (missions st)))
      by (apply list_elem_of_In, elem_of_map_to_list, Hm2).
    apply Hcheck, andb_prop in Hin as [_ Hall].
    rewrite forallb_forall in Hall.
    specialize (Hall (mid1, m1)). cbn [fst snd] in Hall.
    rewrite Hact1, Hsame, Z.eqb_refl in Hall. cbn [negb orb] in Hall.
    apply Z.eqb_eq, Hall, list_elem_of_In, elem_of_map_to_list, Hm1.
Qed.

Lemma busy_refl s : keeps_busy s s.
Proof. intros k p Hk Hbusy. eauto. Qed.

Lemma busy_trans s1 s2 s3 : keeps_busy s1 s2 -> keeps_busy s2 s3 -> keeps_busy s1 s3.
Proof.
  intros H12 H23 k p Hk Hbusy.
  destruct (H12 k p Hk Hbusy) as (p2 & Hk2 & Hbusy2). eauto.
Qed.

Lemma busy_same_pets s s' : pets (live s') = pets (live s) -> keeps_busy s s'.
Proof. intros Heq k p Hk Hbusy. rewrite Heq. eauto. Qed.

(** Writing a row keeps the busy pets busy if it does not free one. *)
Lemma busy_write_pet s k p' :
  (forall p, pets (live s) !! k = Some p ->
             Pet.is_on_mission p = true -> Pet.is_on_mission p' = true) ->
  keeps_busy s (write_pet k p' s).
Proof.
  intros Hkeep j p Hj Hbusy. cbn.
  destruct (decide (k = j)) as [-> | Hne].
  - rewrite lookup_insert_eq. eauto.
  - rewrite lookup_insert_ne by exact Hne. eauto.
Qed.

(** A step that neither activates a mission nor moves one to another pet,
    and keeps the busy pets busy, keeps the invariant. *)
Lemma invariant_kept st s s' :
  one_active_mission_per_pet (live s) ->
  (forall k m',
      missions (live s') !! k = Some m' ->
      is_active m' = true ->
      exists m, missions (live s) !! k = Some m
                /\ is_active m = true
                /\ Mission.pet_id m = Mission.pet_id m') ->
  keeps_busy s s' ->
  st = live s' ->
  one_active_mission_per_pet st.
Proof.
  intros [Hpets Huniq] Hold Hbusy ->. split.
  - intros k m' Hk Hact.
    destruct (Hold k m' Hk Hact) as (m & Hm & Hactm & Hsame).
    destruct (Hpets k m Hm Hactm) as (p & Hp & Hflag).
    rewrite <- Hsame. exact (Hbusy _ p Hp Hflag).
  - intros k1 k2 m1' m2' Hk1 Hk2 Hact1 Hact2 Hsame.
    destruct (Hold k1 m1' Hk1 Hact1) as (m1 & Hm1 & Hactm1 & Hsame1).
    destruct (Hold k2 m2' Hk2 Hact2) as (m2 & Hm2 & Hactm2 & Hsame2).
    apply (Huniq k1 k2 m1 m2); congruence.
Qed.

Lemma invariant_neutral s s' :
  one_active_mission_per_pet (live s) ->
  missions (live s') = missions (live s) ->
  keeps_busy s s' ->
  one_active_mission_per_pet (live s').
Proof.
  intros Hinv Hsame Hbusy.
  apply (invariant_kept _ s s' Hinv); [| exact Hbusy | reflexivity].
  intros k m' Hk Hact. rewrite Hsame in Hk. eauto.
Qed.

(** Retiring an active mission may free its pet, and no other. *)
Lemma invariant_retire s s' mission_id mission status :
  one_active_mission_per_pet (live s) ->
  missions (live s) !! mission_id = Some mission ->
  is_active mission = true ->
  status <> "active" ->
  missions (live s') = <[mission_id := Mission.set_status status mission]> (missions (live s)) ->
  (forall k, k <> Mission.pet_id mission -> pets (live s') !! k = pets (live s) !! k) ->
  one_active_mission_per_pet (live s').
Proof.
  intros [Hpets Huniq] Hm Hact Hstatus Hmissions Hother.
  assert (Hold : forall k m',
             missions (live s') !! k = Some m' -> is_active m' = true ->
             k <> mission_id /\ missions (live s) !! k = Some m').
  { intros k m' Hk Hact'. rewrite Hmissions in Hk.
    destruct (decide (k = mission_id)) as [-> | Hne].
    - rewrite lookup_insert_eq in Hk. injection Hk as <-.
      unfold is_active in Hact'. cbn in Hact'. apply String.eqb_eq in Hact'.
      contradiction.
    - rewrite lookup_insert_ne in Hk by congruence. auto. }
  split.
  - intros k m' Hk Hact'. destruct (Hold k m' Hk Hact') as [Hne Hk0].
    destruct (Hpets k m' Hk0 Hact') as (p & Hp & Hflag).
    exists p. split; [| exact Hflag].
    rewrite Hother; [exact Hp |].
    intros Hsame. apply Hne. apply (Huniq k mission_id m' mission); auto.
  - intros k1 k2 m1 m2 Hk1 Hk2 Hact1 Hact2 Hsame.
    destruct (Hold k1 m1 Hk1 Hact1) as [_ Hk1'].
    destruct (Hold k2 m2 Hk2 Hact2) as [_ Hk2'].
    apply (Huniq k1 k2 m1 m2); auto.
Qed.

Lemma invariant_start_mission s pet_id mission_type now :
  one_active_mission_per_pet (live s) ->
  one_active_mission_per_pet (live (fst (start_mission s pet_id mission_type now))).
Proof.
  intros Hinv. pose proof Hinv as [Hpets Huniq]. unfold start_mission.
  destruct (pets (live s) !! pet_id) as [pet |] eqn:Hpet; [| exact Hinv].
  destruct (Pet.is_on_mission pet) eqn:Hfree; [exact Hinv |].
  destruct (Pet.is_defending pet); [exact Hinv |].
  destruct (match Pet.fatigue_until pet with Some _ => _ | None => _ end); [exact Hinv |].
  destruct (get MISSION_TYPES mission_type) as [md |]; [| exact Hinv].
  destruct (PetGenerator.generate_mission_rewards _ _ _) as [[coins exp] |]; [| exact Hinv].
  cbn [fst commit write_pet write_mission live pets missions set_pets set_missions].
  set (mid := new_mission_id s).
  assert (Hfresh : missions (live s) !! mid = None).
  { apply not_elem_of_dom. intros Hin.
    apply (is_fresh (dom (missions (live s)) ∪ dom (missions (persisted s)))).
    apply elem_of_union_l, Hin. }
  assert (Hidle : forall k m, missions (live s) !! k = Some m -> is_active m = true ->
                              Mission.pet_id m <> pet_id).
  { intros k m Hk Hact Hsame. destruct (Hpets k m Hk Hact) as (p & Hp & Hflag).
    rewrite Hsame, Hpet in Hp. injection Hp as <-. congruence. }
  split.
  - intros k m Hk Hact. cbn [missions pets live set_missions set_pets] in Hk |- *.
    destruct (decide (k = mid)) as [-> | Hne].
    + rewrite lookup_insert_eq in Hk. injection Hk as <-. cbn.
      rewrite lookup_insert_eq. eauto.
    + rewrite lookup_insert_ne in Hk by congruence.
      destruct (Hpets k m Hk Hact) as (p & Hp & Hflag).
      rewrite lookup_insert_ne by (intros Heq; apply (Hidle k m Hk Hact); auto).
      eauto.
  - intros k1 k2 m1 m2 Hk1 Hk2 Hact1 Hact2 Hsame.
    cbn [missions pets live set_missions set_pets] in Hk1, Hk2.
    destruct (decide (k1 = mid)) as [-> | Hne1];
      destruct (decide (k2 = mid)) as [-> | Hne2]; [reflexivity | | |].
    + rewrite lookup_insert_eq in Hk1. injection Hk1 as <-.
      rewrite lookup_insert_ne in Hk2 by congruence.
      exfalso. apply (Hidle k2 m2 Hk2 Hact2). symmetry. exact Hsame.
    + rewrite lookup_insert_eq in Hk2. injection Hk2 as <-.
      rewrite lookup_insert_ne in Hk1 by congruence.
      exfalso. apply (Hidle k1 m1 Hk1 Hact1). exact Hsame.
    + rewrite lookup_insert_ne in Hk1, Hk2 by congruence.
      apply (Huniq k1 k2 m1 m2); auto.
Qed.

Lemma invariant_complete_mission s mission_id now draw :
  one_active_mission_per_pet (live s) ->
  one_active_mission_per_pet (live (fst (complete_mission s mission_id now draw))).
Proof.
  intros Hinv. unfold complete_mission.
  destruct (missions (live s) !! mission_id) as [mission |] eqn:Hm; [| exact Hinv].
  destruct (negb (is_active mission)) eqn:Hact; [exact Hinv |].
  apply negb_false_iff in Hact.
  destruct (now <? _); [exact Hinv |].
  destruct (pets (live s) !! Mission.pet_id mission) as [pet |] eqn:Hpet; [| exact Hinv].
  destruct (PetGenerator.calculate_mission_success_chance _ _ _) as [chance |];
    [| exact Hinv].
  destruct (Qlt_le_dec draw chance);
    (destruct (users (live s) !! Mission.user_id mission) as [user |]; [| exact Hinv]).
  - unfold PetService.add_exp_to_pet. cbn [write_user live pets set_users].
    rewrite Hpet. cbv zeta.
    destruct (PetGenerator.can_level_up _ _).
    { cbn [fst]. apply (invariant_neutral s _ Hinv); [reflexivity |].
      match goal with
      | |- keeps_busy s (write_pet _ _ ?s1) =>
          apply (busy_trans s s1); [apply busy_same_pets; reflexivity |]
      end.
      apply busy_write_pet.
      intros p Hp Hbusy. cbn in Hp. rewrite Hpet in Hp. injection Hp as <-.
      exact Hbusy. }
    unfold update_pet.
    cbn [fst commit write_pet write_mission live pets set_pets set_missions].
    rewrite lookup_insert_eq.
    apply (invariant_retire s _ mission_id mission "completed" Hinv Hm Hact);
      [discriminate | reflexivity |].
    intros k Hk. cbn. rewrite !lookup_insert_ne by congruence. reflexivity.
  - unfold update_pet. cbn [write_user live pets set_users]. rewrite Hpet.
    cbn [fst commit write_pet write_mission live pets set_pets set_missions].
    rewrite lookup_insert_eq.
    apply (invariant_retire s _ mission_id mission "failed" Hinv Hm Hact);
      [discriminate | reflexivity |].
    intros k Hk. cbn. rewrite !lookup_insert_ne by congruence. reflexivity.
Qed.

Lemma invariant_cancel_mission s mission_id now :
  one_active_mission_per_pet (live s) ->
  one_active_mission_per_pet (live (fst (cancel_mission s mission_id now))).
Proof.
  intros Hinv. unfold cancel_mission.
  destruct (missions (live s) !! mission_id) as [mission |] eqn:Hm; [| exact Hinv].
  destruct (negb (is_active mission)) eqn:Hact; [exact Hinv |].
  apply negb_false_iff in Hact. cbn [fst].
  apply (invariant_retire s _ mission_id mission "cancelled" Hinv Hm Hact);
    [discriminate | |].
  - unfold update_pet. destruct (pets (live s) !! Mission.pet_id mission); reflexivity.
  - intros k Hk. unfold update_pet.
    destruct (pets (live s) !! Mission.pet_id mission); cbn; [| reflexivity].
    rewrite lookup_insert_ne by congruence. reflexivity.
Qed.

Lemma invariant_instant_complete_mission s mission_id user_id now :
  one_active_mission_per_pet (live s) ->
  one_active_mission_per_pet
    (live (fst (instant_complete_mission s mission_id user_id now))).
Proof.
  intros Hinv. unfold instant_complete_mission.
  destruct (missions (live s) !! mission_id) as [mission |] eqn:Hm; [| exact Hinv].
  destruct (negb (is_active mission)) eqn:Hact; [exact Hinv |].
  destruct (users (live s) !! user_id) as [user |]; [| exact Hinv].
  destruct (User.stars user <? _); [exact Hinv |]. cbn [fst].
  eapply (invariant_kept _ s); [exact Hinv | | | reflexivity].
  - intros k m' Hk Hact'. cbn in Hk.
    destruct (decide (k = mission_id)) as [-> | Hne].
    + rewrite lookup_insert_eq in Hk. injection Hk as <-. exists mission. auto.
    + rewrite lookup_insert_ne in Hk by congruence. eauto.
  - apply busy_same_pets. reflexivity.
Qed.

Lemma invariant_sweep now draws s :
  one_active_mission_per_pet (live s) ->
  one_active_mission_per_pet (live (check_and_autocomplete_missions s now draws)).
Proof.
  unfold check_and_autocomplete_missions.
  generalize (List.filter
                (fun row => is_active (snd row) && (Mission.complete_at (snd row) <=? now))
                (map_to_list (missions (live s)))).
  intros rows. revert s. induction rows as [| row rows IH]; intros s Hinv; [exact Hinv |].
  cbn [fold_left]. apply IH, invariant_complete_mission, Hinv.
Qed.

(** The busy pets of a raid stay busy: only a pet that is not on a
    mission can be stolen, and fatigue frees no pet. *)
Lemma busy_fatigue_all now (rows : list (Z * Pet.t)) : forall s,
  keeps_busy s (RaidService.fatigue_all s now rows).
Proof.
  induction rows as [| [k p] rows IH]; intros s; [apply busy_refl |].
  change (RaidService.fatigue_all s now ((k, p) :: rows))
    with (RaidService.fatigue_all (PetService.set_pet_fatigue s k 2 now) now rows).
  eapply busy_trans; [| apply IH].
  unfold PetService.set_pet_fatigue, update_pet.
  destruct (pets (live s) !! k) as [p0 |] eqn:Hk;
    [| apply busy_same_pets; reflexivity].
  eapply busy_trans; [apply busy_write_pet | apply busy_same_pets; reflexivity].
  intros p1 Hp1 Hbusy. rewrite Hk in Hp1. injection Hp1 as <-. exact Hbusy.
Qed.

Lemma busy_transfer_pet s pet_id new_owner_id reason pet :
  pets (live s) !! pet_id = Some pet ->
  Pet.is_on_mission pet = false ->
  keeps_busy s (fst (PetService.transfer_pet s pet_id new_owner_id reason)).
Proof.
  intros Hpet Hfree. unfold PetService.transfer_pet.
  destruct (users (live s) !! new_owner_id); [| apply busy_refl].
  destruct (_ <=? _); [apply busy_refl |].
  rewrite Hpet. cbn [fst].
  eapply busy_trans; [apply busy_write_pet | apply busy_same_pets; reflexivity].
  intros p Hp Hbusy. congruence.
Qed.

Lemma busy_execute_raid s a d ids now offset draw pick ld :
  keeps_busy s (fst (RaidService.execute_raid s a d ids now offset draw pick ld)).
Proof.
  unfold RaidService.execute_raid.
  pose proof (TransferFacts.can_raid_target_pets s a d now) as Hpets.
  destruct (RaidService.can_raid_target s a d now) as [s1 [[e |] | e]];
    cbn [fst] in Hpets; [apply busy_same_pets, Hpets | | apply busy_same_pets, Hpets].
  eapply busy_trans; [apply busy_same_pets, Hpets |]. clear Hpets.
  destruct (flat_map _ ids) as [| row rows]; [apply busy_refl |].
  destruct (Qlt_le_dec _ _).
  - assert (Hfinish : forall s2 stolen,
               keeps_busy s2
                 (fst (match users (live s2) !! a with
                       | None => (s2, Py.Raise Py.AttributeError)
                       | Some attacker =>
                           let attacker :=
                             User.set_raid_shield_until (Some (now + RAID_SHIELD_DURATION))
                               attacker in
                           let attacker :=
                             User.set_raids_won (User.raids_won attacker + 1) attacker in
                           let attacker :=
                             User.set_free_raids_today (User.free_raids_today attacker - 1)
                               attacker in
                           let s := write_user a attacker s2 in
                           match users (live s) !! d with
                           | None => (s, Py.Raise Py.AttributeError)
                           | Some defender =>
                               let defender :=
                                 User.set_defenses_lost (User.defenses_lost defender + 1)
                                   defender in
                               let s := write_user d defender s in
                               let raid :=
                                 Raid.Make a d
                                   (Py.sum (List.map
                                              (fun row => Pet.power (snd row)
                                                          * Pet.level (snd row))
                                              (row :: rows)))
                                   (PetService.calculate_total_defense_power s1 d)
                                   "win" stolen now in
                               (commit (add_raid raid s),
                                Py.Ok (RaidService.Outcome true
                                         (Py.sum (List.map
                                                    (fun row => Pet.power (snd row)
                                                                * Pet.level (snd row))
                                                    (row :: rows)))
                                         (PetService.calculate_total_defense_power s1 d)
                                         stolen))
                           end
                       end))).
    { intros s2 stolen. destruct (users (live s2) !! a); [| apply busy_refl].
      cbv zeta. destruct (users (live (write_user a _ s2)) !! d);
        apply busy_same_pets; reflexivity. }
    destruct (RaidService.choice _ pick) as [[tid tp] |] eqn:Hpick.
    + apply TransferFacts.choice_elem_of in Hpick.
      apply TransferFacts.elem_of_select_pets in Hpick as [Htp Hcond].
      apply andb_prop in Hcond as [Hcond _]. apply andb_prop in Hcond as [_ Hfree].
      apply negb_true_iff in Hfree.
      destruct (PetService.can_steal_pet tp ld).
      * pose proof (busy_transfer_pet s1 tid a "raid" tp Htp Hfree) as Htr.
        destruct (PetService.transfer_pet s1 tid a "raid") as [s2 ok]. cbn [fst] in Htr.
        eapply busy_trans; [exact Htr | apply Hfinish].
      * apply Hfinish.
    + apply Hfinish.
  - pose proof (busy_fatigue_all now (row :: rows) s1) as Hfat.
    unfold RaidService.fatigue_all in Hfat.
    set (s2 := fold_left _ (row :: rows) s1) in *.
    eapply busy_trans; [exact Hfat |].
    destruct (users (live s2) !! a); [| apply busy_refl].
    cbv zeta. destruct (users (live (write_user a _ s2)) !! d);
      apply busy_same_pets; reflexivity.
Qed.

Lemma update_one_pets user_id inc now acc row :
  pets (live (fst (AchievementService.update_one user_id inc now acc row)))
  = pets (live (fst acc)).
Proof.
  unfold AchievementService.update_one.
  destruct acc as [s newly], row as [aid a].
  destruct (progress (live s) !! (user_id, aid)) as [p |]; cbn [fst];
    (destruct (AchievementProgress.completed _); [reflexivity |]);
    (destruct (_ <=? _); [| reflexivity]);
    unfold update_user; cbn;
    destruct (users (live s) !! user_id); reflexivity.
Qed.

Lemma check_and_update_achievements_pets s user_id key inc now :
  pets (live (fst (AchievementService.check_and_update_achievements s user_id key inc now)))
  = pets (live s).
Proof.
  unfold AchievementService.check_and_update_achievements.
  assert (Hfold : forall rows acc,
             pets (live (fst (fold_left (AchievementService.update_one user_id inc now)
                                rows acc)))
             = pets (live (fst acc))).
  { induction rows as [| row rows IH]; intros acc; simpl; [reflexivity |].
    rewrite IH. apply update_one_pets. }
  specialize (Hfold (AchievementService.select_achievements s key) (s, [])).
  destruct (fold_left _ _ _) as [s1 newly]. exact Hfold.
Qed.

Lemma buy_trap_pets s user_id trap_type :
  pets (live (fst (RaidService.buy_trap s user_id trap_type))) = pets (live s).
Proof.
  unfold RaidService.buy_trap.
  repeat (match goal with
          | |- context [match ?x with _ => _ end] => destruct x
          end; simpl; try reflexivity).
Qed.

Lemma invariant_handle now req s :
  one_active_mission_per_pet (live s) ->
  one_active_mission_per_pet (live (fst (handle now req s))).
Proof.
  intros Hinv. destruct req; simpl.
  - pose proof (invariant_start_mission s pet_id mission_type now Hinv) as H.
    destruct (start_mission _ _ _ _). exact H.
  - pose proof (invariant_complete_mission s mission_id now draw Hinv) as H.
    destruct (complete_mission _ _ _ _). exact H.
  - pose proof (invariant_cancel_mission s mission_id now Hinv) as H.
    destruct (cancel_mission _ _ _). exact H.
  - pose proof (invariant_instant_complete_mission s mission_id user_id now Hinv) as H.
    destruct (instant_complete_mission _ _ _ _). exact H.
  - apply invariant_sweep, Hinv.
  - pose proof (MissionFacts.neutral_can_raid_target s attacker_id defender_id now)
      as [Hm _].
    pose proof (TransferFacts.can_raid_target_pets s attacker_id defender_id now)
      as Hp.
    destruct (RaidService.can_raid_target _ _ _ _). cbn [fst] in *.
    apply (invariant_neutral s _ Hinv Hm), busy_same_pets, Hp.
  - pose proof (MissionFacts.neutral_execute_raid s attacker_id defender_id
                  attacker_pet_ids now offset draw pick loyalty_draw) as [Hm _].
    pose proof (busy_execute_raid s attacker_id defender_id
                  attacker_pet_ids now offset draw pick loyalty_draw) as Hp.
    destruct (RaidService.execute_raid _ _ _ _ _ _ _ _ _). cbn [fst] in *.
    apply (invariant_neutral s _ Hinv Hm Hp).
  - pose proof (MissionFacts.neutral_buy_trap s user_id trap_type) as [Hm _].
    pose proof (buy_trap_pets s user_id trap_type) as Hp.
    destruct (RaidService.buy_trap _ _ _). cbn [fst] in *.
    apply (invariant_neutral s _ Hinv Hm), busy_same_pets, Hp.
  - pose proof (MissionFacts.neutral_check_and_update_achievements s user_id
                  achievement_type value_increment now) as [Hm _].
    pose proof (check_and_update_achievements_pets s user_id achievement_type
                  value_increment now) as Hp.
    destruct (AchievementService.check_and_update_achievements _ _ _ _ _).
    cbn [fst] in *.
    apply (invariant_neutral s _ Hinv Hm), busy_same_pets, Hp.
Qed.

(** X24. At most one active mission per pet.  If in a session the pet of
    every active mission exists and is marked as on a mission, and no two
    active missions have the same pet, then the same holds after any run
    of requests: starting, completing, cancelling and instantly completing
    missions, sweeps, eligibility checks, raids, trap purchases and
    achievement updates, accepted or not. *)
Theorem one_active_mission_per_pet_kept
    (reqs : list (Z * request)) (s : Session) :
  one_active_mission_per_pet (live s) ->
  one_active_mission_per_pet (live (serve reqs s)).
Proof.
  revert s. induction reqs as [| [now req] reqs IH]; intros s Hinv; [exact Hinv |].
  cbn [serve fold_left]. apply IH. apply invariant_handle, Hinv.
Qed.

Lemma one_active_mission_per_pet_kept_witness :
  one_active_mission_per_pet
    (live (serve
             [(1000, StartMission 10 "long");
              (1900, CompleteMission 7 (1 # 2));
              (2000, StartMission 10 "epic");
              (2100, CancelMission 8);
              (9000, Sweep (fun _ => 99 # 100))]
             Examples.mission_session)).
Proof.
  apply (one_active_mission_per_pet_kept
           [(1000, StartMission 10 "long");
            (1900, CompleteMission 7 (1 # 2));
            (2000, StartMission 10 "epic");
            (2100, CancelMission 8);
            (9000, Sweep (fun _ => 99 # 100))]
           Examples.mission_session).
  apply check_missions_sound. vm_compute. reflexivity.
Defined.

(** X25. Under the invariant, looking up the active mission of a pet
    never meets two rows: [get_mission_by_pet] does not fail with
    [MultipleResultsFound], and it returns a mission exactly when that
    mission is the active mission of the pet. *)
Theorem get_mission_by_pet_finds_the_mission (s : Session) (pet_id : Z) :
  one_active_mission_per_pet (live s) ->
  get_mission_by_pet s pet_id <> MultipleResultsFound
  /\ (forall mission_id,
        get_mission_by_pet s pet_id = OneRow mission_id
        <-> exists mission,
              missions (live s) !! mission_id = Some mission
              /\ Mission.pet_id mission = pet_id
              /\ is_active mission = true).
Proof.
  intros [_ Huniq]. unfold get_mission_by_pet.
  set (cond := fun row : Z * Mission.t =>
                 (Mission.pet_id (snd row) =? pet_id) && is_active (snd row)).
  assert (Hrows : forall k m,
             (k, m) ∈ List.filter cond (map_to_list (missions (live s)))
             <-> missions (live s) !! k = Some m
                 /\ Mission.pet_id m = pet_id /\ is_active m = true).
  { intros k m. rewrite list_elem_of_In, filter_In, <- list_elem_of_In,
      elem_of_map_to_list. subst cond. cbn [snd].
    rewrite andb_true_iff, Z.eqb_eq. tauto. }
  destruct (List.filter cond (map_to_list (missions (live s))))
    as [| [k1 m1] [| [k2 m2] rows]] eqn:Erows; cbn.
  - split; [discriminate |]. intros mid. split; [discriminate |].
    intros (m & Hm & Hpet & Hact).
    assert (Hin : (mid, m) ∈ @nil (Z * Mission.t)) by (apply Hrows; auto).
    apply elem_of_nil in Hin. contradiction.
  - split; [discriminate |]. intros mid. split.
    + intros [= <-]. exists m1. apply Hrows, list_elem_of_here.
    + intros (m & Hm & Hpet & Hact).
      assert (Hin : (mid, m) ∈ [(k1, m1)]) by (apply Hrows; auto).
      apply list_elem_of_singleton in Hin. injection Hin as -> _. reflexivity.
  - exfalso.
    assert (H1 : (k1, m1) ∈ (k1, m1) :: (k2, m2) :: rows) by apply list_elem_of_here.
    assert (H2 : (k2, m2) ∈ (k1, m1) :: (k2, m2) :: rows)
      by apply list_elem_of_further, list_elem_of_here.
    apply Hrows in H1 as (Hk1 & Hp1 & Ha1). apply Hrows in H2 as (Hk2 & Hp2 & Ha2).
    assert (Heq : k1 = k2) by (apply (Huniq k1 k2 m1 m2); congruence).
    pose proof (TransferFacts.NoDup_fst_filter cond (map_to_list (missions (live s))))
      as Hnodup.
    rewrite Erows in Hnodup. specialize (Hnodup (NoDup_fst_map_to_list _)).
    cbn in Hnodup. apply NoDup_cons in Hnodup as [Hnot _].
    apply Hnot. subst k2. apply list_elem_of_here.
Qed.

Lemma get_mission_by_pet_finds_the_mission_witness :
  get_mission_by_pet Examples.mission_session 10 <> MultipleResultsFound
  /\ (forall mission_id,
        get_mission_by_pet Examples.mission_session 10 = OneRow mission_id
        <-> exists mission,
              missions (live Examples.mission_session) !! mission_id = Some mission
              /\ Mission.pet_id mission = 10
              /\ is_active mission = true).
Proof.
  apply (get_mission_by_pet_finds_the_mission Examples.mission_session 10).
  apply check_missions_sound. vm_compute. reflexivity.
Defined.

End MissionInvariant.

(** ** No pet ever levels up *)

Module NoLevelUp.
Import GameConstants MissionService Bot.

Lemma stats_start_mission s pet_id mission_type now :
  keeps_stats s (fst (start_mission s pet_id mission_type now)).
Proof.
  unfold start_mission.
  destruct (pets (live s) !! pet_id) as [pet |] eqn:Hpet;
    [| apply MissionRules.keeps_stats_refl].
  repeat (match goal with
          | |- context [match ?x with _ => _ end] => destruct x
          end; cbn [fst]; try apply MissionRules.keeps_stats_refl).
  eapply MissionRules.keeps_stats_trans; [| apply MissionRules.keeps_stats_commit].
  eapply MissionRules.keeps_stats_trans; [| apply MissionRules.keeps_stats_write_mission].
  eapply MissionRules.keeps_stats_write_pet; [exact Hpet | reflexivity].
Qed.

Lemma stats_cancel_mission s mission_id now :
  keeps_stats s (fst (cancel_mission s mission_id now)).
Proof.
  unfold cancel_mission.
  destruct (missions (live s) !! mission_id) as [mission |];
    [| apply MissionRules.keeps_stats_refl].
  destruct (negb _); [apply MissionRules.keeps_stats_refl |]. cbn [fst].
  eapply MissionRules.keeps_stats_trans; [| apply MissionRules.keeps_stats_commit].
  eapply MissionRules.keeps_stats_trans; [| apply MissionRules.keeps_stats_write_mission].
  apply MissionRules.keeps_stats_update_pet. reflexivity.
Qed.

Lemma stats_instant_complete_mission s mission_id user_id now :
  keeps_stats s (fst (instant_complete_mission s mission_id user_id now)).
Proof.
  unfold instant_complete_mission.
  repeat (match goal with
          | |- context [match ?x with _ => _ end] => destruct x
          end; cbn [fst]; try apply MissionRules.keeps_stats_refl).
  apply MissionRules.keeps_stats_same_pets. reflexivity.
Qed.

Lemma stats_sweep now draws s :
  keeps_stats s (check_and_autocomplete_missions s now draws).
Proof.
  unfold check_and_autocomplete_missions.
  generalize (List.filter
                (fun row => is_active (snd row) && (Mission.complete_at (snd row) <=? now))
                (map_to_list (missions (live s)))).
  intros rows. revert s.
  induction rows as [| row rows IH]; intros s; [apply MissionRules.keeps_stats_refl |].
  cbn [fold_left].
  eapply MissionRules.keeps_stats_trans;
    [apply MissionRules.keeps_stats_complete_mission | apply IH].
Qed.

Lemma stats_fatigue_all now (rows : list (Z * Pet.t)) : forall s,
  keeps_stats s (RaidService.fatigue_all s now rows).
Proof.
  induction rows as [| [k p] rows IH]; intros s; [apply MissionRules.keeps_stats_refl |].
  change (RaidService.fatigue_all s now ((k, p) :: rows))
    with (RaidService.fatigue_all (PetService.set_pet_fatigue s k 2 now) now rows).
  eapply MissionRules.keeps_stats_trans; [| apply IH].
  unfold PetService.set_pet_fatigue.
  eapply MissionRules.keeps_stats_trans; [| apply MissionRules.keeps_stats_commit].
  apply MissionRules.keeps_stats_update_pet. reflexivity.
Qed.

Lemma stats_transfer_pet s pet_id new_owner_id reason pet :
  pets (live s) !! pet_id = Some pet ->
  keeps_stats s (fst (PetService.transfer_pet s pet_id new_owner_id reason)).
Proof.
  intros Hpet. unfold PetService.transfer_pet.
  destruct (users (live s) !! new_owner_id); [| apply MissionRules.keeps_stats_refl].
  destruct (_ <=? _); [apply MissionRules.keeps_stats_refl |].
  rewrite Hpet. cbn [fst].
  eapply MissionRules.keeps_stats_trans; [| apply MissionRules.keeps_stats_commit].
  eapply MissionRules.keeps_stats_write_pet; [exact Hpet | reflexivity].
Qed.

(** The end of a raid writes the two players and the log. *)
Ltac raid_tail a d :=
  match goal with
  | |- keeps_stats ?s2 _ =>
      destruct (users (live s2) !! a); [| apply MissionRules.keeps_stats_refl];
      cbv zeta;
      destruct (users (live (write_user a _ s2)) !! d);
      apply MissionRules.keeps_stats_same_pets; reflexivity
  end.

Lemma stats_execute_raid s a d ids now offset draw pick ld :
  keeps_stats s (fst (RaidService.execute_raid s a d ids now offset draw pick ld)).
Proof.
  unfold RaidService.execute_raid.
  pose proof (TransferFacts.can_raid_target_pets s a d now) as Hpets.
  destruct (RaidService.can_raid_target s a d now) as [s1 [[e |] | e]];
    cbn [fst] in Hpets;
    [apply MissionRules.keeps_stats_same_pets, Hpets
    | | apply MissionRules.keeps_stats_same_pets, Hpets].
  eapply MissionRules.keeps_stats_trans;
    [apply MissionRules.keeps_stats_same_pets, Hpets |]. clear Hpets.
  destruct (flat_map _ ids) as [| row rows]; [apply MissionRules.keeps_stats_refl |].
  destruct (Qlt_le_dec _ _).
  - destruct (RaidService.choice _ pick) as [[tid tp] |] eqn:Hpick.
    + apply TransferFacts.choice_elem_of in Hpick.
      apply TransferFacts.elem_of_select_pets in Hpick as [Htp _].
      destruct (PetService.can_steal_pet tp ld).
      * pose proof (stats_transfer_pet s1 tid a "raid" tp Htp) as Htr.
        destruct (PetService.transfer_pet s1 tid a "raid") as [s2 ok]. cbn [fst] in Htr.
        eapply MissionRules.keeps_stats_trans; [exact Htr |]. raid_tail a d.
      * raid_tail a d.
    + raid_tail a d.
  - pose proof (stats_fatigue_all now (row :: rows) s1) as Hfat.
    unfold RaidService.fatigue_all in Hfat.
    set (s2 := fold_left _ (row :: rows) s1) in *.
    eapply MissionRules.keeps_stats_trans; [exact Hfat |]. raid_tail a d.
Qed.

(** No request changes the level, the power, the income, the evolution
    stage or the stamina of a pet. *)
Lemma stats_handle now req s : keeps_stats s (fst (handle now req s)).
Proof.
  destruct req; simpl.
  - pose proof (stats_start_mission s pet_id mission_type now) as H.
    destruct (start_mission _ _ _ _). exact H.
  - pose proof (MissionRules.keeps_stats_complete_mission now s mission_id draw) as H.
    destruct (complete_mission _ _ _ _). exact H.
  - pose proof (stats_cancel_mission s mission_id now) as H.
    destruct (cancel_mission _ _ _). exact H.
  - pose proof (stats_instant_complete_mission s mission_id user_id now) as H.
    destruct (instant_complete_mission _ _ _ _). exact H.
  - apply stats_sweep.
  - pose proof (TransferFacts.can_raid_target_pets s attacker_id defender_id now) as H.
    destruct (RaidService.can_raid_target _ _ _ _). cbn [fst] in *.
    apply MissionRules.keeps_stats_same_pets, H.
  - pose proof (stats_execute_raid s attacker_id defender_id attacker_pet_ids
                  now offset draw pick loyalty_draw) as H.
    destruct (RaidService.execute_raid _ _ _ _ _ _ _ _ _). exact H.
  - pose proof (MissionInvariant.buy_trap_pets s user_id trap_type) as H.
    destruct (RaidService.buy_trap _ _ _). cbn [fst] in *.
    apply MissionRules.keeps_stats_same_pets, H.
  - pose proof (MissionInvariant.check_and_update_achievements_pets s user_id
                  achievement_type value_increment now) as H.
    destruct (AchievementService.check_and_update_achievements _ _ _ _ _).
    cbn [fst] in *.
    apply MissionRules.keeps_stats_same_pets, H.
Qed.

(** X2. No pet ever levels up.  Along any run of requests (missions
    started, collected, cancelled, completed at once, sweeps, eligibility
    checks, raids, trap purchases, achievement updates), every pet of the
    session is still there, at the level, the power, the income, the
    evolution stage and the stamina it had: the only code that raises
    them is the body of the loop of [add_exp_to_pet], which never runs. *)
Theorem no_pet_ever_levels_up
    (reqs : list (Z * request)) (s : Session) (pet_id : Z) (pet : Pet.t) :
  pets (live s) !! pet_id = Some pet ->
  exists pet',
    pets (live (serve reqs s)) !! pet_id = Some pet'
    /\ Pet.level pet' = Pet.level pet
    /\ Pet.power pet' = Pet.power pet
    /\ Pet.income_per_hour pet' = Pet.income_per_hour pet
    /\ Pet.evolution_stage pet' = Pet.evolution_stage pet
    /\ Pet.stamina pet' = Pet.stamina pet.
Proof.
  intros Hpet.
  assert (Hserve : forall reqs s, keeps_stats s (serve reqs s)).
  { clear. induction reqs as [| [now req] reqs IH]; intros s;
      [apply MissionRules.keeps_stats_refl |].
    cbn [serve fold_left].
    eapply MissionRules.keeps_stats_trans; [apply stats_handle | apply IH]. }
  destruct (Hserve reqs s pet_id pet Hpet) as (pet' & Hpet' & Hstats).
  injection Hstats as Hlevel Hpower Hincome Hstage Hstamina.
  exists pet'. split; [exact Hpet' |]. repeat split; assumption.
Qed.

(** Pet 10, at level 5, comes back from two quick missions and a raid; the
    experience of the first mission takes it past [requirement(5)]. *)
Lemma no_pet_ever_levels_up_witness :
  let pet := Pet.set_exp 150 (Examples.pet 1 "Rare" true false None) in
  let s := write_pet 10 pet Examples.mission_session in
  let reqs :=
    [ (1900, CompleteMission 7 (1 # 2));
      (2000, Sweep (fun _ => 0%Q));
      (3000, CancelMission 7);
      (9000, StartMission 10 "quick");
      (12000, Sweep (fun _ => 0%Q)) ] in
  exists pet',
    pets (live (serve reqs s)) !! 10 = Some pet'
    /\ Pet.level pet' = Pet.level pet
    /\ Pet.power pet' = Pet.power pet
    /\ Pet.income_per_hour pet' = Pet.income_per_hour pet
    /\ Pet.evolution_stage pet' = Pet.evolution_stage pet
    /\ Pet.stamina pet' = Pet.stamina pet.
Proof.
  apply (no_pet_ever_levels_up
           [ (1900, CompleteMission 7 (1 # 2));
             (2000, Sweep (fun _ => 0%Q));
             (3000, CancelMission 7);
             (9000, StartMission 10 "quick");
             (12000, Sweep (fun _ => 0%Q)) ]
           (write_pet 10 (Pet.set_exp 150 (Examples.pet 1 "Rare" true false None))
              Examples.mission_session)
           10 (Pet.set_exp 150 (Examples.pet 1 "Rare" true false None))).
  vm_compute. reflexivity.
Defined.

End NoLevelUp.

(** ** Eggs and new pets *)

Module GenerationRules.
Import GameConstants PetGenerator PetService.

Lemma bisect_le cum_weights x hi : (bisect cum_weights x hi <= hi)%nat.
Proof.
  unfold bisect.
  etransitivity; [apply List.filter_length_le |].
  rewrite length_take. lia.
Qed.

(** A draw from a population that is not empty gives one of its
    members. *)
Lemma choices_elem_of population weights u :
  population <> [] ->
  exists r, choices population weights u = Some r /\ r ∈ population.
Proof.
  intros Hne. unfold choices.
  set (i := bisect _ _ _).
  assert (Hi : (i < length population)%nat).
  { pose proof (bisect_le (accumulate weights 0)
                  (u * List.last (accumulate weights 0) 0)%Q
                  (length population - 1)) as Hle.
    fold i in Hle. destruct population; [contradiction |]. cbn [length] in *. lia. }
  destruct (lookup_lt_is_Some_2 population i Hi) as [r Hr].
  exists r. split; [exact Hr |]. apply (list_elem_of_lookup_2 _ i), Hr.
Qed.

(** Every rarity an egg can give is a rarity of the table. *)
Lemma rarities_of_egg_known egg_type rarity :
  rarity ∈ rarities_of_egg egg_type -> is_Some (get RARITIES rarity).
Proof.
  unfold rarities_of_egg.
  repeat (match goal with
          | |- context [if ?b then _ else _] => destruct b
          end).
  all: cbn [List.map RARITIES fst]; intros H;
    repeat (apply elem_of_cons in H as [-> | H]; [vm_compute; eauto |]);
    apply elem_of_nil in H; contradiction.
Qed.

Lemma determine_rarity_listed egg_type u :
  exists rarity,
    determine_rarity egg_type u = Some rarity /\ rarity ∈ rarities_of_egg egg_type.
Proof.
  unfold determine_rarity, rarities_of_egg.
  destruct (String.eqb egg_type "mythical");
    [exists "Mythical"; split; [reflexivity | apply list_elem_of_here] |].
  destruct (String.eqb egg_type "legendary"); [apply choices_elem_of; discriminate |].
  destruct (String.eqb egg_type "epic"); [apply choices_elem_of; discriminate |].
  destruct (String.eqb egg_type "rare"); [apply choices_elem_of; discriminate |].
  apply choices_elem_of. discriminate.
Qed.

Ltac draw_at u :=
  exists u; split; [vm_compute; discriminate |];
  split; [vm_compute; reflexivity | vm_compute; reflexivity].

(** X26. The rarity of a hatched pet.  Whatever the draw, a mythical egg
    gives a Mythical pet, a legendary egg a Legendary or Mythical one, an
    epic egg an Epic or Legendary one, a rare egg a Rare, Epic or Legendary
    one, and any other egg type is treated as a common egg and gives one of
    the six rarities of the table; the draw never fails.  Conversely every
    rarity listed for an egg is given by some draw in [0, 1). *)
Theorem determine_rarity_by_egg (egg_type : string) (u : Q) :
  (exists rarity,
      determine_rarity egg_type u = Some rarity
      /\ rarity ∈ rarities_of_egg egg_type
      /\ is_Some (get RARITIES rarity)
      /\ (egg_type = "mythical" -> rarity = "Mythical")
      /\ (egg_type = "legendary" -> rarity = "Legendary" \/ rarity = "Mythical")
      /\ (egg_type = "epic" -> rarity = "Epic" \/ rarity = "Legendary")
      /\ (egg_type = "rare" ->
          rarity = "Rare" \/ rarity = "Epic" \/ rarity = "Legendary"))
  /\ (forall rarity,
        rarity ∈ rarities_of_egg egg_type ->
        exists u', (0 <= u')%Q /\ (u' < 1)%Q
                   /\ determine_rarity egg_type u' = Some rarity).
Proof.
  split.
  - destruct (determine_rarity_listed egg_type u) as (rarity & Hrun & Hin).
    exists rarity. split; [exact Hrun |]. split; [exact Hin |].
    split; [apply (rarities_of_egg_known egg_type), Hin |].
    repeat split; intros ->; vm_compute in Hin;
      repeat (apply elem_of_cons in Hin as [-> | Hin]; [tauto |]);
      apply elem_of_nil in Hin; contradiction.
  - intros rarity. unfold rarities_of_egg, determine_rarity.
    destruct (String.eqb egg_type "mythical").
    { intros H. apply list_elem_of_singleton in H as ->. draw_at 0%Q. }
    destruct (String.eqb egg_type "legendary").
    { intros H. repeat (apply elem_of_cons in H as [-> | H]);
        [draw_at 0%Q | draw_at (95 # 100) | apply elem_of_nil in H; contradiction]. }
    destruct (String.eqb egg_type "epic").
    { intros H. repeat (apply elem_of_cons in H as [-> | H]);
        [draw_at 0%Q | draw_at (95 # 100) | apply elem_of_nil in H; contradiction]. }
    destruct (String.eqb egg_type "rare").
    { intros H. repeat (apply elem_of_cons in H as [-> | H]);
        [draw_at 0%Q | draw_at (8 # 10) | draw_at (97 # 100)
         | apply elem_of_nil in H; contradiction]. }
    cbn [List.map RARITIES fst].
    intros H. repeat (apply elem_of_cons in H as [-> | H]);
      [draw_at 0%Q | draw_at (6 # 10) | draw_at (9 # 10) | draw_at (97 # 100)
       | draw_at (995 # 1000) | draw_at (9995 # 10000)
       | apply elem_of_nil in H; contradiction].
Qed.

(** The base stats of the table are positive. *)
Lemma rarity_data_positive rarity rarity_data :
  get RARITIES rarity = Some rarity_data ->
  0 < base_income rarity_data /\ 0 < base_power rarity_data.
Proof.
  unfold RARITIES. cbn [get].
  repeat (match goal with
          | |- context [String.eqb ?a rarity] => destruct (String.eqb a rarity)
          end; [intros [= <-]; cbn; lia |]).
  discriminate.
Qed.

(** The shiny bonus, in integers. *)
Lemma shiny_bonus_bounds (base : Z) :
  0 <= base ->
  base <= Py.int (inject_Z base * (12 # 10))
  /\ 10 * Py.int (inject_Z base * (12 # 10)) <= 12 * base.
Proof.
  intros Hbase. unfold Py.int. cbn [Qnum Qden Qmult inject_Z].
  change (Z.pos (1 * 10)) with 10. split.
  - apply Z.quot_le_lower_bound; lia.
  - pose proof (Z.mul_quot_le (base * 12) 10). lia.
Qed.


(** X27. A pet that comes out of an egg is well formed, whatever the egg
    type and the draws: generation never fails; the pet is of level 1 with
    no experience, evolution stage 0 and stamina 100, has the loyalty drawn
    and comes from an egg; its rarity is one the egg can give; without the
    shiny bonus its income and power are those the table gives its rarity,
    with the bonus they are at least those and at most 1.2 times those. *)
Theorem generated_pet_is_well_formed
    (egg_type : string) (u shiny_draw : Q) (loyalty : Z) :
  exists pet_data rarity_data,
    generate_pet egg_type u shiny_draw loyalty = Some pet_data
    /\ PetData.rarity pet_data ∈ rarities_of_egg egg_type
    /\ get RARITIES (PetData.rarity pet_data) = Some rarity_data
    /\ PetData.level pet_data = 1
    /\ PetData.exp pet_data = 0
    /\ PetData.evolution_stage pet_data = 0
    /\ PetData.stamina pet_data = 100
    /\ PetData.loyalty pet_data = loyalty
    /\ PetData.obtained_from pet_data = "egg"
    /\ (PetData.is_shiny pet_data = true <-> (shiny_draw < 1 # 100)%Q)
    /\ (PetData.is_shiny pet_data = false ->
        PetData.income_per_hour pet_data = base_income rarity_data
        /\ PetData.power pet_data = base_power rarity_data)
    /\ base_income rarity_data <= PetData.income_per_hour pet_data
    /\ 10 * PetData.income_per_hour pet_data <= 12 * base_income rarity_data
    /\ base_power rarity_data <= PetData.power pet_data
    /\ 10 * PetData.power pet_data <= 12 * base_power rarity_data.
Proof.
  destruct (determine_rarity_listed egg_type u) as (rarity & Hrun & Hin).
  destruct (rarities_of_egg_known egg_type rarity Hin) as [rarity_data Hdata].
  destruct (rarity_data_positive rarity rarity_data Hdata) as [Hincome Hpower].
  unfold generate_pet, calculate_base_stats. rewrite Hrun, Hdata. cbv zeta.
  eexists _, rarity_data. split; [reflexivity |].
  cbn [PetData.rarity PetData.level PetData.exp PetData.evolution_stage
       PetData.stamina PetData.loyalty PetData.obtained_from PetData.is_shiny
       PetData.income_per_hour PetData.power
       Stats.power Stats.income_per_hour Stats.stamina Stats.loyalty].
  repeat (split; [first [exact Hin | exact Hdata | reflexivity] |]).
  unfold is_shiny.
  destruct (Qlt_le_dec shiny_draw (1 # 100)) as [Hlt | Hge].
  - split; [tauto |]. split; [discriminate |].
    pose proof (shiny_bonus_bounds (base_income rarity_data)) as Hi.
    pose proof (shiny_bonus_bounds (base_power rarity_data)) as Hp.
    lia.
  - split; [split; [discriminate | intros Hlt; exfalso; apply (Qlt_not_le _ _ Hlt), Hge] |].
    split; [intros _; split; reflexivity |]. lia.
Qed.

End GenerationRules.

(** ** The achievement tracker and the handlers *)

Module HandlerRules.
Import GameConstants PetGenerator PetService AchievementService Bot.

(** The fields of a player that the tracker has no business with. *)
Lemma update_one_user_frame user_id inc now acc row u :
  match users (live (fst acc)) !! u with
  | None => users (live (fst (update_one user_id inc now acc row))) !! u = None
  | Some user =>
      exists coins stars,
        users (live (fst (update_one user_id inc now acc row))) !! u
        = Some (User.set_stars stars (User.set_coins coins user))
  end.
Proof.
  assert (Hsame : forall user : User.t,
             user = User.set_stars (User.stars user) (User.set_coins (User.coins user) user))
    by (intros []; reflexivity).
  unfold update_one. destruct acc as [s newly], row as [aid a]. cbn [fst].
  assert (Hkeep : match users (live s) !! u with
                  | None => users (live s) !! u = None
                  | Some user =>
                      exists coins stars,
                        users (live s) !! u
                        = Some (User.set_stars stars (User.set_coins coins user))
                  end).
  { destruct (users (live s) !! u) as [user |] eqn:Hu; [| reflexivity].
    exists (User.coins user), (User.stars user). f_equal. apply Hsame. }
  destruct (progress (live s) !! (user_id, aid)) as [p |]; cbn [fst];
    (destruct (AchievementProgress.completed _); [exact Hkeep |]);
    (destruct (_ <=? _); [| exact Hkeep]);
    unfold update_user; cbn [write_progress live users set_progress];
    (destruct (users (live s) !! user_id) as [user0 |] eqn:Hu0; [| exact Hkeep]);
    cbn [fst write_user live users set_users];
    (destruct (decide (user_id = u)) as [<- | Hne];
     [rewrite Hu0, lookup_insert_eq; eexists _, _; reflexivity
     | rewrite lookup_insert_ne by exact Hne; exact Hkeep]).
Qed.

Lemma tracker_loop_user_frame user_id inc now (rows : list (Z * Achievement.t)) u :
  forall acc,
    match users (live (fst acc)) !! u with
    | None => users (live (fst (fold_left (update_one user_id inc now) rows acc))) !! u
              = None
    | Some user =>
        exists coins stars,
          users (live (fst (fold_left (update_one user_id inc now) rows acc))) !! u
          = Some (User.set_stars stars (User.set_coins coins user))
    end.
Proof.
  induction rows as [| row rows IH]; intros acc; cbn [fold_left].
  - destruct (users (live (fst acc)) !! u) as [user |]; [| reflexivity].
    exists (User.coins user), (User.stars user). destruct user. reflexivity.
  - pose proof (update_one_user_frame user_id inc now acc row u) as Hone.
    specialize (IH (update_one user_id inc now acc row)).
    destruct (users (live (fst acc)) !! u) as [user |].
    + destruct Hone as (c1 & s1 & H1). rewrite H1 in IH.
      destruct IH as (c2 & s2 & H2). exists c2, s2. rewrite H2.
      destruct user. reflexivity.
    + rewrite Hone in IH. exact IH.
Qed.

(** Everything a call of the tracker does outside the progress rows. *)
Lemma tracker_effect s user_id key inc now :
  let r := check_and_update_achievements s user_id key inc now in
  pets (live (fst r)) = pets (live s)
  /\ missions (live (fst r)) = missions (live s)
  /\ achievements (live (fst r)) = achievements (live s)
  /\ (forall u, u <> user_id -> users (live (fst r)) !! u = users (live s) !! u)
  /\ (forall u k, u <> user_id ->
                  progress (live (fst r)) !! (u, k) = progress (live s) !! (u, k))
  /\ match users (live s) !! user_id with
     | None => users (live (fst r)) !! user_id = None
     | Some user =>
         users (live (fst r)) !! user_id
         = Some (User.set_stars (User.stars user + reward_stars_of (live s) (snd r))
                   (User.set_coins (User.coins user + reward_coins_of (live s) (snd r))
                      user))
     end
  /\ persisted (fst r) = live (fst r).
Proof.
  cbv zeta.
  split; [apply MissionInvariant.check_and_update_achievements_pets |].
  split; [apply (MissionFacts.neutral_check_and_update_achievements s user_id key inc now) |].
  unfold check_and_update_achievements.
  pose proof (AchievementFacts.loop_spec user_id inc now
                (select_achievements s key) s []
                (AchievementFacts.NoDup_select_achievements s key)) as Hloop.
  cbv zeta in Hloop.
  destruct Hloop as (HNew & _ & _ & HOther & HUsers & HUser & HAch & _).
  { intros k a' Hin. apply AchievementFacts.elem_of_select_achievements in Hin. tauto. }
  pose proof (tracker_loop_user_frame user_id inc now (select_achievements s key)
                user_id (s, [])) as Hframe.
  destruct (fold_left _ _ _) as [s1 newly1]. unfold commit.
  cbn [fst snd live persisted app] in *. subst newly1.
  split; [exact HAch |]. split; [exact HUsers |].
  split; [intros u k Hu; apply HOther; left; exact Hu |].
  split; [| reflexivity].
  destruct (users (live s) !! user_id) as [user |]; [| exact HUser].
  destruct HUser as (user' & Huser' & Hcoins & Hstars).
  destruct Hframe as (c & st & Hframe).
  rewrite Huser' in Hframe |- *. injection Hframe as ->.
  cbn in Hcoins, Hstars. subst c st. reflexivity.
Qed.

(** X28. What the achievement tracker touches.  A call pays the player
    exactly the coins and the Stars of the definitions it returns as newly
    completed, and changes nothing else of the player's row; it leaves
    every other player, their progress, the pets, the missions and the
    definitions as they were, and commits. *)
Theorem tracker_pays_what_it_returns
    (s : Session) (user_id : Z) (achievement_type : string)
    (value_increment now : Z) (user : User.t) :
  users (live s) !! user_id = Some user ->
  let r := check_and_update_achievements s user_id achievement_type value_increment now in
  users (live (fst r)) !! user_id
  = Some (User.set_stars (User.stars user + reward_stars_of (live s) (snd r))
            (User.set_coins (User.coins user + reward_coins_of (live s) (snd r)) user))
  /\ (forall u, u <> user_id -> users (live (fst r)) !! u = users (live s) !! u)
  /\ (forall u k, u <> user_id ->
                  progress (live (fst r)) !! (u, k) = progress (live s) !! (u, k))
  /\ pets (live (fst r)) = pets (live s)
  /\ missions (live (fst r)) = missions (live s)
  /\ achievements (live (fst r)) = achievements (live s)
  /\ persisted (fst r) = live (fst r).
Proof.
  intros Huser.
  pose proof (tracker_effect s user_id achievement_type value_increment now) as H.
  cbv zeta in *. rewrite Huser in H. tauto.
Qed.

Lemma tracker_pays_what_it_returns_witness :
  let s := Examples.achievement_session in
  let user := Examples.user 5 None None in
  let r := check_and_update_achievements s 1 "pets_owned" 1 100 in
  users (live (fst r)) !! 1
  = Some (User.set_stars (User.stars user + reward_stars_of (live s) (snd r))
            (User.set_coins (User.coins user + reward_coins_of (live s) (snd r)) user))
  /\ (forall u, u <> 1 -> users (live (fst r)) !! u = users (live s) !! u)
  /\ (forall u k, u <> 1 ->
                  progress (live (fst r)) !! (u, k) = progress (live s) !! (u, k))
  /\ pets (live (fst r)) = pets (live s)
  /\ missions (live (fst r)) = missions (live s)
  /\ achievements (live (fst r)) = achievements (live s)
  /\ persisted (fst r) = live (fst r).
Proof.
  apply (tracker_pays_what_it_returns Examples.achievement_session 1 "pets_owned" 1 100
           (Examples.user 5 None None)).
  vm_compute. reflexivity.
Defined.



(** X30. The mission button checks the owner.  For a caller other than 0,
    a request for a pet that is not the caller's own changes nothing and
    starts no mission; a request that goes through is for a pet of the
    caller, and has created one new active mission of that pet for the
    caller; a request that is refused changes nothing. *)
Theorem start_mission_handler_checks_the_owner
    (s s' : Session) (user_id pet_id : Z) (mission_type : string) (now : Z)
    (r : response) :
  user_id <> 0 ->
  Handlers.start_mission s user_id pet_id mission_type now = (s', r) ->
  ((forall pet, pets (live s) !! pet_id = Some pet -> Pet.owner_id pet <> user_id) ->
   s' = s /\ r = Crashed Py.AttributeError)
  /\ (r <> Accepted -> s' = s)
  /\ (r = Accepted ->
      exists pet mission_id mission,
        pets (live s) !! pet_id = Some pet
        /\ Pet.owner_id pet = user_id
        /\ missions (live s) !! mission_id = None
        /\ missions (live s') !! mission_id = Some mission
        /\ Mission.pet_id mission = pet_id
        /\ Mission.user_id mission = user_id
        /\ Mission.status mission = "active").
Proof.
  intros Hcaller. unfold Handlers.start_mission, get_pet_by_id.
  destruct (pets (live s) !! pet_id) as [pet |] eqn:Hpet.
  - replace (user_id =? 0) with false by (symmetry; apply Z.eqb_neq; exact Hcaller).
    cbn [orb].
    destruct (Pet.owner_id pet =? user_id) eqn:Eown.
    + apply Z.eqb_eq in Eown.
      pose proof (RejectionFacts.start_mission_raise s pet_id mission_type now) as Hraise.
      destruct (MissionService.start_mission s pet_id mission_type now)
        as [s1 [mid | e]] eqn:Hstart.
      * pose proof (tracker_effect s1 user_id "missions_completed" 0 now) as Heffect.
        cbv zeta in Heffect.
        destruct (check_and_update_achievements s1 user_id "missions_completed" 0 now)
          as [s2 newly]. cbn [fst] in Heffect.
        destruct Heffect as (_ & Hmissions & _).
        intros [= <- <-].
        split; [intros Hnot; exfalso; exact (Hnot pet eq_refl Eown) |].
        split; [congruence |]. intros _.
        revert Hstart. unfold MissionService.start_mission. rewrite Hpet.
        destruct (Pet.is_on_mission pet); [discriminate |].
        destruct (Pet.is_defending pet); [discriminate |].
        destruct (match Pet.fatigue_until pet with Some _ => _ | None => _ end);
          [discriminate |].
        destruct (get MISSION_TYPES mission_type) as [md |]; [| discriminate].
        destruct (generate_mission_rewards _ _ _) as [[coins exp] |]; [| discriminate].
        intros [= <- <-].
        eexists pet, (MissionService.new_mission_id s), _.
        split; [reflexivity |]. split; [exact Eown |].
        split.
        { apply not_elem_of_dom. intros Hin.
          apply (is_fresh (dom (missions (live s)) ∪ dom (missions (persisted s)))).
          apply elem_of_union_l, Hin. }
        split; [rewrite Hmissions; cbn; apply lookup_insert_eq |].
        cbn. auto.
      * specialize (Hraise s1 e eq_refl). subst s1.
        destruct e as [reason | |]; intros [= <- <-];
          (split; [intros Hnot; exfalso; exact (Hnot pet eq_refl Eown) |]);
          (split; [reflexivity | discriminate]).
    + apply Z.eqb_neq in Eown. intros [= <- <-].
      split; [auto |]. split; [reflexivity | discriminate].
  - intros [= <- <-].
    split; [auto |]. split; [reflexivity | discriminate].
Qed.

Lemma start_mission_handler_checks_the_owner_witness :
  let s := Examples.open_session in
  let s' := fst (Handlers.start_mission s 1 20 "quick" 1000) in
  let r := snd (Handlers.start_mission s 1 20 "quick" 1000) in
  ((forall pet, pets (live s) !! 20 = Some pet -> Pet.owner_id pet <> 1) ->
   s' = s /\ r = Crashed Py.AttributeError)
  /\ (r <> Accepted -> s' = s)
  /\ (r = Accepted ->
      exists pet mission_id mission,
        pets (live s) !! 20 = Some pet
        /\ Pet.owner_id pet = 1
        /\ missions (live s) !! mission_id = None
        /\ missions (live s') !! mission_id = Some mission
        /\ Mission.pet_id mission = 20
        /\ Mission.user_id mission = 1
        /\ Mission.status mission = "active").
Proof.
  apply (start_mission_handler_checks_the_owner Examples.open_session _ 1 20 "quick" 1000).
  - discriminate.
  - vm_compute. reflexivity.
Defined.

End HandlerRules.

